(** * Notification pipeline of the crypto-signals backend

    A shallow embedding of the notification part of [server/storage.ts]
    (both [DatabaseStorage] and [MemoryStorage]), of the admin route that
    enqueues a notification ([server/routes/admin.ts]) and of
    [server/services/emailService.ts], followed by the properties of the
    notification-pipeline specification that can be read off that code.

    Conventions of the embedding:
    - a [Date] is its [getTime()] value, a [Z] number of milliseconds;
    - [new Date()], [Date.now()] and [Math.random()] are read from explicit
      arguments ([now], [rnd]);
    - a method of a storage class is a function from the state of the
      object to its result and the next state;
    - an [async] function that rejects is a function that returns [Throw]. *)

From Stdlib Require Import ZArith List Sorted Permutation Floats Uint63 Ascii String.
From stdpp Require Import base option list strings pretty sorting.

Open Scope Z_scope.
Set Warnings "-register-all".

(* ================================================================== *)
(** ** JavaScript values and control flow *)

Module Js.

(** The values that travel through fields typed [any] (metadata, channel
    configuration, request bodies, the result of [getNotificationStats]).
    An object is the list of its own properties in insertion order; a
    built-in function is known by its name. *)
Inductive JsVal : Type :=
| JUndefined
| JNull
| JBool (b : bool)
| JNum (n : Z)
| JStr (s : string)
| JObj (fields : list (string * JsVal))
| JFun (name : string).

(** [ToBoolean]. *)
Definition truthy (v : JsVal) : bool :=
  match v with
  | JUndefined | JNull => false
  | JBool b => b
  | JNum n => negb (n =? 0)
  | JStr s => negb (String.eqb s "")
  | JObj _ => true
  | JFun _ => true
  end.

(** [!!s] for a string. *)
Definition truthy_str (s : string) : bool := negb (String.eqb s "").

(** [!!process.env.X]: an unset variable is [undefined]. *)
Definition truthy_env (v : option string) : bool :=
  match v with
  | None => false
  | Some s => truthy_str s
  end.

(** Property read [o[k]] on the own properties of an object. *)
Fixpoint obj_get (k : string) (o : list (string * JsVal)) : JsVal :=
  match o with
  | [] => JUndefined
  | (k', v) :: o' => if String.eqb k k' then v else obj_get k o'
  end.

(** Property write [o[k] = v]: an existing key keeps its position, a new
    key goes last. *)
Fixpoint obj_set (k : string) (v : JsVal) (o : list (string * JsVal))
  : list (string * JsVal) :=
  match o with
  | [] => [(k, v)]
  | (k', v') :: o' =>
      if String.eqb k k' then (k, v) :: o' else (k', v') :: obj_set k v o'
  end.

(** Object spread [{ ...a, ...b }]. *)
Definition obj_spread (a b : list (string * JsVal)) : list (string * JsVal) :=
  fold_left (fun acc kv => obj_set (fst kv) (snd kv) acc) b a.

(** [String(f)] for a built-in function, as V8 prints it. *)
Definition native_source (name : string) : string :=
  "function " +:+ name +:+ "() { [native code] }".

(** [String(v)]; a number is an integer here and prints in decimal. *)
Definition to_string (v : JsVal) : string :=
  match v with
  | JUndefined => "undefined"
  | JNull => "null"
  | JBool true => "true"
  | JBool false => "false"
  | JNum n => pretty n
  | JStr s => s
  | JObj _ => "[object Object]"
  | JFun name => native_source name
  end.

(** The data properties of [Object.prototype], which an object literal
    inherits. *)
Definition object_prototype : list (string * JsVal) :=
  [ ("constructor", JFun "Object");
    ("__defineGetter__", JFun "__defineGetter__");
    ("__defineSetter__", JFun "__defineSetter__");
    ("hasOwnProperty", JFun "hasOwnProperty");
    ("__lookupGetter__", JFun "__lookupGetter__");
    ("__lookupSetter__", JFun "__lookupSetter__");
    ("isPrototypeOf", JFun "isPrototypeOf");
    ("propertyIsEnumerable", JFun "propertyIsEnumerable");
    ("toString", JFun "toString");
    ("valueOf", JFun "valueOf");
    ("toLocaleString", JFun "toLocaleString") ].

Definition has_own (k : string) (o : list (string * JsVal)) : bool :=
  existsb (fun kv => String.eqb k (fst kv)) o.

(** The names that an object literal answers to without having them. *)
Definition inherited (k : string) : bool :=
  String.eqb k "__proto__" || has_own k object_prototype.

(** Property read [o[k]] on an object literal [o]: an own property, else
    the property of that name of [Object.prototype]; its accessor
    [__proto__] answers the prototype itself. *)
Definition get (k : string) (o : list (string * JsVal)) : JsVal :=
  if has_own k o then obj_get k o
  else if String.eqb k "__proto__" then JObj object_prototype
  else obj_get k object_prototype.

(** Property write [o[k] = v] on an object literal [o], for a [v] that is
    not an object: an own property is created or overwritten, except that
    the inherited accessor [__proto__] takes the write and ignores such a
    [v]. *)
Definition assign (k : string) (v : JsVal) (o : list (string * JsVal))
  : list (string * JsVal) :=
  if negb (has_own k o) && String.eqb k "__proto__" then o else obj_set k v o.

(** [(v || 0) + 1]: a falsy [v] gives [0 + 1]; [+] adds numbers (a boolean
    counts as 0 or 1) and otherwise appends [String(1)] to [String(v)]. *)
Definition or_zero_plus_one (v : JsVal) : JsVal :=
  if truthy v then
    match v with
    | JNum n => JNum (n + 1)
    | JBool _ => JNum 2
    | _ => JStr (to_string v +:+ "1")
    end
  else JNum 1.

(** The outcome of running a piece of code: a value, or a thrown error
    (for an [async] function: a resolved or a rejected promise). *)
Inductive Completion (E A : Type) : Type :=
| Normal (a : A)
| Throw (e : E).
Arguments Normal {E A} a.
Arguments Throw {E A} e.

(** [Array.prototype.sort(cmp)]: a stable sort; [cmp a b <= 0] keeps [a]
    before [b]. *)
Section Sort.
Context {A : Type} (cmp : A -> A -> Z).

Fixpoint sort_insert (x : A) (l : list A) : list A :=
  match l with
  | [] => [x]
  | y :: l' => if cmp x y <=? 0 then x :: y :: l' else y :: sort_insert x l'
  end.

Definition sort (l : list A) : list A := foldr sort_insert [] l.
End Sort.

(** [Array.prototype.slice(0, n)] for an integer [n]: a negative [n]
    counts from the end. *)
Definition slice0 {A : Type} (n : Z) (l : list A) : list A :=
  if n <? 0 then take (Z.to_nat (Z.of_nat (length l) + n)) l
  else take (Z.to_nat n) l.

(** A non-negative integer as a [Number] (exact below 2^53). *)
Definition number (n : Z) : float := PrimFloat.of_uint63 (Uint63.of_Z n).

(** [Number.prototype.toFixed(1)] for a finite [x >= 0]: the integer [n]
    nearest to the exact value of [x * 10], the larger one on a tie,
    printed with its last digit after the point. *)
Definition toFixed1 (x : float) : string :=
  let n :=
    match Prim2SF x with
    | S754_finite false m e =>
        if 0 <=? e then Z.pos m * 10 * 2 ^ e
        else (2 * (Z.pos m * 10) + 2 ^ (- e)) / (2 * 2 ^ (- e))
    | _ => 0
    end in
  pretty (n / 10) +:+ "." +:+ pretty (n mod 10).

End Js.

(* ================================================================== *)
(** ** server/services/emailService.ts *)

Module EmailService.
Import Js.

(** [interface EmailParams]. *)
Record EmailParams := {
  to : string;
  from : string;
  subject : string;
  text : option string;
  html : option string
}.

(** The object handed to [sgMail.send]; [text] and [html] are present
    only when the spread in the source adds them. *)
Record MailData := {
  md_to : string;
  md_from : string;
  md_subject : string;
  md_text : option string;
  md_html : option string
}.

(** What [sgMail.send] rejects with: an [Error] object (a
    [ResponseError] of the client carries a [response] with the parsed
    [body]; a network error carries none). *)
Record SgResponse := { body : JsVal }.
Record SgError := { message : string; response : option SgResponse }.

(** Observable effects of the service, in program order. *)
Inductive Event : Type :=
| ConsoleLog (msg : string)
| ConsoleError (msg : string)
| ConsoleErrorSg (msg : string) (e : SgError)
| ConsoleErrorBody (msg : string) (b : JsVal)
| SgSend (m : MailData).

(** The SendGrid client: the outcome of [sgMail.send(mailData)]. *)
Definition Transport := MailData -> Completion SgError unit.

(** Code that logs, calls the transport and may throw. *)
Definition M (A : Type) : Type := list Event -> Completion SgError A * list Event.

Definition ret {A} (a : A) : M A := fun tr => (Normal a, tr).

Definition bind {A B} (m : M A) (k : A -> M B) : M B :=
  fun tr =>
    match m tr with
    | (Normal a, tr') => k a tr'
    | (Throw e, tr') => (Throw e, tr')
    end.

Definition emit (ev : Event) : M unit := fun tr => (Normal tt, tr ++ [ev]).

(** [await sgMail.send(mailData)]: the call is recorded, then resolves or
    rejects. *)
Definition sgMail_send (send : Transport) (m : MailData) : M unit :=
  fun tr => (send m, tr ++ [SgSend m]).

(** [try { body } catch (error) { handler }]. *)
Definition try_catch {A} (body : M A) (handler : SgError -> M A) : M A :=
  fun tr =>
    match body tr with
    | (Normal a, tr') => (Normal a, tr')
    | (Throw e, tr') => handler e tr'
    end.

Notation "m ;;; k" := (bind m (fun _ => k))
  (at level 100, k at level 200, right associativity).

(** [class EmailService]: its only field. *)
Record t := { isEnabled : bool }.

(** [constructor()]: [this.isEnabled = !!process.env.SENDGRID_API_KEY]. *)
Definition constructor (SENDGRID_API_KEY : option string) : t :=
  {| isEnabled := truthy_env SENDGRID_API_KEY |}.

(** [...(s && { key: s })]: the key is added for a non-empty string. *)
Definition spread_if (s : option string) : option string :=
  match s with
  | Some v => if truthy_str v then Some v else None
  | None => None
  end.

Definition mailData (params : EmailParams) : MailData :=
  {| md_to := to params;
     md_from := if truthy_str (from params) then from params
                else "noreply@proudprofits.com";
     md_subject := subject params;
     md_text := spread_if (text params);
     md_html := spread_if (html params) |}.

(** [error.response?.body] as a condition. *)
Definition response_body (e : SgError) : option JsVal :=
  match response e with
  | Some r => if truthy (body r) then Some (body r) else None
  | None => None
  end.

(** [async sendEmail(params)]. *)
Definition sendEmail (this : t) (send : Transport) (params : EmailParams) : M bool :=
  if negb (isEnabled this) then
    emit (ConsoleError "Email service is disabled - SENDGRID_API_KEY not configured") ;;;
    ret false
  else
    try_catch
      (sgMail_send send (mailData params) ;;;
       emit (ConsoleLog ("Email sent successfully to " ++ to params)) ;;;
       ret true)
      (fun error =>
         emit (ConsoleErrorSg "SendGrid email error:" error) ;;;
         match response_body error with
         | Some b => emit (ConsoleErrorBody "SendGrid error details:" b)
         | None => ret tt
         end ;;;
         ret false).

(** The transport calls recorded in a trace. *)
Definition sends (tr : list Event) : list MailData :=
  omap (fun ev => match ev with SgSend m => Some m | _ => None end) tr.

End EmailService.

(* ================================================================== *)
(** ** shared/schema: the rows of the notification tables

    [storage.ts] imports its row types from [shared/schema], which is not
    part of the source tree at hand.  Each row type lives in a module of
    its own so that the fields keep their source names. *)

Module NotificationQueue.
Import Js.

(** Modelled from the spec: [type NotificationQueue] of the missing
    [shared/schema], one queued notification, with the fields of the
    data model (NotificationItem) that the storage code and the routes
    read or write.  [priority] is left as a JavaScript value: the admin
    route passes a name on, the bulk routes a number.  [extra] holds the
    own properties of the object under any other name: an object of
    [MemoryStorage] keeps whatever its producer spread into it, a row of
    the database has none. *)
Record t := {
  id : string;
  userId : option string;
  channel : string;
  recipient : string;
  subject : string;
  message : string;
  priority : JsVal;
  status : string;
  scheduledFor : Z;
  retryCount : Z;
  maxRetries : option Z;
  lastError : option string;
  metadata : option (list (string * JsVal));
  createdAt : Z;
  updatedAt : Z;
  extra : list (string * JsVal)
}.
End NotificationQueue.

Module InsertNotificationQueue.
Import Js.

(** Modelled from the spec: [type InsertNotificationQueue] of the missing
    [shared/schema], what a producer supplies.  The type is erased at run
    time and the admin route passes an object built from a request body:
    [id] is the property of that name when the object has one, [extra]
    its own properties under names that are not columns. *)
Record t := {
  id : option string;
  userId : option string;
  channel : string;
  recipient : string;
  subject : string;
  message : string;
  priority : JsVal;
  status : option string;
  scheduledFor : Z;
  retryCount : Z;
  maxRetries : option Z;
  lastError : option string;
  metadata : option (list (string * JsVal));
  extra : list (string * JsVal)
}.
End InsertNotificationQueue.

Module User.
(** [type User] of the missing [shared/schema], with the fields of the
    seed objects of [MemoryStorage]. *)
Record t := {
  id : string;
  email : string;
  hashedPassword : string;
  role : string;
  firstName : string;
  lastName : string;
  isActive : bool;
  stripeCustomerId : option string;
  stripeSubscriptionId : option string;
  subscriptionTier : option string;
  subscriptionStatus : string;
  subscriptionEndsAt : option Z;
  lastLoginAt : option Z;
  createdAt : Z;
  updatedAt : Z
}.
End User.

Module NotificationLog.
(** Modelled from the spec: [type NotificationLog] of the missing
    [shared/schema], one row of the delivery log; [updatedAt] is the
    column that [DatabaseStorage.updateNotificationLog] writes. *)
Record t := {
  id : string;
  notificationItemId : option string;
  userId : option string;
  channel : string;
  recipient : string;
  status : string;
  errorMessage : option string;
  createdAt : Z;
  updatedAt : option Z
}.
End NotificationLog.

Module InsertNotificationLog.
(** Modelled from the spec: [type InsertNotificationLog] of the missing
    [shared/schema]. *)
Record t := {
  notificationItemId : option string;
  userId : option string;
  channel : string;
  recipient : string;
  status : string;
  errorMessage : option string
}.
End InsertNotificationLog.

Module PartialNotificationLog.
(** [Partial<NotificationLog>]: [None] is an absent key. *)
Record t := {
  id : option string;
  notificationItemId : option (option string);
  userId : option (option string);
  channel : option string;
  recipient : option string;
  status : option string;
  errorMessage : option (option string);
  createdAt : option Z;
  updatedAt : option (option Z)
}.
End PartialNotificationLog.

Module NotificationChannel.
Import Js.

(** Modelled from the spec: [type NotificationChannel] of the missing
    [shared/schema], one configured transport, with the fields of the
    seed object of [MemoryStorage].  The objects of [MemoryStorage] call
    the transport kind [type]; [DatabaseStorage] addresses the same
    column as [channelType]. *)
Record t := {
  id : string;
  name : string;
  type : string;
  provider : string;
  config : JsVal;
  providerConfig : JsVal;
  isEnabled : bool;
  isHealthy : bool;
  lastHealthCheck : option Z;
  healthCheckInterval : Z;
  errorCount : Z;
  successCount : Z;
  lastError : option string;
  createdAt : Z;
  updatedAt : Z
}.

Definition channelType : t -> string := type.
End NotificationChannel.

Module PartialNotificationChannel.
Import Js.

(** [Partial<NotificationChannel>]. *)
Record t := {
  id : option string;
  name : option string;
  type : option string;
  provider : option string;
  config : option JsVal;
  providerConfig : option JsVal;
  isEnabled : option bool;
  isHealthy : option bool;
  lastHealthCheck : option (option Z);
  healthCheckInterval : option Z;
  errorCount : option Z;
  successCount : option Z;
  lastError : option (option string);
  createdAt : option Z;
  updatedAt : option Z
}.
End PartialNotificationChannel.

(** [{ ...row, ...updates }] on one field. *)
Definition spread_field {A : Type} (old : A) (upd : option A) : A :=
  match upd with
  | Some v => v
  | None => old
  end.

Module Q := NotificationQueue.
Module L := NotificationLog.
Module C := NotificationChannel.
Module U := User.

(** [{ ...row, ...updates }] on a log row. *)
Definition apply_log_updates (old : L.t) (updates : PartialNotificationLog.t) : L.t :=
  {| L.id := spread_field (L.id old) (PartialNotificationLog.id updates);
     L.notificationItemId :=
       spread_field (L.notificationItemId old)
         (PartialNotificationLog.notificationItemId updates);
     L.userId := spread_field (L.userId old) (PartialNotificationLog.userId updates);
     L.channel := spread_field (L.channel old) (PartialNotificationLog.channel updates);
     L.recipient :=
       spread_field (L.recipient old) (PartialNotificationLog.recipient updates);
     L.status := spread_field (L.status old) (PartialNotificationLog.status updates);
     L.errorMessage :=
       spread_field (L.errorMessage old) (PartialNotificationLog.errorMessage updates);
     L.createdAt :=
       spread_field (L.createdAt old) (PartialNotificationLog.createdAt updates);
     L.updatedAt :=
       spread_field (L.updatedAt old) (PartialNotificationLog.updatedAt updates) |}.

(** [{ ...row, ...updates, updatedAt: new Date() }] on a channel row. *)
Definition apply_channel_updates (old : C.t) (updates : PartialNotificationChannel.t)
    (now : Z) : C.t :=
  {| C.id := spread_field (C.id old) (PartialNotificationChannel.id updates);
     C.name := spread_field (C.name old) (PartialNotificationChannel.name updates);
     C.type := spread_field (C.type old) (PartialNotificationChannel.type updates);
     C.provider :=
       spread_field (C.provider old) (PartialNotificationChannel.provider updates);
     C.config := spread_field (C.config old) (PartialNotificationChannel.config updates);
     C.providerConfig :=
       spread_field (C.providerConfig old)
         (PartialNotificationChannel.providerConfig updates);
     C.isEnabled :=
       spread_field (C.isEnabled old) (PartialNotificationChannel.isEnabled updates);
     C.isHealthy :=
       spread_field (C.isHealthy old) (PartialNotificationChannel.isHealthy updates);
     C.lastHealthCheck :=
       spread_field (C.lastHealthCheck old)
         (PartialNotificationChannel.lastHealthCheck updates);
     C.healthCheckInterval :=
       spread_field (C.healthCheckInterval old)
         (PartialNotificationChannel.healthCheckInterval updates);
     C.errorCount :=
       spread_field (C.errorCount old) (PartialNotificationChannel.errorCount updates);
     C.successCount :=
       spread_field (C.successCount old)
         (PartialNotificationChannel.successCount updates);
     C.lastError :=
       spread_field (C.lastError old) (PartialNotificationChannel.lastError updates);
     C.createdAt :=
       spread_field (C.createdAt old) (PartialNotificationChannel.createdAt updates);
     C.updatedAt := now |}.

(** The comparator of every listing: newest [createdAt] first. *)
Definition newest_first {A : Type} (createdAt : A -> Z) (a b : A) : Z :=
  createdAt b - createdAt a.

(* ================================================================== *)
(** ** server/storage.ts: class MemoryStorage (notification part) *)

Module MemoryStorage.
Import Js.

(** The private arrays of the object. *)
Record t := {
  users : list U.t;
  notificationQueue : list Q.t;
  notificationLogs : list L.t;
  notificationChannels : list C.t
}.

Definition with_queue (q : list Q.t) (this : t) : t :=
  {| users := users this;
     notificationQueue := q;
     notificationLogs := notificationLogs this;
     notificationChannels := notificationChannels this |}.

Definition with_logs (l : list L.t) (this : t) : t :=
  {| users := users this;
     notificationQueue := notificationQueue this;
     notificationLogs := l;
     notificationChannels := notificationChannels this |}.

Definition with_channels (c : list C.t) (this : t) : t :=
  {| users := users this;
     notificationQueue := notificationQueue this;
     notificationLogs := notificationLogs this;
     notificationChannels := c |}.

(** One of the three seed users. *)
Definition seed_user (id email hashedPassword role firstName : string)
    (subscriptionTier : option string) (now : Z) : U.t :=
  {| U.id := id; U.email := email; U.hashedPassword := hashedPassword;
     U.role := role; U.firstName := firstName; U.lastName := "User";
     U.isActive := true; U.stripeCustomerId := None; U.stripeSubscriptionId := None;
     U.subscriptionTier := subscriptionTier; U.subscriptionStatus := "active";
     U.subscriptionEndsAt := None; U.lastLoginAt := None;
     U.createdAt := now; U.updatedAt := now |}.

(** The field initialisers, run at construction time [now]. *)
Definition constructor (now : Z) : t :=
  {| users :=
       [ seed_user "admin-user-456" "admin@proudprofits.com"
           "$2b$10$lGkyw7N7oWP3koQk3..j0eOgyRzY95DK4iOi9vKXelwbc.DK20/aq"
           "admin" "Admin" (Some "elite") now;
         seed_user "user-user-789" "user@proudprofits.com"
           "$2b$10$DlDpCBqY7oEx46JBVDIlLuD1c1FSvVfIgl7S.cvABk882f3wwTDgu"
           "user" "Regular" None now;
         seed_user "demo-user-123" "demo@proudprofits.com"
           "$2b$10$5CVfxAR7KqNwp..478OaqOD0kYA/TJNws4TPP7BDYPnvh.AbZ81Um"
           "user" "Demo" (Some "elite") now ];
     notificationQueue := [];
     notificationLogs := [];
     notificationChannels :=
       [ {| C.id := "channel-1"; C.name := "Email"; C.type := "email";
            C.provider := "smtp";
            C.config := JObj [("host", JStr "smtp.example.com"); ("port", JNum 587)];
            C.providerConfig := JObj [("apiKey", JStr "test")];
            C.isEnabled := true; C.isHealthy := true;
            C.lastHealthCheck := Some now; C.healthCheckInterval := 300;
            C.errorCount := 0; C.successCount := 100; C.lastError := None;
            C.createdAt := now; C.updatedAt := now |} ] |}.

(** [limit ? sorted.slice(0, limit) : sorted]; an absent limit is
    [None]. *)
Definition limited {A : Type} (limit : option Z) (sorted : list A) : list A :=
  match limit with
  | Some n => if n =? 0 then sorted else slice0 n sorted
  | None => sorted
  end.

(** *** Users *)

Definition getUser (id : string) (this : t) : option U.t * t :=
  (snd <$> list_find (fun u => U.id u = id) (users this), this).

(** *** Notification queue *)

Definition getNotificationQueue (limit : option Z) (this : t) : list Q.t * t :=
  let sorted := sort (newest_first Q.createdAt) (notificationQueue this) in
  (limited limit sorted, this).

Definition getQueuedNotifications (status : option string) (this : t)
  : list Q.t * t :=
  let filtered := notificationQueue this in
  let filtered :=
    match status with
    | Some s =>
        if truthy_str s then List.filter (fun n => String.eqb (Q.status n) s) filtered
        else filtered
    | None => filtered
    end in
  (sort (newest_first Q.createdAt) filtered, this).

Definition addToNotificationQueue (notification : InsertNotificationQueue.t)
    (now : Z) (rnd : string) (this : t) : Q.t * t :=
  let newNotification :=
    {| Q.id :=
         default ("queue-" +:+ pretty now +:+ "-" +:+ rnd)
           (InsertNotificationQueue.id notification);
       Q.userId := InsertNotificationQueue.userId notification;
       Q.channel := InsertNotificationQueue.channel notification;
       Q.recipient := InsertNotificationQueue.recipient notification;
       Q.subject := InsertNotificationQueue.subject notification;
       Q.message := InsertNotificationQueue.message notification;
       Q.priority := InsertNotificationQueue.priority notification;
       Q.status := default "pending" (InsertNotificationQueue.status notification);
       Q.scheduledFor := InsertNotificationQueue.scheduledFor notification;
       Q.retryCount := InsertNotificationQueue.retryCount notification;
       Q.maxRetries := InsertNotificationQueue.maxRetries notification;
       Q.lastError := InsertNotificationQueue.lastError notification;
       Q.metadata := InsertNotificationQueue.metadata notification;
       Q.createdAt := now;
       Q.updatedAt := now;
       Q.extra := InsertNotificationQueue.extra notification |} in
  (newNotification, with_queue (notificationQueue this ++ [newNotification]) this).

Definition updateNotificationQueueStatus (id status : string)
    (metadata : option (list (string * JsVal))) (now : Z) (this : t)
  : option Q.t * t :=
  match list_find (fun n => Q.id n = id) (notificationQueue this) with
  | None => (None, this)
  | Some (index, old) =>
      let updated :=
        {| Q.id := Q.id old;
           Q.userId := Q.userId old;
           Q.channel := Q.channel old;
           Q.recipient := Q.recipient old;
           Q.subject := Q.subject old;
           Q.message := Q.message old;
           Q.priority := Q.priority old;
           Q.status := status;
           Q.scheduledFor := Q.scheduledFor old;
           Q.retryCount := Q.retryCount old;
           Q.maxRetries := Q.maxRetries old;
           Q.lastError := Q.lastError old;
           Q.metadata :=
             match metadata with
             | Some m => Some (obj_spread (default [] (Q.metadata old)) m)
             | None => Q.metadata old
             end;
           Q.createdAt := Q.createdAt old;
           Q.updatedAt := now;
           Q.extra := Q.extra old |} in
      (Some updated, with_queue (<[index := updated]> (notificationQueue this)) this)
  end.

Definition deleteFromNotificationQueue (id : string) (this : t) : bool * t :=
  match list_find (fun n => Q.id n = id) (notificationQueue this) with
  | None => (false, this)
  | Some (index, _) => (true, with_queue (delete index (notificationQueue this)) this)
  end.

(** The [retryCount] argument is not used by this backend. *)
Definition getFailedNotifications (retryCount : option Z) (this : t)
  : list Q.t * t :=
  let filtered :=
    List.filter (fun n => String.eqb (Q.status n) "failed") (notificationQueue this) in
  (sort (newest_first Q.createdAt) filtered, this).

(** *** Notification logs *)

Definition getNotificationLogs (limit : option Z) (channel : option string)
    (this : t) : list L.t * t :=
  let filtered := notificationLogs this in
  let filtered :=
    match channel with
    | Some c =>
        if truthy_str c then List.filter (fun l => String.eqb (L.channel l) c) filtered
        else filtered
    | None => filtered
    end in
  (limited limit (sort (newest_first L.createdAt) filtered), this).

Definition getNotificationLog (id : string) (this : t) : option L.t * t :=
  (snd <$> list_find (fun l => L.id l = id) (notificationLogs this), this).

Definition getNotificationLogsByUser (userId : string) (limit : option Z)
    (this : t) : list L.t * t :=
  let filtered :=
    List.filter (fun l => bool_decide (L.userId l = Some userId)) (notificationLogs this) in
  (limited limit (sort (newest_first L.createdAt) filtered), this).

Definition createNotificationLog (log : InsertNotificationLog.t)
    (now : Z) (rnd : string) (this : t) : L.t * t :=
  let newLog :=
    {| L.id := "log-" +:+ pretty now +:+ "-" +:+ rnd;
       L.notificationItemId := InsertNotificationLog.notificationItemId log;
       L.userId := InsertNotificationLog.userId log;
       L.channel := InsertNotificationLog.channel log;
       L.recipient := InsertNotificationLog.recipient log;
       L.status := InsertNotificationLog.status log;
       L.errorMessage := InsertNotificationLog.errorMessage log;
       L.createdAt := now;
       L.updatedAt := None |} in
  (newLog, with_logs (notificationLogs this ++ [newLog]) this).

Definition updateNotificationLog (id : string) (updates : PartialNotificationLog.t)
    (this : t) : option L.t * t :=
  match list_find (fun l => L.id l = id) (notificationLogs this) with
  | None => (None, this)
  | Some (index, old) =>
      let updated := apply_log_updates old updates in
      (Some updated, with_logs (<[index := updated]> (notificationLogs this)) this)
  end.

(** [stats.byChannel[log.channel] = (stats.byChannel[log.channel] || 0) + 1]
    on the object literal [byChannel]: a read and a write of a property
    whose name is the channel of the row. *)
Definition count_channel (byChannel : list (string * JsVal)) (log : L.t)
  : list (string * JsVal) :=
  assign (L.channel log) (or_zero_plus_one (get (L.channel log) byChannel)) byChannel.

Definition count_status (status : string) (logs : list L.t) : Z :=
  Z.of_nat (length (List.filter (fun l => String.eqb (L.status l) status) logs)).

(** The two [if (date) filtered = filtered.filter(...)] statements. *)
Definition date_filtered (dateFrom dateTo : option Z) (logs : list L.t) : list L.t :=
  let filtered := logs in
  let filtered :=
    match dateFrom with
    | Some d => List.filter (fun l => d <=? L.createdAt l) filtered
    | None => filtered
    end in
  match dateTo with
  | Some d => List.filter (fun l => L.createdAt l <=? d) filtered
  | None => filtered
  end.

Definition getNotificationStats (dateFrom dateTo : option Z) (this : t)
  : JsVal * t :=
  let filtered := date_filtered dateFrom dateTo (notificationLogs this) in
  let stats :=
    JObj [ ("total", JNum (Z.of_nat (length filtered)));
           ("successful", JNum (count_status "sent" filtered));
           ("failed", JNum (count_status "failed" filtered));
           ("byChannel", JObj (fold_left count_channel filtered [])) ] in
  (stats, this).

(** *** Notification channels *)

Definition getNotificationChannel (id : string) (this : t) : option C.t * t :=
  (snd <$> list_find (fun c => C.id c = id) (notificationChannels this), this).

Definition getNotificationChannelByType (type : string) (this : t)
  : option C.t * t :=
  (snd <$> list_find (fun c => C.type c = type /\ C.isEnabled c = true)
             (notificationChannels this),
   this).

Definition updateNotificationChannel (id : string)
    (updates : PartialNotificationChannel.t) (now : Z) (this : t)
  : option C.t * t :=
  match list_find (fun c => C.id c = id) (notificationChannels this) with
  | None => (None, this)
  | Some (index, old) =>
      let updated := apply_channel_updates old updates now in
      (Some updated,
       with_channels (<[index := updated]> (notificationChannels this)) this)
  end.

End MemoryStorage.


(* ================================================================== *)
(** ** The query builder of drizzle-orm, as [DatabaseStorage] uses it *)

Module Drizzle.
Import Js.

(** [new Error(message)]. *)
Record Error := { message : string }.

(** A [select().from(table)] under construction.  The builder is one
    mutable object: [where], [orderBy] and [limit] each store their
    argument in its configuration and return the builder itself, so a
    second [where] replaces the first, and a call whose result is dropped
    still takes effect. *)
Record Select (R : Type) := {
  from : list R;
  config_where : option (R -> bool);
  config_orderBy : option (R -> R -> Z);
  config_limit : option Z
}.
Arguments from {R} _.
Arguments config_where {R} _.
Arguments config_orderBy {R} _.
Arguments config_limit {R} _.

Definition select_from {R : Type} (table : list R) : Select R :=
  {| from := table; config_where := None; config_orderBy := None; config_limit := None |}.

Definition where_ {R : Type} (cond : R -> bool) (q : Select R) : Select R :=
  {| from := from q; config_where := Some cond; config_orderBy := config_orderBy q; config_limit := config_limit q |}.

Definition orderBy {R : Type} (cmp : R -> R -> Z) (q : Select R) : Select R :=
  {| from := from q; config_where := config_where q; config_orderBy := Some cmp; config_limit := config_limit q |}.

Definition limit {R : Type} (n : Z) (q : Select R) : Select R :=
  {| from := from q; config_where := config_where q; config_orderBy := config_orderBy q; config_limit := Some n |}.

(** What SQL leaves to the server.  A table is a bag of rows: the order
    in which a statement meets them is the server's business, it may
    change with every write, and rows that compare equal under ORDER BY
    come out in that order.  [scan table] is the order in which the server
    yields the rows of [table], any arrangement of them; the list that
    holds a table in a [Database] says which rows there are, and its order
    is seen by no query. *)
Class Postgres := {
  scan : forall {R : Type}, list R -> list R;
  scan_Permutation : forall (R : Type) (table : list R), Permutation (scan table) table
}.

(** [await query]: the rows as the server yields them, WHERE, then
    ORDER BY (rows that compare equal stay as they came), then LIMIT.
    The builder writes a LIMIT clause only for a limit that is not
    negative; with a negative limit every row comes back. *)
Definition rows `{Postgres} {R : Type} (q : Select R) : Completion Error (list R) :=
  let table := scan (from q) in
  let filtered :=
    match config_where q with
    | Some cond => List.filter cond table
    | None => table
    end in
  let sorted :=
    match config_orderBy q with
    | Some cmp => sort cmp filtered
    | None => filtered
    end in
  Normal
    match config_limit q with
    | Some n => if n <? 0 then sorted else take (Z.to_nat n) sorted
    | None => sorted
    end.

(** [update(table).set(f).where(cond).returning()]: the table afterwards
    (as a list, each row at the place of the row it replaces: a
    convention, see [scan]) and the rows that were written, in the order
    the server met them. *)
Definition update_returning `{Postgres} {R : Type} (set : R -> R) (cond : R -> bool)
    (table : list R) : list R * list R :=
  (map (fun r => if cond r then set r else r) table,
   map set (List.filter cond (scan table))).

(** [delete(table).where(cond)]: the table afterwards and [rowCount]. *)
Definition delete_where {R : Type} (cond : R -> bool) (table : list R)
  : list R * Z :=
  (List.filter (fun r => negb (cond r)) table,
   Z.of_nat (length (List.filter cond table))).

(** A server that yields the rows of a table in the order of the list
    that holds them (the order of insertion, for a table that was only
    inserted into), and one that yields them in the opposite order. *)
Definition insertion_order : Postgres :=
  {| scan := fun R table => table;
     scan_Permutation := fun R table => Permutation_refl table |}.

Definition reverse_order : Postgres :=
  {| scan := fun R table => rev table;
     scan_Permutation := fun R table => Permutation_sym (Permutation_rev table) |}.

End Drizzle.

(* ================================================================== *)
(** ** server/storage.ts: class DatabaseStorage (notification part)

    The class declares several of these methods twice; the later
    declaration is the one an instance has, and the one embedded here. *)

Module DatabaseStorage.
Import Js Drizzle.

(** The users table and the three notification tables behind
    [dbConnection]. *)
Record Database := {
  users : list U.t;
  notificationQueue : list Q.t;
  notificationLogs : list L.t;
  notificationChannels : list C.t
}.

(** [private db: any], left [undefined] without a [DATABASE_URL]. *)
Record t := { db : option Database }.

Definition constructor (DATABASE_URL : option string) (dbConnection : Database) : t :=
  {| db := if truthy_env DATABASE_URL then Some dbConnection else None |}.

Definition with_queue (q : list Q.t) (d : Database) : t :=
  {| db := Some {| users := users d;
                   notificationQueue := q;
                   notificationLogs := notificationLogs d;
                   notificationChannels := notificationChannels d |} |}.

Definition with_logs (l : list L.t) (d : Database) : t :=
  {| db := Some {| users := users d;
                   notificationQueue := notificationQueue d;
                   notificationLogs := l;
                   notificationChannels := notificationChannels d |} |}.

Definition with_channels (c : list C.t) (d : Database) : t :=
  {| db := Some {| users := users d;
                   notificationQueue := notificationQueue d;
                   notificationLogs := notificationLogs d;
                   notificationChannels := c |} |}.

(** A method: the promise it returns and the object afterwards. *)
Definition Method (A : Type) : Type := t -> Completion Error A * t.

(** [const [row] = rows; return row || undefined]. *)
Definition first_row {R : Type} (r : Completion Error (list R))
  : Completion Error (option R) :=
  match r with
  | Normal l => Normal (head l)
  | Throw e => Throw e
  end.

Section Methods.
Context `{Postgres}.

(** *** Users *)

Definition getUser (id : string) : Method (option U.t) :=
  fun this =>
    match db this with
    | None => (Normal None, this)
    | Some d =>
        (first_row (rows (where_ (fun u => String.eqb (U.id u) id)
                            (select_from (users d)))),
         this)
    end.

(** *** Notification queue *)

Definition getNotificationQueue (limit : option Z) : Method (list Q.t) :=
  fun this =>
    match db this with
    | None => (Normal [], this)
    | Some d =>
        (rows (Drizzle.limit (default 50 limit)
                 (orderBy (newest_first Q.createdAt)
                    (select_from (notificationQueue d)))),
         this)
    end.

Definition getQueuedNotifications (status : option string) : Method (list Q.t) :=
  fun this =>
    match db this with
    | None => (Normal [], this)
    | Some d =>
        let query := select_from (notificationQueue d) in
        let query :=
          match status with
          | Some s =>
              if truthy_str s then where_ (fun n => String.eqb (Q.status n) s) query
              else query
          | None => query
          end in
        (rows (orderBy (newest_first Q.createdAt) query), this)
    end.

(** Modelled from the spec: the row that
    [insert(...).values(notification).returning()] stores, by the columns
    of the missing [shared/schema].  A column that the object leaves out
    takes its default: a generated [id] (here the argument [rnd]),
    priority 5, status pending, [createdAt] and [updatedAt] at insertion
    time.  A property that is not a column is not stored. *)
Definition insert_queue_row (notification : InsertNotificationQueue.t)
    (now : Z) (rnd : string) : Q.t :=
  {| Q.id := default rnd (InsertNotificationQueue.id notification);
     Q.userId := InsertNotificationQueue.userId notification;
     Q.channel := InsertNotificationQueue.channel notification;
     Q.recipient := InsertNotificationQueue.recipient notification;
     Q.subject := InsertNotificationQueue.subject notification;
     Q.message := InsertNotificationQueue.message notification;
     Q.priority :=
       match InsertNotificationQueue.priority notification with
       | JUndefined => JNum 5
       | p => p
       end;
     Q.status := default "pending" (InsertNotificationQueue.status notification);
     Q.scheduledFor := InsertNotificationQueue.scheduledFor notification;
     Q.retryCount := InsertNotificationQueue.retryCount notification;
     Q.maxRetries := InsertNotificationQueue.maxRetries notification;
     Q.lastError := InsertNotificationQueue.lastError notification;
     Q.metadata := InsertNotificationQueue.metadata notification;
     Q.createdAt := now;
     Q.updatedAt := now;
     Q.extra := [] |}.

(** Modelled from the spec: what makes the server refuse the row.
    [priority] is an integer column, so a value that is not an integer
    (the name of a priority, say) is an error of the INSERT; [id] is the
    key of the table, so is a row whose id the table already has. *)
Definition insert_queue_error (row : Q.t) (table : list Q.t) : option Error :=
  match Q.priority row with
  | JNum _ =>
      if existsb (fun r => String.eqb (Q.id r) (Q.id row)) table
      then Some {| message := "duplicate key value violates unique constraint" |}
      else None
  | _ => Some {| message := "invalid input syntax for type integer" |}
  end.

Definition addToNotificationQueue (notification : InsertNotificationQueue.t)
    (now : Z) (rnd : string) : Method Q.t :=
  fun this =>
    match db this with
    | None => (Throw {| message := "Database not available" |}, this)
    | Some d =>
        let created := insert_queue_row notification now rnd in
        match insert_queue_error created (notificationQueue d) with
        | Some error => (Throw error, this)
        | None => (Normal created, with_queue (notificationQueue d ++ [created]) d)
        end
    end.

(** [.set(updateData)] of [updateNotificationQueueStatus]. *)
Definition set_status (status : string) (metadata : option (list (string * JsVal)))
    (now : Z) (old : Q.t) : Q.t :=
  {| Q.id := Q.id old;
     Q.userId := Q.userId old;
     Q.channel := Q.channel old;
     Q.recipient := Q.recipient old;
     Q.subject := Q.subject old;
     Q.message := Q.message old;
     Q.priority := Q.priority old;
     Q.status := status;
     Q.scheduledFor := Q.scheduledFor old;
     Q.retryCount := Q.retryCount old;
     Q.maxRetries := Q.maxRetries old;
     Q.lastError := Q.lastError old;
     Q.metadata :=
       match metadata with
       | Some m => Some m
       | None => Q.metadata old
       end;
     Q.createdAt := Q.createdAt old;
     Q.updatedAt := now;
     Q.extra := Q.extra old |}.

Definition updateNotificationQueueStatus (id status : string)
    (metadata : option (list (string * JsVal))) (now : Z) : Method (option Q.t) :=
  fun this =>
    match db this with
    | None => (Normal None, this)
    | Some d =>
        let '(table, returned) :=
          update_returning (set_status status metadata now)
            (fun n => String.eqb (Q.id n) id) (notificationQueue d) in
        (Normal (head returned), with_queue table d)
    end.

Definition deleteFromNotificationQueue (id : string) : Method bool :=
  fun this =>
    match db this with
    | None => (Normal false, this)
    | Some d =>
        let '(table, rowCount) :=
          delete_where (fun n => String.eqb (Q.id n) id) (notificationQueue d) in
        (Normal (0 <? rowCount), with_queue table d)
    end.

Definition getFailedNotifications (retryCount : option Z) : Method (list Q.t) :=
  fun this =>
    match db this with
    | None => (Normal [], this)
    | Some d =>
        let query :=
          where_ (fun n => String.eqb (Q.status n) "failed")
            (select_from (notificationQueue d)) in
        let query :=
          match retryCount with
          | Some k => where_ (fun n => Q.retryCount n =? k) query
          | None => query
          end in
        (rows (orderBy (newest_first Q.createdAt) query), this)
    end.

(** *** Notification logs *)

Definition getNotificationLogs (limit : option Z) (channel : option string)
  : Method (list L.t) :=
  fun this =>
    match db this with
    | None => (Normal [], this)
    | Some d =>
        let query := select_from (notificationLogs d) in
        let query :=
          match channel with
          | Some c =>
              if truthy_str c then where_ (fun l => String.eqb (L.channel l) c) query
              else query
          | None => query
          end in
        (rows (Drizzle.limit (default 100 limit)
                 (orderBy (newest_first L.createdAt) query)),
         this)
    end.

Definition getNotificationLog (id : string) : Method (option L.t) :=
  fun this =>
    match db this with
    | None => (Normal None, this)
    | Some d =>
        (first_row (rows (where_ (fun l => String.eqb (L.id l) id)
                            (select_from (notificationLogs d)))),
         this)
    end.

Definition getNotificationLogsByUser (userId : string) (limit : option Z)
  : Method (list L.t) :=
  fun this =>
    match db this with
    | None => (Normal [], this)
    | Some d =>
        (rows (Drizzle.limit (default 50 limit)
                 (orderBy (newest_first L.createdAt)
                    (where_ (fun l => bool_decide (L.userId l = Some userId))
                       (select_from (notificationLogs d))))),
         this)
    end.

(** Modelled from the spec: the column defaults of the missing
    [shared/schema] for a log row: a generated [id] (here [rnd]) and
    [createdAt] at insertion time. *)
Definition insert_log_row (log : InsertNotificationLog.t) (now : Z) (rnd : string)
  : L.t :=
  {| L.id := rnd;
     L.notificationItemId := InsertNotificationLog.notificationItemId log;
     L.userId := InsertNotificationLog.userId log;
     L.channel := InsertNotificationLog.channel log;
     L.recipient := InsertNotificationLog.recipient log;
     L.status := InsertNotificationLog.status log;
     L.errorMessage := InsertNotificationLog.errorMessage log;
     L.createdAt := now;
     L.updatedAt := None |}.

Definition createNotificationLog (log : InsertNotificationLog.t)
    (now : Z) (rnd : string) : Method L.t :=
  fun this =>
    match db this with
    | None => (Throw {| message := "Database not available" |}, this)
    | Some d =>
        let created := insert_log_row log now rnd in
        (Normal created, with_logs (notificationLogs d ++ [created]) d)
    end.

(** [.set({ ...updates, updatedAt: new Date() })] on a log row. *)
Definition set_log (updates : PartialNotificationLog.t) (now : Z) (old : L.t) : L.t :=
  let r := apply_log_updates old updates in
  {| L.id := L.id r;
     L.notificationItemId := L.notificationItemId r;
     L.userId := L.userId r;
     L.channel := L.channel r;
     L.recipient := L.recipient r;
     L.status := L.status r;
     L.errorMessage := L.errorMessage r;
     L.createdAt := L.createdAt r;
     L.updatedAt := Some now |}.

Definition updateNotificationLog (id : string) (updates : PartialNotificationLog.t)
    (now : Z) : Method (option L.t) :=
  fun this =>
    match db this with
    | None => (Normal None, this)
    | Some d =>
        let '(table, returned) :=
          update_returning (set_log updates now)
            (fun l => String.eqb (L.id l) id) (notificationLogs d) in
        (Normal (head returned), with_logs table d)
    end.

Definition count_where (cond : L.t -> bool) (logs : list L.t) : Z :=
  Z.of_nat (length (List.filter cond logs)).

(** [((totalSent / logs.length) * 100).toFixed(1) + '%'], or ['0%'] for an
    empty log. *)
Definition successRate (totalSent total : Z) : string :=
  if 0 <? total then
    toFixed1 (PrimFloat.mul (PrimFloat.div (number totalSent) (number total))
                (number 100)) +:+ "%"
  else "0%".

Definition getNotificationStats (dateFrom dateTo : option Z) : Method JsVal :=
  fun this =>
    match db this with
    | None => (Normal (JObj []), this)
    | Some d =>
        let query := select_from (notificationLogs d) in
        let query :=
          match dateFrom with
          | Some f => where_ (fun l => f <=? L.createdAt l) query
          | None => query
          end in
        let query :=
          match dateTo with
          | Some u => where_ (fun l => L.createdAt l <=? u) query
          | None => query
          end in
        match rows query with
        | Throw e => (Throw e, this)
        | Normal logs =>
            let totalSent := count_where (fun l => String.eqb (L.status l) "delivered") logs in
            let totalFailed := count_where (fun l => String.eqb (L.status l) "failed") logs in
            let totalPending := count_where (fun l => String.eqb (L.status l) "pending") logs in
            let total := Z.of_nat (length logs) in
            (Normal
               (JObj [ ("total", JNum total);
                       ("sent", JNum totalSent);
                       ("failed", JNum totalFailed);
                       ("pending", JNum totalPending);
                       ("successRate", JStr (successRate totalSent total));
                       ("channels",
                        JObj [ ("email", JNum (count_where (fun l => String.eqb (L.channel l) "email") logs));
                               ("sms", JNum (count_where (fun l => String.eqb (L.channel l) "sms") logs));
                               ("push", JNum (count_where (fun l => String.eqb (L.channel l) "push") logs)) ]) ]),
             this)
        end
    end.

(** *** Notification channels *)

Definition getNotificationChannel (id : string) : Method (option C.t) :=
  fun this =>
    match db this with
    | None => (Normal None, this)
    | Some d =>
        (first_row (rows (where_ (fun c => String.eqb (C.id c) id)
                            (select_from (notificationChannels d)))),
         this)
    end.

Definition getNotificationChannelByType (type : string) : Method (option C.t) :=
  fun this =>
    match db this with
    | None => (Normal None, this)
    | Some d =>
        (first_row (rows (where_ (fun c => String.eqb (C.channelType c) type)
                            (select_from (notificationChannels d)))),
         this)
    end.

Definition updateNotificationChannel (id : string)
    (updates : PartialNotificationChannel.t) (now : Z) : Method (option C.t) :=
  fun this =>
    match db this with
    | None => (Normal None, this)
    | Some d =>
        let '(table, returned) :=
          update_returning (fun old => apply_channel_updates old updates now)
            (fun c => String.eqb (C.id c) id) (notificationChannels d) in
        (Normal (head returned), with_channels table d)
    end.

End Methods.

End DatabaseStorage.

(* ================================================================== *)
(** ** interface IStorage (notification part) and its two implementations *)

Module Storage.
Import Js Drizzle.

(** The methods of [IStorage] that the notification pipeline goes
    through.  Every method returns a promise; [now] and [rnd] stand for
    the clock and the random source that an implementation may read. *)
Class IStorage (S : Type) := {
  getUser : string -> S -> Completion Error (option U.t) * S;
  getNotificationQueue : option Z -> S -> Completion Error (list Q.t) * S;
  getQueuedNotifications : option string -> S -> Completion Error (list Q.t) * S;
  addToNotificationQueue :
    InsertNotificationQueue.t -> Z -> string -> S -> Completion Error Q.t * S;
  updateNotificationQueueStatus :
    string -> string -> option (list (string * JsVal)) -> Z -> S ->
    Completion Error (option Q.t) * S;
  createNotificationLog :
    InsertNotificationLog.t -> Z -> string -> S -> Completion Error L.t * S;
  updateNotificationLog :
    string -> PartialNotificationLog.t -> Z -> S -> Completion Error (option L.t) * S;
  getNotificationStats : option Z -> option Z -> S -> Completion Error JsVal * S;
  getNotificationChannelByType : string -> S -> Completion Error (option C.t) * S
}.

(** A method of [MemoryStorage] never rejects. *)
Definition resolved {S A : Type} (r : A * S) : Completion Error A * S :=
  (Normal (fst r), snd r).

#[export] Instance memory_storage : IStorage MemoryStorage.t := {|
  getUser id this := resolved (MemoryStorage.getUser id this);
  getNotificationQueue limit this :=
    resolved (MemoryStorage.getNotificationQueue limit this);
  getQueuedNotifications status this :=
    resolved (MemoryStorage.getQueuedNotifications status this);
  addToNotificationQueue notification now rnd this :=
    resolved (MemoryStorage.addToNotificationQueue notification now rnd this);
  updateNotificationQueueStatus id status metadata now this :=
    resolved (MemoryStorage.updateNotificationQueueStatus id status metadata now this);
  createNotificationLog log now rnd this :=
    resolved (MemoryStorage.createNotificationLog log now rnd this);
  updateNotificationLog id updates now this :=
    resolved (MemoryStorage.updateNotificationLog id updates this);
  getNotificationStats dateFrom dateTo this :=
    resolved (MemoryStorage.getNotificationStats dateFrom dateTo this);
  getNotificationChannelByType type this :=
    resolved (MemoryStorage.getNotificationChannelByType type this)
|}.

#[export] Instance database_storage `{Postgres} : IStorage DatabaseStorage.t := {|
  getUser := DatabaseStorage.getUser;
  getNotificationQueue := DatabaseStorage.getNotificationQueue;
  getQueuedNotifications := DatabaseStorage.getQueuedNotifications;
  addToNotificationQueue := DatabaseStorage.addToNotificationQueue;
  updateNotificationQueueStatus := DatabaseStorage.updateNotificationQueueStatus;
  createNotificationLog := DatabaseStorage.createNotificationLog;
  updateNotificationLog := DatabaseStorage.updateNotificationLog;
  getNotificationStats := DatabaseStorage.getNotificationStats;
  getNotificationChannelByType := DatabaseStorage.getNotificationChannelByType
|}.

End Storage.

(* ================================================================== *)
(** ** express: what a handler answers *)

Module Express.

(** One entry of [errors.array()]. *)
Record ValidationError := { path : string; msg : string }.

(** The objects that the middleware and the route pass to [res.json]:
    [{ message, code, timestamp }], [{ message, code }],
    [{ message: 'Validation errors', errors, code: 'VALIDATION_ERROR',
    timestamp }] and [{ message, notification }]. *)
Inductive ResBody : Type :=
| Refused (message code : string) (timestamp : Z)
| Failed (message code : string)
| ValidationErrors (errors : list ValidationError) (timestamp : Z)
| Created (message : string) (notification : Q.t).

(** [res.status(code).json(body)]. *)
Record Response := { statusCode : Z; json : ResBody }.

End Express.

(* ================================================================== *)
(** ** server/middleware/auth.ts

    What the middleware writes with [console.error] is not kept. *)

Module AuthMiddleware.
Import Js Drizzle Storage Express.

(** The payload that [jwt.verify] answers for a token it accepts.  The
    tokens of this server are signed by [generateToken] of
    [routes/auth.ts] over [{ userId, iat }], so [userId] is the id of a
    user; it is [None] for a payload without the property. *)
Record JwtPayload := { userId : option string }.

(** [requireAdmin]: the response it sends, or [None] when it calls
    [next()].  [user] is [req.user]. *)
Definition requireAdmin (user : option U.t) : option Response :=
  match user with
  | None =>
      Some {| statusCode := 401;
              json := Failed "Authentication required" "AUTH_REQUIRED" |}
  | Some u =>
      if negb (String.eqb (U.role u) "admin") && negb (String.eqb (U.role u) "superuser")
      then Some {| statusCode := 403;
                   json := Failed "Admin access required" "ADMIN_ACCESS_REQUIRED" |}
      else None
  end.

Section Middleware.
(** [jwt.verify(token, JWT_SECRET)], from outside the source tree: [None]
    when it throws. *)
Variable jwt_verify : string -> option JwtPayload.

(** [verifyToken]: whatever [jwt.verify] throws becomes
    [Error('Invalid token')]. *)
Definition verifyToken (token : string) : Completion Error JwtPayload :=
  match jwt_verify token with
  | Some decoded => Normal decoded
  | None => Throw {| message := "Invalid token" |}
  end.

(** [requireAuth]: the response it sends, or the user that it attaches to
    the request before it calls [next()].  [authorization] is
    [req.headers.authorization], [now] the clock that a response reads. *)
Definition requireAuth {S : Type} `{IStorage S} (authorization : option string)
    (now : Z) (storage : S) : (Response + U.t) * S :=
  let refuse code message text :=
    inl {| statusCode := code; json := Refused message text now |} in
  match authorization with
  | None => (refuse 401 "No token provided" "NO_TOKEN", storage)
  | Some authHeader =>
      if negb (truthy_str authHeader) || negb (String.prefix "Bearer " authHeader) then
        (refuse 401 "No token provided" "NO_TOKEN", storage)
      else
        let token :=
          String.substring 7 (String.length authHeader - 7) authHeader in
        match verifyToken token with
        | Throw _ => (refuse 401 "Authentication failed" "AUTH_ERROR", storage)
        | Normal decoded =>
            match userId decoded with
            | None => (refuse 401 "Invalid token format" "INVALID_TOKEN_FORMAT", storage)
            | Some id =>
                if negb (truthy_str id) then
                  (refuse 401 "Invalid token format" "INVALID_TOKEN_FORMAT", storage)
                else
                  match getUser id storage with
                  | (Throw _, storage') =>
                      (refuse 500 "Database connection error" "DATABASE_ERROR", storage')
                  | (Normal None, storage') =>
                      (refuse 401 "User not found in database" "USER_NOT_FOUND", storage')
                  | (Normal (Some user), storage') => (inr user, storage')
                  end
            end
        end
  end.

End Middleware.

End AuthMiddleware.

(* ================================================================== *)
(** ** server/routes/admin.ts: POST /api/admin/notifications/queue

    The whole chain of the route: [requireAuth], [requireAdmin], the
    validators, [validateInput] and the handler.  The [storage] of the
    route is the exported [DatabaseStorage]; the chain is embedded over
    any [IStorage]. *)

Module AdminRoutes.
Import Js Drizzle Storage Express.

(** [req.body], typed [any].  The embedding takes the JSON objects whose
    known properties hold values of the type of their column: a string
    for [id], [userId], [channel], [recipient], [subject], [message],
    [lastError] and (a date in text) [scheduledFor], an integer for
    [maxRetries], an object for [metadata]; [None] is an absent key.
    [priority], which the route and the table type differently, is any
    JSON value.  [extra] holds the own properties under every other name
    that is not a column.  [status] and [retryCount] are not kept, for the
    handler overwrites them.  The bodies taken have no [createdAt] and no
    [updatedAt]: [MemoryStorage] would overwrite both, the database would
    be handed them. *)
Record ReqBody := {
  id : option string;
  userId : option string;
  channel : option string;
  recipient : option string;
  subject : option string;
  message : option string;
  priority : option JsVal;
  scheduledFor : option string;
  maxRetries : option Z;
  lastError : option string;
  metadata : option (list (string * JsVal));
  extra : list (string * JsVal)
}.

(** What the chain reads of [req]: [req.headers.authorization] and
    [req.body]. *)
Record Request := { authorization : option string; body : ReqBody }.

(** express-validator reads a field through its [toString]: an absent
    field or [null] is the empty string, any other value [String(value)]. *)
Definition field (v : option string) : string := default "" v.

Definition field_value (v : JsVal) : string :=
  match v with
  | JUndefined | JNull => ""
  | v => to_string v
  end.

(** [.isIn(values)]. *)
Definition isIn (values : list string) (v : string) : bool :=
  existsb (String.eqb v) values.

(** [.notEmpty()]. *)
Definition notEmpty (v : string) : bool := negb (String.eqb v "").

(** One validator of the chain: its error when the check fails. *)
Definition check (path msg : string) (ok : bool) : list ValidationError :=
  if ok then [] else [ {| path := path; msg := msg |} ].

(** [.optional()]: an absent field is not checked. *)
Definition optional {A : Type} (v : option A) (test : A -> bool) : bool :=
  match v with
  | Some s => test s
  | None => true
  end.

Definition channels : list string := ["email"; "sms"; "push"; "telegram"; "discord"].

Definition priorities : list string := ["low"; "normal"; "high"; "urgent"].

Section Route.
(** [jwt.verify], [validator.isUUID] and [new Date(s).getTime()], all
    three from outside the source tree. *)
Variable jwt_verify : string -> option AuthMiddleware.JwtPayload.
Variable isUUID : string -> bool.
Variable parseDate : string -> Z.

(** [validationResult(req)] after the validators of the route. *)
Definition validationResult (body : ReqBody) : list ValidationError :=
  check "userId" "Valid user ID is required" (isUUID (field (userId body))) ++
  check "channel" "Invalid channel" (isIn channels (field (channel body))) ++
  check "recipient" "Recipient is required" (notEmpty (field (recipient body))) ++
  check "subject" "Subject is required" (notEmpty (field (subject body))) ++
  check "message" "Message is required" (notEmpty (field (message body))) ++
  check "priority" "Invalid priority"
    (optional (priority body) (fun v => isIn priorities (field_value v))).

(** [{ ...req.body, status: 'pending', retryCount: 0, scheduledFor: ... }]:
    every property of the body goes into the object, [id] and the
    properties of [extra] among them; [status], [retryCount] and
    [scheduledFor] are set by the handler. *)
Definition notificationData (body : ReqBody) (now : Z) : InsertNotificationQueue.t :=
  {| InsertNotificationQueue.id := id body;
     InsertNotificationQueue.userId := userId body;
     InsertNotificationQueue.channel := field (channel body);
     InsertNotificationQueue.recipient := field (recipient body);
     InsertNotificationQueue.subject := field (subject body);
     InsertNotificationQueue.message := field (message body);
     InsertNotificationQueue.priority := default JUndefined (priority body);
     InsertNotificationQueue.status := Some "pending";
     InsertNotificationQueue.scheduledFor :=
       match scheduledFor body with
       | Some s => if truthy_str s then parseDate s else now
       | None => now
       end;
     InsertNotificationQueue.retryCount := 0;
     InsertNotificationQueue.maxRetries := maxRetries body;
     InsertNotificationQueue.lastError := lastError body;
     InsertNotificationQueue.metadata := metadata body;
     InsertNotificationQueue.extra := extra body |}.

(** The chain of the route.  [now] is the clock of the middleware and of
    the handler, [now'] the clock of the storage call, [rnd] its random
    source. *)
Definition post_notifications_queue {S : Type} `{IStorage S}
    (req : Request) (now now' : Z) (rnd : string) (storage : S) : Response * S :=
  match AuthMiddleware.requireAuth jwt_verify (authorization req) now storage with
  | (inl response, storage) => (response, storage)
  | (inr user, storage) =>
      match AuthMiddleware.requireAdmin (Some user) with
      | Some response => (response, storage)
      | None =>
          match validationResult (body req) with
          | (_ :: _) as errors =>
              ({| statusCode := 400; json := ValidationErrors errors now |}, storage)
          | [] =>
              match
                addToNotificationQueue (notificationData (body req) now) now' rnd storage
              with
              | (Normal notification, storage') =>
                  ({| statusCode := 201;
                      json := Created "Notification added to queue successfully"
                                notification |},
                   storage')
              | (Throw _, storage') =>
                  ({| statusCode := 500;
                      json := Failed "Failed to add notification to queue"
                                "ADD_NOTIFICATION_QUEUE_ERROR" |},
                   storage')
              end
          end
      end
  end.

End Route.

(** A checker for the shape every version of [validator.isUUID] accepts
    by default: 8-4-4-4-12 hexadecimal digits. *)
Definition is_hex (c : ascii) : bool :=
  let n := nat_of_ascii c in
  ((48 <=? n) && (n <=? 57) || (65 <=? n) && (n <=? 70) || (97 <=? n) && (n <=? 102))%nat.

Fixpoint matches_groups (groups : list nat) (s : list ascii) : bool :=
  match groups with
  | [] => false
  | [g] => (forallb is_hex s && (length s =? g)%nat)%bool
  | g :: rest =>
      (forallb is_hex (take g s) && (length (take g s) =? g)%nat &&
       match drop g s with
       | c :: s' => Ascii.eqb c "-" && matches_groups rest s'
       | [] => false
       end)%bool
  end.

Definition uuid_shape (s : string) : bool :=
  matches_groups [8; 4; 4; 4; 12]%nat (list_ascii_of_string s).

End AdminRoutes.

(* ================================================================== *)
(** ** The storage API as a transition system, and its callers *)

Module Api.
Import Js Drizzle Storage.

(** One call of a notification method of the storage layer, with its
    arguments and the clock and random values it reads. *)
Inductive Call : Type :=
| GetNotificationQueue (limit : option Z)
| GetQueuedNotifications (status : option string)
| AddToNotificationQueue (notification : InsertNotificationQueue.t) (now : Z) (rnd : string)
| UpdateNotificationQueueStatus (id status : string)
    (metadata : option (list (string * JsVal))) (now : Z)
| DeleteFromNotificationQueue (id : string)
| GetFailedNotifications (retryCount : option Z)
| GetNotificationLogs (limit : option Z) (channel : option string)
| GetNotificationLog (id : string)
| GetNotificationLogsByUser (userId : string) (limit : option Z)
| CreateNotificationLog (log : InsertNotificationLog.t) (now : Z) (rnd : string)
| UpdateNotificationLog (id : string) (updates : PartialNotificationLog.t) (now : Z)
| GetNotificationStats (dateFrom dateTo : option Z)
| GetNotificationChannel (id : string)
| GetNotificationChannelByType (type : string)
| UpdateNotificationChannel (id : string) (updates : PartialNotificationChannel.t) (now : Z).

(** The object after the call. *)
Definition memory_step (c : Call) (this : MemoryStorage.t) : MemoryStorage.t :=
  match c with
  | GetNotificationQueue limit => snd (MemoryStorage.getNotificationQueue limit this)
  | GetQueuedNotifications status => snd (MemoryStorage.getQueuedNotifications status this)
  | AddToNotificationQueue n now rnd =>
      snd (MemoryStorage.addToNotificationQueue n now rnd this)
  | UpdateNotificationQueueStatus id status metadata now =>
      snd (MemoryStorage.updateNotificationQueueStatus id status metadata now this)
  | DeleteFromNotificationQueue id => snd (MemoryStorage.deleteFromNotificationQueue id this)
  | GetFailedNotifications k => snd (MemoryStorage.getFailedNotifications k this)
  | GetNotificationLogs limit channel =>
      snd (MemoryStorage.getNotificationLogs limit channel this)
  | GetNotificationLog id => snd (MemoryStorage.getNotificationLog id this)
  | GetNotificationLogsByUser userId limit =>
      snd (MemoryStorage.getNotificationLogsByUser userId limit this)
  | CreateNotificationLog log now rnd =>
      snd (MemoryStorage.createNotificationLog log now rnd this)
  | UpdateNotificationLog id updates _ =>
      snd (MemoryStorage.updateNotificationLog id updates this)
  | GetNotificationStats dateFrom dateTo =>
      snd (MemoryStorage.getNotificationStats dateFrom dateTo this)
  | GetNotificationChannel id => snd (MemoryStorage.getNotificationChannel id this)
  | GetNotificationChannelByType type =>
      snd (MemoryStorage.getNotificationChannelByType type this)
  | UpdateNotificationChannel id updates now =>
      snd (MemoryStorage.updateNotificationChannel id updates now this)
  end.

Definition database_step `{Postgres} (c : Call) (this : DatabaseStorage.t)
  : DatabaseStorage.t :=
  match c with
  | GetNotificationQueue limit => snd (DatabaseStorage.getNotificationQueue limit this)
  | GetQueuedNotifications status => snd (DatabaseStorage.getQueuedNotifications status this)
  | AddToNotificationQueue n now rnd =>
      snd (DatabaseStorage.addToNotificationQueue n now rnd this)
  | UpdateNotificationQueueStatus id status metadata now =>
      snd (DatabaseStorage.updateNotificationQueueStatus id status metadata now this)
  | DeleteFromNotificationQueue id => snd (DatabaseStorage.deleteFromNotificationQueue id this)
  | GetFailedNotifications k => snd (DatabaseStorage.getFailedNotifications k this)
  | GetNotificationLogs limit channel =>
      snd (DatabaseStorage.getNotificationLogs limit channel this)
  | GetNotificationLog id => snd (DatabaseStorage.getNotificationLog id this)
  | GetNotificationLogsByUser userId limit =>
      snd (DatabaseStorage.getNotificationLogsByUser userId limit this)
  | CreateNotificationLog log now rnd =>
      snd (DatabaseStorage.createNotificationLog log now rnd this)
  | UpdateNotificationLog id updates now =>
      snd (DatabaseStorage.updateNotificationLog id updates now this)
  | GetNotificationStats dateFrom dateTo =>
      snd (DatabaseStorage.getNotificationStats dateFrom dateTo this)
  | GetNotificationChannel id => snd (DatabaseStorage.getNotificationChannel id this)
  | GetNotificationChannelByType type =>
      snd (DatabaseStorage.getNotificationChannelByType type this)
  | UpdateNotificationChannel id updates now =>
      snd (DatabaseStorage.updateNotificationChannel id updates now this)
  end.

(** The queue items and the log rows an object holds (none without a
    database). *)
Definition memory_queue (this : MemoryStorage.t) : list Q.t :=
  MemoryStorage.notificationQueue this.

Definition database_queue (this : DatabaseStorage.t) : list Q.t :=
  match DatabaseStorage.db this with
  | Some d => DatabaseStorage.notificationQueue d
  | None => []
  end.

Definition memory_logs (this : MemoryStorage.t) : list L.t :=
  MemoryStorage.notificationLogs this.

Definition database_logs (this : DatabaseStorage.t) : list L.t :=
  match DatabaseStorage.db this with
  | Some d => DatabaseStorage.notificationLogs d
  | None => []
  end.

(** The two backends over the same log rows. *)
Definition memory_of_logs (logs : list L.t) : MemoryStorage.t :=
  {| MemoryStorage.users := [];
     MemoryStorage.notificationQueue := [];
     MemoryStorage.notificationLogs := logs;
     MemoryStorage.notificationChannels := [] |}.

Definition database_of_logs (logs : list L.t) : DatabaseStorage.t :=
  {| DatabaseStorage.db :=
       Some {| DatabaseStorage.users := [];
               DatabaseStorage.notificationQueue := [];
               DatabaseStorage.notificationLogs := logs;
               DatabaseStorage.notificationChannels := [] |} |}.

(** A log row lies in the date range: at or after [dateFrom], at or
    before [dateTo], for the bounds that are given. *)
Definition in_window (dateFrom dateTo : option Z) (l : L.t) : bool :=
  match dateFrom with
  | Some f => f <=? L.createdAt l
  | None => true
  end &&
  match dateTo with
  | Some u => L.createdAt l <=? u
  | None => true
  end.

(** The number of log rows in the date range that satisfy [cond]. *)
Definition count_logs (dateFrom dateTo : option Z) (cond : L.t -> bool)
    (logs : list L.t) : Z :=
  Z.of_nat (length (List.filter (fun l => in_window dateFrom dateTo l && cond l) logs)).

(** The rows of a result, for a caller that treats a rejection as an
    empty batch. *)
Definition returned {A : Type} (r : Completion Error (list A)) : list A :=
  match r with
  | Normal l => l
  | Throw _ => []
  end.

(** [n] workers that each ask the storage for the pending items.  No
    storage method awaits in the middle of its work on the queue (the
    in-memory methods have no [await] at all, the database methods issue
    one statement), so racing calls take effect one after the other, in
    some order. *)
Fixpoint dequeue_calls {S : Type} `{IStorage S} (n : nat) (storage : S)
  : list (Completion Error (list Q.t)) * S :=
  match n with
  | O => ([], storage)
  | Datatypes.S k =>
      let '(batch, storage') := getQueuedNotifications (Some "pending") storage in
      let '(batches, storage'') := dequeue_calls k storage' in
      (batch :: batches, storage'')
  end.

(** The fields of a queue item other than [status], [metadata] and
    [updatedAt] agree. *)
Definition same_except_status (old new : Q.t) : Prop :=
  Q.id new = Q.id old /\
  Q.userId new = Q.userId old /\
  Q.channel new = Q.channel old /\
  Q.recipient new = Q.recipient old /\
  Q.subject new = Q.subject old /\
  Q.message new = Q.message old /\
  Q.priority new = Q.priority old /\
  Q.scheduledFor new = Q.scheduledFor old /\
  Q.retryCount new = Q.retryCount old /\
  Q.maxRetries new = Q.maxRetries old /\
  Q.lastError new = Q.lastError old /\
  Q.createdAt new = Q.createdAt old /\
  Q.extra new = Q.extra old.

(** What [{ ...row, ...updates }] holds: each field is the one of
    [updates] when [updates] has the key, else the one of [row]. *)
Definition log_fields_overwritten (old : L.t) (updates : PartialNotificationLog.t)
    (new : L.t) : Prop :=
  L.id new = default (L.id old) (PartialNotificationLog.id updates) /\
  L.notificationItemId new =
    default (L.notificationItemId old) (PartialNotificationLog.notificationItemId updates) /\
  L.userId new = default (L.userId old) (PartialNotificationLog.userId updates) /\
  L.channel new = default (L.channel old) (PartialNotificationLog.channel updates) /\
  L.recipient new = default (L.recipient old) (PartialNotificationLog.recipient updates) /\
  L.status new = default (L.status old) (PartialNotificationLog.status updates) /\
  L.errorMessage new =
    default (L.errorMessage old) (PartialNotificationLog.errorMessage updates) /\
  L.createdAt new = default (L.createdAt old) (PartialNotificationLog.createdAt updates).

End Api.

(** ** Sample data *)

Module Sample.
Import Js.

(** The samples that go through a database take its rows in insertion
    order. *)
#[local] Existing Instance Drizzle.insertion_order.

Definition notification : InsertNotificationQueue.t :=
  {| InsertNotificationQueue.id := None;
     InsertNotificationQueue.userId := Some "123e4567-e89b-42d3-a456-426614174000";
     InsertNotificationQueue.channel := "email";
     InsertNotificationQueue.recipient := "trader@example.com";
     InsertNotificationQueue.subject := "BTC signal";
     InsertNotificationQueue.message := "Buy signal for BTCUSDT";
     InsertNotificationQueue.priority := JNum 5;
     InsertNotificationQueue.status := Some "pending";
     InsertNotificationQueue.scheduledFor := 1000;
     InsertNotificationQueue.retryCount := 0;
     InsertNotificationQueue.maxRetries := Some 3;
     InsertNotificationQueue.lastError := None;
     InsertNotificationQueue.metadata := None;
     InsertNotificationQueue.extra := [] |}.

Definition log (channel status : string) : InsertNotificationLog.t :=
  {| InsertNotificationLog.notificationItemId := Some "queue-1000-abc";
     InsertNotificationLog.userId := Some "123e4567-e89b-42d3-a456-426614174000";
     InsertNotificationLog.channel := channel;
     InsertNotificationLog.recipient := "trader@example.com";
     InsertNotificationLog.status := status;
     InsertNotificationLog.errorMessage := None |}.

(** A request body for the given channel, with the given priority. *)
Definition body (channel : string) (priority : option JsVal) : AdminRoutes.ReqBody :=
  {| AdminRoutes.id := None;
     AdminRoutes.userId := Some "123e4567-e89b-42d3-a456-426614174000";
     AdminRoutes.channel := Some channel;
     AdminRoutes.recipient := Some "trader@example.com";
     AdminRoutes.subject := Some "BTC signal";
     AdminRoutes.message := Some "Buy signal for BTCUSDT";
     AdminRoutes.priority := priority;
     AdminRoutes.scheduledFor := None;
     AdminRoutes.maxRetries := None;
     AdminRoutes.lastError := None;
     AdminRoutes.metadata := None;
     AdminRoutes.extra := [] |}.

(** [jwt.verify] of a server that has signed one token for the seed
    administrator and one for a seed user. *)
Definition jwt_verify (token : string) : option AuthMiddleware.JwtPayload :=
  if String.eqb token "admin-token"
  then Some {| AuthMiddleware.userId := Some "admin-user-456" |}
  else if String.eqb token "user-token"
  then Some {| AuthMiddleware.userId := Some "user-user-789" |}
  else None.

(** The request of the administrator, of the user, and of nobody. *)
Definition request (channel : string) : AdminRoutes.Request :=
  {| AdminRoutes.authorization := Some "Bearer admin-token";
     AdminRoutes.body := body channel (Some (JStr "high")) |}.

Definition request_without_priority (channel : string) : AdminRoutes.Request :=
  {| AdminRoutes.authorization := Some "Bearer admin-token";
     AdminRoutes.body := body channel None |}.

Definition user_request (channel : string) : AdminRoutes.Request :=
  {| AdminRoutes.authorization := Some "Bearer user-token";
     AdminRoutes.body := body channel (Some (JStr "high")) |}.

Definition anonymous_request (channel : string) : AdminRoutes.Request :=
  {| AdminRoutes.authorization := None;
     AdminRoutes.body := body channel (Some (JStr "high")) |}.

(** A database with the three seed users and no notification. *)
Definition database : DatabaseStorage.Database :=
  {| DatabaseStorage.users := MemoryStorage.users (MemoryStorage.constructor 0);
     DatabaseStorage.notificationQueue := [];
     DatabaseStorage.notificationLogs := [];
     DatabaseStorage.notificationChannels := [] |}.

(** The same notification with another priority and schedule. *)
Definition scheduled (priority scheduledFor : Z) : InsertNotificationQueue.t :=
  {| InsertNotificationQueue.id := None;
     InsertNotificationQueue.userId := InsertNotificationQueue.userId notification;
     InsertNotificationQueue.channel := InsertNotificationQueue.channel notification;
     InsertNotificationQueue.recipient := InsertNotificationQueue.recipient notification;
     InsertNotificationQueue.subject := InsertNotificationQueue.subject notification;
     InsertNotificationQueue.message := InsertNotificationQueue.message notification;
     InsertNotificationQueue.priority := JNum priority;
     InsertNotificationQueue.status := Some "pending";
     InsertNotificationQueue.scheduledFor := scheduledFor;
     InsertNotificationQueue.retryCount := 0;
     InsertNotificationQueue.maxRetries := Some 3;
     InsertNotificationQueue.lastError := None;
     InsertNotificationQueue.metadata := None;
     InsertNotificationQueue.extra := [] |}.

(** A fresh [MemoryStorage] after one enqueue at time 1000. *)
Definition memory_one_pending : MemoryStorage.t :=
  Api.memory_step (Api.AddToNotificationQueue notification 1000 "abc")
    (MemoryStorage.constructor 0).

(** A [DatabaseStorage] over an empty database after one enqueue. *)
Definition database_one_pending : DatabaseStorage.t :=
  Api.database_step (Api.AddToNotificationQueue notification 1000 "abc")
    (DatabaseStorage.constructor (Some "postgres://db") database).

(** A fresh [MemoryStorage] after three enqueues (priority 1 due at 9000,
    priority 5 due at 1000, priority 3 due at 1000) and after the third
    item was marked sent at time 3000. *)
Definition memory_three_items : MemoryStorage.t :=
  Api.memory_step (Api.UpdateNotificationQueueStatus "queue-2500-c" "sent" None 3000)
    (Api.memory_step (Api.AddToNotificationQueue (scheduled 3 1000) 2500 "c")
       (Api.memory_step (Api.AddToNotificationQueue (scheduled 5 1000) 2000 "b")
          (Api.memory_step (Api.AddToNotificationQueue (scheduled 1 9000) 1000 "a")
             (MemoryStorage.constructor 0)))).

(** [{ status: 'failed' }] as an update of a log row. *)
Definition mark_failed : PartialNotificationLog.t :=
  {| PartialNotificationLog.id := None;
     PartialNotificationLog.notificationItemId := None;
     PartialNotificationLog.userId := None;
     PartialNotificationLog.channel := None;
     PartialNotificationLog.recipient := None;
     PartialNotificationLog.status := Some "failed";
     PartialNotificationLog.errorMessage := None;
     PartialNotificationLog.createdAt := None;
     PartialNotificationLog.updatedAt := None |}.

(** A fresh [MemoryStorage] after one delivery was logged as sent on the
    given channel, at time 1000. *)
Definition memory_one_log (channel : string) : MemoryStorage.t :=
  Api.memory_step (Api.CreateNotificationLog (log channel "sent") 1000 "abc")
    (MemoryStorage.constructor 0).

(** A [DatabaseStorage] over an empty database after the same call. *)
Definition database_one_log (channel : string) : DatabaseStorage.t :=
  Api.database_step (Api.CreateNotificationLog (log channel "sent") 1000 "abc")
    (DatabaseStorage.constructor (Some "postgres://db") database).

(** [{ isHealthy: false }] as an update of a channel. *)
Definition mark_unhealthy : PartialNotificationChannel.t :=
  {| PartialNotificationChannel.id := None;
     PartialNotificationChannel.name := None;
     PartialNotificationChannel.type := None;
     PartialNotificationChannel.provider := None;
     PartialNotificationChannel.config := None;
     PartialNotificationChannel.providerConfig := None;
     PartialNotificationChannel.isEnabled := None;
     PartialNotificationChannel.isHealthy := Some false;
     PartialNotificationChannel.lastHealthCheck := None;
     PartialNotificationChannel.healthCheckInterval := None;
     PartialNotificationChannel.errorCount := None;
     PartialNotificationChannel.successCount := None;
     PartialNotificationChannel.lastError := None;
     PartialNotificationChannel.createdAt := None;
     PartialNotificationChannel.updatedAt := None |}.

(** A fresh [MemoryStorage] whose seeded email channel was then marked
    unhealthy at time 500. *)
Definition memory_unhealthy_email : MemoryStorage.t :=
  Api.memory_step (Api.UpdateNotificationChannel "channel-1" mark_unhealthy 500)
    (MemoryStorage.constructor 0).

(** A database whose table of channels holds the channels that a
    [MemoryStorage] is seeded with. *)
Definition database_channels : DatabaseStorage.Database :=
  {| DatabaseStorage.users := [];
     DatabaseStorage.notificationQueue := [];
     DatabaseStorage.notificationLogs := [];
     DatabaseStorage.notificationChannels :=
       MemoryStorage.notificationChannels (MemoryStorage.constructor 0) |}.

(** A [DatabaseStorage] over that database, whose email channel was then
    marked unhealthy at time 500. *)
Definition database_unhealthy_email : DatabaseStorage.t :=
  Api.database_step (Api.UpdateNotificationChannel "channel-1" mark_unhealthy 500)
    (DatabaseStorage.constructor (Some "postgres://db") database_channels).

(** The log of a storage that recorded one delivery on telegram as
    sent. *)
Definition one_sent_log : list L.t := Api.memory_logs (memory_one_log "telegram").

(** The log of a storage that recorded deliveries on the given channels,
    one after the other from time 1000 on. *)
Fixpoint memory_logged (channels : list string) (now : Z) (this : MemoryStorage.t)
  : MemoryStorage.t :=
  match channels with
  | [] => this
  | channel :: channels' =>
      memory_logged channels' (now + 1)
        (Api.memory_step (Api.CreateNotificationLog (log channel "sent") now "abc") this)
  end.

Definition logs_on (channels : list string) : list L.t :=
  Api.memory_logs (memory_logged channels 1000 (MemoryStorage.constructor 0)).

End Sample.

(* ================================================================== *)
(** ** server/storage.ts: more of the notification channels *)

Module InsertNotificationChannel.
Import Js.

(** [type InsertNotificationChannel]: what
    [POST /api/admin/notifications/channels] supplies.  (The schema module
    is not in the source tree; these are the fields of a channel that
    [createNotificationChannel] does not overwrite.) *)
Record t := {
  name : string;
  type : string;
  provider : string;
  config : JsVal;
  providerConfig : JsVal;
  isEnabled : option bool
}.
End InsertNotificationChannel.

Module Channels.
Import Js Drizzle.

(** The answer of [testNotificationChannel]: [{ success: true, message,
    channelType?, timestamp }] or [{ success: false, [key]: text }] (the
    in-memory class reports under [error], the database class under
    [message]).  The timestamp is kept as an instant. *)
Inductive TestResult : Type :=
| TestSent (message : string) (channelType : option string) (timestamp : Z)
| TestFailed (key : string) (text : string).

(** [MemoryStorage.createNotificationChannel]. *)
Definition memory_createNotificationChannel (channel : InsertNotificationChannel.t)
    (now : Z) (rnd : string) (this : MemoryStorage.t) : C.t * MemoryStorage.t :=
  let newChannel :=
    {| C.id := "channel-" +:+ pretty now +:+ "-" +:+ rnd;
       C.name := InsertNotificationChannel.name channel;
       C.type := InsertNotificationChannel.type channel;
       C.provider := InsertNotificationChannel.provider channel;
       C.config := InsertNotificationChannel.config channel;
       C.providerConfig := InsertNotificationChannel.providerConfig channel;
       C.isEnabled := default true (InsertNotificationChannel.isEnabled channel);
       C.isHealthy := true;
       C.lastHealthCheck := None;
       C.healthCheckInterval := 300;
       C.errorCount := 0;
       C.successCount := 0;
       C.lastError := None;
       C.createdAt := now;
       C.updatedAt := now |} in
  (newChannel,
   MemoryStorage.with_channels (MemoryStorage.notificationChannels this ++ [newChannel]) this).

(** [MemoryStorage.deleteNotificationChannel]. *)
Definition memory_deleteNotificationChannel (id : string) (this : MemoryStorage.t)
  : bool * MemoryStorage.t :=
  match list_find (fun c => C.id c = id) (MemoryStorage.notificationChannels this) with
  | None => (false, this)
  | Some (index, _) =>
      (true,
       MemoryStorage.with_channels (delete index (MemoryStorage.notificationChannels this))
         this)
  end.

(** [MemoryStorage.testNotificationChannel]. *)
Definition memory_testNotificationChannel (id : string) (now : Z)
    (this : MemoryStorage.t) : TestResult * MemoryStorage.t :=
  match MemoryStorage.getNotificationChannel id this with
  | (None, this') => (TestFailed "error" "Channel not found", this')
  | (Some channel, this') =>
      (TestSent ("Test notification sent via " +:+ C.name channel) None now, this')
  end.

(** [DatabaseStorage.deleteNotificationChannel] (the later declaration). *)
Definition database_deleteNotificationChannel (id : string)
  : DatabaseStorage.Method bool :=
  fun this =>
    match DatabaseStorage.db this with
    | None => (Normal false, this)
    | Some d =>
        let '(table, rowCount) :=
          delete_where (fun c => String.eqb (C.id c) id)
            (DatabaseStorage.notificationChannels d) in
        (Normal (0 <? rowCount), DatabaseStorage.with_channels table d)
    end.

(** [DatabaseStorage.testNotificationChannel] (the later declaration). *)
Definition database_testNotificationChannel `{Postgres} (id : string) (now : Z)
  : DatabaseStorage.Method TestResult :=
  fun this =>
    match DatabaseStorage.db this with
    | None => (Normal (TestFailed "message" "Database not available"), this)
    | Some _ =>
        match DatabaseStorage.getNotificationChannel id this with
        | (Throw e, this') => (Throw e, this')
        | (Normal None, this') => (Normal (TestFailed "message" "Channel not found"), this')
        | (Normal (Some channel), this') =>
            (Normal (TestSent ("Test notification sent via " +:+ C.channelType channel)
                       (Some (C.channelType channel)) now),
             this')
        end
    end.

End Channels.

(* ================================================================== *)
(** ** server/storage.ts: password reset tokens *)

Module PasswordResetToken.
(** [type PasswordResetToken].  The schema module is not in the source
    tree; these are the fields that [storage.ts] and [routes/auth.ts] read
    and write.  [expiresAt] is the instant it denotes; [isUsed] is [None]
    when the producer left it out (a NULL column). *)
Record t := {
  id : string;
  userId : string;
  token : string;
  expiresAt : Z;
  isUsed : option bool;
  createdAt : Z
}.

(** [t.isUsed] as a condition. *)
Definition used (t : t) : bool := default false (isUsed t).
End PasswordResetToken.

Module InsertPasswordResetToken.
Record t := {
  userId : string;
  token : string;
  expiresAt : Z;
  isUsed : option bool
}.
End InsertPasswordResetToken.

Module T := PasswordResetToken.

Module MemoryTokens.
(** [private passwordResetTokens: PasswordResetToken[]] of
    [MemoryStorage], and the methods that work on it. *)
Definition t : Type := list T.t.

(** [uuid] stands for [crypto.randomUUID()]. *)
Definition createPasswordResetToken (tokenData : InsertPasswordResetToken.t)
    (now : Z) (uuid : string) (this : t) : T.t * t :=
  let token :=
    {| T.id := uuid;
       T.userId := InsertPasswordResetToken.userId tokenData;
       T.token := InsertPasswordResetToken.token tokenData;
       T.expiresAt := InsertPasswordResetToken.expiresAt tokenData;
       T.isUsed := InsertPasswordResetToken.isUsed tokenData;
       T.createdAt := now |} in
  (token, this ++ [token]).

Definition getPasswordResetToken (token : string) (now : Z) (this : t)
  : option T.t * t :=
  (snd <$> list_find (fun t => T.token t = token /\ T.used t = false /\ now < T.expiresAt t)
             this,
   this).

(** [this.passwordResetTokens[tokenIndex].isUsed = true]. *)
Definition set_used (t : T.t) : T.t :=
  {| T.id := T.id t; T.userId := T.userId t; T.token := T.token t;
     T.expiresAt := T.expiresAt t; T.isUsed := Some true; T.createdAt := T.createdAt t |}.

Definition markPasswordResetTokenAsUsed (token : string) (this : t) : bool * t :=
  match list_find (fun t => T.token t = token) this with
  | None => (false, this)
  | Some (tokenIndex, t) => (true, <[tokenIndex := set_used t]> this)
  end.

Definition invalidateUserPasswordResetTokens (userId : string) (this : t) : unit * t :=
  (tt,
   map (fun token =>
          if String.eqb (T.userId token) userId && negb (T.used token)
          then set_used token else token)
     this).

Definition cleanupExpiredPasswordResetTokens (now : Z) (this : t) : unit * t :=
  (tt, List.filter (fun t => negb (T.used t) && (now <? T.expiresAt t)) this).

End MemoryTokens.

Module DatabaseTokens.
Import Js Drizzle.

(** The [passwordResetTokens] table behind [this.db] of
    [DatabaseStorage], absent without a database. *)
Record t := { db : option (list T.t) }.

Definition getPasswordResetToken `{Postgres} (token : string) (this : t)
  : Completion Error (option T.t) * t :=
  match db this with
  | None => (Normal None, this)
  | Some table =>
      (DatabaseStorage.first_row
         (rows (where_ (fun t => String.eqb (T.token t) token) (select_from table))),
       this)
  end.

(** [update(...).set({ isUsed: true }).where(...)] and its [rowCount]. *)
Definition markPasswordResetTokenAsUsed (token : string) (this : t)
  : Completion Error bool * t :=
  match db this with
  | None => (Normal false, this)
  | Some table =>
      let cond := fun t => String.eqb (T.token t) token in
      (Normal (0 <? Z.of_nat (length (List.filter cond table))),
       {| db := Some (map (fun t => if cond t then MemoryTokens.set_used t else t) table) |})
  end.

(** [and(eq(userId, userId), eq(isUsed, false))]: a NULL [isUsed] is not
    equal to false. *)
Definition invalidateUserPasswordResetTokens (userId : string) (this : t)
  : Completion Error unit * t :=
  match db this with
  | None => (Normal tt, this)
  | Some table =>
      let cond :=
        fun t => String.eqb (T.userId t) userId && bool_decide (T.isUsed t = Some false) in
      (Normal tt,
       {| db := Some (map (fun t => if cond t then MemoryTokens.set_used t else t) table) |})
  end.

(** [or(eq(isUsed, true), lte(expiresAt, new Date()))]. *)
Definition cleanupExpiredPasswordResetTokens (now : Z) (this : t)
  : Completion Error unit * t :=
  match db this with
  | None => (Normal tt, this)
  | Some table =>
      let '(table', _) :=
        delete_where
          (fun t => bool_decide (T.isUsed t = Some true) || (T.expiresAt t <=? now))
          table in
      (Normal tt, {| db := Some table' |})
  end.

End DatabaseTokens.

Module AuthRoutes.
(** server/routes/auth.ts: the test that both reset routes apply to what
    [storage.getPasswordResetToken] returned:
    [!resetToken || resetToken.isUsed || new Date(resetToken.expiresAt) < new Date()]
    answers 400 INVALID_TOKEN. *)
Definition invalid_token (resetToken : option T.t) (now : Z) : bool :=
  match resetToken with
  | None => true
  | Some t => T.used t || (T.expiresAt t <? now)
  end.
End AuthRoutes.

(* ================================================================== *)
(** ** server/storage.ts: announcements of MemoryStorage *)

Module Announcement.
(** [type Announcement], with the fields of the seed object of
    [MemoryStorage] (the schema module is not in the source tree). *)
Record t := {
  id : string;
  title : string;
  body : string;
  type : string;
  audience : string;
  isPublished : bool;
  priority : Z;
  publishedAt : option Z;
  expiresAt : option Z;
  createdAt : Z;
  updatedAt : Z;
  createdBy : option string
}.
End Announcement.

Module AnnouncementInsert.
Record t := {
  title : string;
  body : string;
  type : option string;
  audience : option string;
  isPublished : option bool;
  priority : option Z;
  expiresAt : option Z;
  createdBy : option string
}.
End AnnouncementInsert.

Module PartialAnnouncement.
(** [Partial<Announcement>]: [None] is an absent key. *)
Record t := {
  id : option string;
  title : option string;
  body : option string;
  type : option string;
  audience : option string;
  isPublished : option bool;
  priority : option Z;
  publishedAt : option (option Z);
  expiresAt : option (option Z);
  createdAt : option Z;
  updatedAt : option Z;
  createdBy : option (option string)
}.
End PartialAnnouncement.

Module A := Announcement.

Module MemoryAnnouncements.
Import Js.

(** [private announcements: Announcement[]] of [MemoryStorage]. *)
Definition t : Type := list A.t.

(** The field initialiser, run at construction time [now]. *)
Definition constructor (now : Z) : t :=
  [ {| A.id := "announcement-1";
       A.title := "Welcome to Proud Profits";
       A.body := "Welcome to our advanced crypto trading signals platform!";
       A.type := "info";
       A.audience := "all";
       A.isPublished := true;
       A.priority := 1;
       A.publishedAt := Some now;
       A.expiresAt := None;
       A.createdAt := now;
       A.updatedAt := now;
       A.createdBy := Some "admin-user-456" |} ].

(** The comparator of [getAnnouncements]: priority first, then newest. *)
Definition by_priority (a b : A.t) : Z :=
  if negb (A.priority a =? A.priority b) then A.priority a - A.priority b
  else A.createdAt b - A.createdAt a.

Definition getAnnouncements (audience : option string) (this : t) : list A.t * t :=
  let filtered := List.filter A.isPublished this in
  let filtered :=
    match audience with
    | Some aud =>
        if truthy_str aud then
          List.filter (fun a => String.eqb (A.audience a) aud || String.eqb (A.audience a) "all")
            filtered
        else filtered
    | None => filtered
    end in
  (sort by_priority filtered, this).

Definition getAnnouncement (id : string) (this : t) : option A.t * t :=
  (snd <$> list_find (fun a => A.id a = id) this, this).

Definition createAnnouncement (announcement : AnnouncementInsert.t)
    (now : Z) (rnd : string) (this : t) : A.t * t :=
  let newAnnouncement :=
    {| A.id := "announcement-" +:+ pretty now +:+ "-" +:+ rnd;
       A.title := AnnouncementInsert.title announcement;
       A.body := AnnouncementInsert.body announcement;
       A.type := default "info" (AnnouncementInsert.type announcement);
       A.audience := default "all" (AnnouncementInsert.audience announcement);
       A.isPublished := default false (AnnouncementInsert.isPublished announcement);
       A.priority := default 1 (AnnouncementInsert.priority announcement);
       A.publishedAt := None;
       A.expiresAt := AnnouncementInsert.expiresAt announcement;
       A.createdAt := now;
       A.updatedAt := now;
       A.createdBy := AnnouncementInsert.createdBy announcement |} in
  (newAnnouncement, this ++ [newAnnouncement]).

(** [{ ...this.announcements[index], ...updates, updatedAt: new Date() }]. *)
Definition apply_updates (old : A.t) (updates : PartialAnnouncement.t) (now : Z) : A.t :=
  {| A.id := spread_field (A.id old) (PartialAnnouncement.id updates);
     A.title := spread_field (A.title old) (PartialAnnouncement.title updates);
     A.body := spread_field (A.body old) (PartialAnnouncement.body updates);
     A.type := spread_field (A.type old) (PartialAnnouncement.type updates);
     A.audience := spread_field (A.audience old) (PartialAnnouncement.audience updates);
     A.isPublished :=
       spread_field (A.isPublished old) (PartialAnnouncement.isPublished updates);
     A.priority := spread_field (A.priority old) (PartialAnnouncement.priority updates);
     A.publishedAt :=
       spread_field (A.publishedAt old) (PartialAnnouncement.publishedAt updates);
     A.expiresAt := spread_field (A.expiresAt old) (PartialAnnouncement.expiresAt updates);
     A.createdAt := spread_field (A.createdAt old) (PartialAnnouncement.createdAt updates);
     A.updatedAt := now;
     A.createdBy := spread_field (A.createdBy old) (PartialAnnouncement.createdBy updates) |}.

Definition updateAnnouncement (id : string) (updates : PartialAnnouncement.t)
    (now : Z) (this : t) : option A.t * t :=
  match list_find (fun a => A.id a = id) this with
  | None => (None, this)
  | Some (index, old) =>
      let updated := apply_updates old updates now in
      (Some updated, <[index := updated]> this)
  end.

Definition deleteAnnouncement (id : string) (this : t) : bool * t :=
  match list_find (fun a => A.id a = id) this with
  | None => (false, this)
  | Some (index, _) => (true, delete index this)
  end.

(** [updateAnnouncement(id, { isPublished: true, publishedAt: new Date() })];
    [now] is the clock read for [publishedAt], [now'] the one read inside
    [updateAnnouncement]. *)
Definition publishAnnouncement (id : string) (now now' : Z) (this : t)
  : option A.t * t :=
  updateAnnouncement id
    {| PartialAnnouncement.id := None;
       PartialAnnouncement.title := None;
       PartialAnnouncement.body := None;
       PartialAnnouncement.type := None;
       PartialAnnouncement.audience := None;
       PartialAnnouncement.isPublished := Some true;
       PartialAnnouncement.priority := None;
       PartialAnnouncement.publishedAt := Some (Some now);
       PartialAnnouncement.expiresAt := None;
       PartialAnnouncement.createdAt := None;
       PartialAnnouncement.updatedAt := None;
       PartialAnnouncement.createdBy := None |}
    now' this.

End MemoryAnnouncements.

(* ================================================================== *)
(** ** server/utils/validation.ts *)

(** A string is the list of its characters; every character class of
    this file is a set of ASCII characters and none of the patterns has
    the [u] flag, so a character outside ASCII is in none of the classes
    whatever its encoding. *)
Module Validation.

(** The five characters of the class in [sanitizeInput], by code:
    less-than (60), greater-than (62), double quote (34), single quote
    (39) and ampersand (38). *)
Definition is_markup (c : ascii) : bool :=
  let n := nat_of_ascii c in
  ((n =? 60) || (n =? 62) || (n =? 34) || (n =? 39) || (n =? 38))%nat.

(** [input.replace(/[...]/g, '')]: every character of the class is
    dropped. *)
Definition sanitizeInput (input : string) : string :=
  string_of_list_ascii
    (List.filter (fun c => negb (is_markup c)) (list_ascii_of_string input)).

(** One position of a pattern whose every position is a character
    class. *)
Inductive CharClass : Type :=
| Hex          (* [0-9a-f], case-insensitive *)
| Dash         (* - *)
| Version      (* [1-5] *)
| Variant.     (* [89ab], case-insensitive *)

Definition in_class (k : CharClass) (c : ascii) : bool :=
  let n := nat_of_ascii c in
  match k with
  | Hex => ((48 <=? n) && (n <=? 57) || (65 <=? n) && (n <=? 70) || (97 <=? n) && (n <=? 102))%nat
  | Dash => (n =? 45)%nat
  | Version => ((49 <=? n) && (n <=? 53))%nat
  | Variant => ((n =? 56) || (n =? 57) || (n =? 97) || (n =? 98) || (n =? 65) || (n =? 66))%nat
  end.

(** A pattern [^k1 k2 ... kn$] matches the strings of [n] characters whose
    i-th character is in [ki]. *)
Fixpoint matches (pattern : list CharClass) (s : list ascii) : bool :=
  match pattern, s with
  | [], [] => true
  | k :: pattern', c :: s' => in_class k c && matches pattern' s'
  | _, _ => false
  end.

(** [/^[0-9a-f]{8}-[0-9a-f]{4}-[1-5][0-9a-f]{3}-[89ab][0-9a-f]{3}-[0-9a-f]{12}$/i]. *)
Definition uuidRegex : list CharClass :=
  replicate 8 Hex ++ [Dash] ++ replicate 4 Hex ++ [Dash] ++
  [Version] ++ replicate 3 Hex ++ [Dash] ++
  [Variant] ++ replicate 3 Hex ++ [Dash] ++ replicate 12 Hex.

Definition isValidUUID (str : string) : bool :=
  matches uuidRegex (list_ascii_of_string str).

Definition is_upper (c : ascii) : bool :=
  let n := nat_of_ascii c in ((65 <=? n) && (n <=? 90))%nat.

(** [/^[A-Z]{2,10}USDT$/]: some split of the string into two to ten
    capitals followed by USDT; the split is fixed by the length. *)
Definition isValidSymbol (symbol : string) : bool :=
  let s := list_ascii_of_string symbol in
  let k := (length s - 4)%nat in
  ((4 <=? length s) && (2 <=? k) && (k <=? 10) &&
   forallb is_upper (take k s) &&
   String.eqb (string_of_list_ascii (drop k s)) "USDT")%nat.

End Validation.

(* ================================================================== *)
(** ** The two backends over the same rows *)

Module Backends.

(** A [DatabaseStorage] whose tables hold the rows of a [MemoryStorage],
    in the same order. *)
Definition database_of (m : MemoryStorage.t) : DatabaseStorage.t :=
  {| DatabaseStorage.db :=
       Some {| DatabaseStorage.users := MemoryStorage.users m;
               DatabaseStorage.notificationQueue := MemoryStorage.notificationQueue m;
               DatabaseStorage.notificationLogs := MemoryStorage.notificationLogs m;
               DatabaseStorage.notificationChannels := MemoryStorage.notificationChannels m |} |}.

(** A [MemoryStorage] with the given arrays. *)
Definition memory_of (queue : list Q.t) (logs : list L.t) (channels : list C.t)
  : MemoryStorage.t :=
  {| MemoryStorage.users := [];
     MemoryStorage.notificationQueue := queue;
     MemoryStorage.notificationLogs := logs;
     MemoryStorage.notificationChannels := channels |}.

End Backends.

(* ================================================================== *)
(** * Properties *)

(** ** The email adapter *)

Section EmailFacts.
Import Js EmailService.

Lemma sendEmail_disabled (this : EmailService.t) (send : Transport)
    (params : EmailParams) (tr : list Event) :
  isEnabled this = false ->
  sendEmail this send params tr =
    (Normal false,
     tr ++ [ConsoleError "Email service is disabled - SENDGRID_API_KEY not configured"]).
Proof.
  intros Hoff. unfold sendEmail. rewrite Hoff. reflexivity.
Qed.

Lemma sendEmail_delivered (this : EmailService.t) (send : Transport)
    (params : EmailParams) (tr : list Event) :
  isEnabled this = true ->
  send (mailData params) = Normal tt ->
  sendEmail this send params tr =
    (Normal true,
     (tr ++ [SgSend (mailData params)]) ++
       [ConsoleLog ("Email sent successfully to " ++ to params)]).
Proof.
  intros Hon Hok. unfold sendEmail, try_catch, bind, sgMail_send, emit, ret.
  rewrite Hon. simpl. rewrite Hok. reflexivity.
Qed.

Lemma sendEmail_rejected (this : EmailService.t) (send : Transport)
    (params : EmailParams) (tr : list Event) (e : SgError) :
  isEnabled this = true ->
  send (mailData params) = Throw e ->
  exists tr', sendEmail this send params tr = (Normal false, tr').
Proof.
  intros Hon Hko. unfold sendEmail, try_catch, bind, sgMail_send, emit, ret.
  rewrite Hon. simpl. rewrite Hko.
  destruct (response_body e); simpl; eauto.
Qed.

Lemma sends_app (tr1 tr2 : list Event) : sends (tr1 ++ tr2) = sends tr1 ++ sends tr2.
Proof. unfold sends. apply omap_app. Qed.

Lemma sendEmail_outcome (this : EmailService.t) (send : Transport)
    (params : EmailParams) (tr : list Event) :
  exists (b : bool) (tr' : list Event),
    sendEmail this send params tr = (Normal b, tr') /\
    (b = true <-> isEnabled this = true /\ send (mailData params) = Normal tt).
Proof.
  destruct (isEnabled this) eqn:Hon.
  - destruct (send (mailData params)) as [[]|e] eqn:Hsend.
    + eexists true, _. split; [apply sendEmail_delivered; assumption | tauto].
    + destruct (sendEmail_rejected this send params tr e Hon Hsend) as [tr' Hrun].
      exists false, tr'. split; [exact Hrun|].
      split; [discriminate | intros [_ Hok]; discriminate Hok].
  - eexists false, _. split; [apply sendEmail_disabled; assumption|].
    split; [discriminate | intros [Hen _]; discriminate Hen].
Qed.

(** C8: whatever the parameters, the state of the service and the
    behaviour of the SendGrid client, [sendEmail] resolves to a boolean and
    never rejects; when the client rejects the mail, the error is caught
    and the result is [false]; the result is [true] exactly when the
    service is enabled and the client accepted the mail. *)
Theorem sendEmail_never_throws (this : EmailService.t) (send : Transport)
    (params : EmailParams) (tr : list Event) :
  exists (b : bool) (tr' : list Event),
    sendEmail this send params tr = (Normal b, tr') /\
    (forall e, send (mailData params) = Throw e -> b = false) /\
    (b = true <-> isEnabled this = true /\ send (mailData params) = Normal tt).
Proof.
  destruct (sendEmail_outcome this send params tr) as (b & tr' & Hrun & Hb).
  exists b, tr'. split; [exact Hrun|]. split; [|exact Hb].
  intros e He. destruct b; [|reflexivity].
  destruct Hb as [Hb _]. destruct (Hb eq_refl) as [_ Hok]. congruence.
Qed.

(** C10: a service constructed without a SENDGRID_API_KEY answers [false]
    to every call and records no call of the SendGrid client; and for
    every value of the key, set or not, [sendEmail] resolves to a boolean. *)
Theorem sendEmail_without_api_key (send : Transport) (params : EmailParams)
    (tr : list Event) :
  (exists tr',
      sendEmail (constructor None) send params tr = (Normal false, tr') /\
      sends tr' = sends tr) /\
  (forall key : option string,
      exists (b : bool) (tr' : list Event),
        sendEmail (constructor key) send params tr = (Normal b, tr')).
Proof.
  split.
  - eexists. split.
    + apply sendEmail_disabled. reflexivity.
    + rewrite sends_app. simpl. apply app_nil_r.
  - intros key.
    destruct (sendEmail_outcome (constructor key) send params tr)
      as (b & tr' & Hrun & _).
    exists b, tr'. exact Hrun.
Qed.

End EmailFacts.

(** ** The JavaScript primitives on small inputs *)

Section Primitives.
Import Js.

(** [sort] is stable: rows that compare equal keep their order. *)
Example sort_keeps_ties_in_order :
  sort (newest_first fst) [(1, "a"); (2, "b"); (1, "c"); (2, "d")] =
    [(2, "b"); (2, "d"); (1, "a"); (1, "c")].
Proof. reflexivity. Qed.

Example slice0_positive_and_negative :
  slice0 2 [1; 2; 3] = [1; 2] /\ slice0 5 [1; 2; 3] = [1; 2; 3] /\
  slice0 (-1) [1; 2; 3] = [1; 2] /\ slice0 (-5) [1; 2; 3] = [].
Proof. repeat split; reflexivity. Qed.

Example successRate_values :
  DatabaseStorage.successRate 1 3 = "33.3%" /\
  DatabaseStorage.successRate 2 3 = "66.7%" /\
  DatabaseStorage.successRate 1 2000 = "0.1%" /\
  DatabaseStorage.successRate 3 3 = "100.0%" /\
  DatabaseStorage.successRate 0 0 = "0%".
Proof. repeat split; vm_compute; reflexivity. Qed.

Example obj_spread_overrides_and_appends :
  obj_spread [("a", JNum 1); ("b", JNum 2)] [("b", JNum 3); ("c", JNum 4)] =
    [("a", JNum 1); ("b", JNum 3); ("c", JNum 4)].
Proof. reflexivity. Qed.

End Primitives.

(** ** Sorting and slicing *)

Section SortFacts.
Import Js.
Context {A : Type} (key : A -> Z).

Lemma sort_insert_Permutation (cmp : A -> A -> Z) (x : A) (l : list A) :
  Permutation (sort_insert cmp x l) (x :: l).
Proof.
  induction l as [|y l IH]; simpl.
  - reflexivity.
  - destruct (cmp x y <=? 0).
    + reflexivity.
    + rewrite IH. apply perm_swap.
Qed.

Lemma sort_Permutation (cmp : A -> A -> Z) (l : list A) :
  Permutation (sort cmp l) l.
Proof.
  induction l as [|x l IH]; simpl.
  - reflexivity.
  - rewrite sort_insert_Permutation. apply perm_skip, IH.
Qed.

Lemma sort_insert_newest_first (x : A) (l : list A) :
  StronglySorted (fun a b => key b <= key a) l ->
  StronglySorted (fun a b => key b <= key a) (sort_insert (newest_first key) x l).
Proof.
  induction l as [|y l IH]; simpl; intros Hs.
  - repeat constructor.
  - apply StronglySorted_inv in Hs as [Hl Hy].
    unfold newest_first at 1.
    destruct (key y - key x <=? 0) eqn:Hcmp.
    + apply Z.leb_le in Hcmp. constructor.
      * constructor; assumption.
      * constructor; [lia|].
        eapply Forall_impl; [exact Hy|]. simpl. intros b Hb. lia.
    + apply Z.leb_gt in Hcmp. constructor.
      * apply IH, Hl.
      * rewrite sort_insert_Permutation. constructor; [lia | exact Hy].
Qed.

Lemma sort_newest_first (l : list A) :
  StronglySorted (fun a b => key b <= key a) (sort (newest_first key) l).
Proof.
  induction l as [|x l IH]; simpl.
  - constructor.
  - apply sort_insert_newest_first, IH.
Qed.

Lemma take_StronglySorted (R : A -> A -> Prop) (n : nat) (l : list A) :
  StronglySorted R l -> StronglySorted R (take n l).
Proof.
  intros Hs. rewrite <- (take_drop n l) in Hs.
  apply StronglySorted_app_1_l in Hs. exact Hs.
Qed.

(** In a sorted list, what comes later is related to what comes
    earlier. *)
Lemma StronglySorted_app_cross (R : A -> A -> Prop) (l1 l2 : list A) :
  StronglySorted R (l1 ++ l2) ->
  Forall (fun b => Forall (fun a => R a b) l1) l2.
Proof.
  induction l1 as [|x l1 IH]; simpl; intros Hs.
  - apply List.Forall_forall. intros b _. constructor.
  - apply StronglySorted_inv in Hs as [Hs Hx].
    specialize (IH Hs). apply Forall_app in Hx as [_ Hx].
    rewrite List.Forall_forall in IH, Hx |- *.
    intros b Hb. constructor; [apply Hx, Hb | apply IH, Hb].
Qed.

(** The first [n] rows of a newest-first listing: they are sorted, there
    are [n] of them when the list is long enough, and no row that was
    left out is newer than a row that was taken. *)
Lemma take_sort_newest_first (n : nat) (l : list A) :
  StronglySorted (fun a b => key b <= key a) (take n (sort (newest_first key) l)) /\
  length (take n (sort (newest_first key) l)) = Nat.min n (length l) /\
  Permutation
    (take n (sort (newest_first key) l) ++ drop n (sort (newest_first key) l)) l /\
  Forall (fun left =>
            Forall (fun taken => key left <= key taken)
              (take n (sort (newest_first key) l)))
    (drop n (sort (newest_first key) l)).
Proof.
  split; [apply take_StronglySorted, sort_newest_first|].
  split; [|split].
  - rewrite length_take. rewrite (Permutation_length (sort_Permutation _ l)).
    reflexivity.
  - rewrite take_drop. apply sort_Permutation.
  - apply (StronglySorted_app_cross (fun a b => key b <= key a)).
    rewrite take_drop. apply sort_newest_first.
Qed.

(** Two sorted lists of the same numbers are the same list. *)
Lemma sorted_Z_unique (k1 k2 : list Z) :
  StronglySorted (fun a b : Z => b <= a) k1 ->
  StronglySorted (fun a b : Z => b <= a) k2 ->
  Permutation k1 k2 -> k1 = k2.
Proof.
  revert k2. induction k1 as [|x k1 IH]; intros k2 Hs1 Hs2 Hp.
  - apply Permutation_nil in Hp. congruence.
  - destruct k2 as [|y k2]; [apply Permutation_sym, Permutation_nil in Hp; discriminate|].
    apply StronglySorted_inv in Hs1 as [Hs1 Hx]. apply StronglySorted_inv in Hs2 as [Hs2 Hy].
    assert (Hxy : x = y).
    { assert (Hxin : In x (y :: k2))
        by (eapply Permutation_in; [exact Hp | left; reflexivity]).
      assert (Hyin : In y (x :: k1))
        by (eapply Permutation_in; [symmetry; exact Hp | left; reflexivity]).
      rewrite List.Forall_forall in Hx, Hy.
      destruct Hxin as [Heq|Hxin]; [congruence|].
      destruct Hyin as [Heq|Hyin]; [congruence|].
      specialize (Hx y Hyin). specialize (Hy x Hxin). lia. }
    subst y. f_equal. apply IH; [exact Hs1 | exact Hs2 | eapply Permutation_cons_inv, Hp].
Qed.

Lemma sorted_keys (l : list A) :
  StronglySorted (fun a b => key b <= key a) l ->
  StronglySorted (fun a b : Z => b <= a) (map key l).
Proof.
  induction 1 as [|x l Hs IH Hx]; simpl; constructor; [exact IH|].
  apply List.Forall_map. exact Hx.
Qed.

(** Sorting the same rows, taken in any order, gives the same sequence of
    keys. *)
Lemma sort_keys_Permutation (l1 l2 : list A) :
  Permutation l1 l2 ->
  map key (sort (newest_first key) l1) = map key (sort (newest_first key) l2).
Proof.
  intros Hp. apply sorted_Z_unique; try apply sorted_keys, sort_newest_first.
  apply Permutation_map. rewrite !sort_Permutation. exact Hp.
Qed.

Lemma key_inj_NoDup (l : list A) (a b : A) :
  NoDup (map key l) -> In a l -> In b l -> key a = key b -> a = b.
Proof.
  rewrite NoDup_ListNoDup.
  induction l as [|x l IH]; simpl; intros Hnd Ha Hb Heq; [destruct Ha|].
  apply List.NoDup_cons_iff in Hnd as [Hnotin Hnd].
  destruct Ha as [Ha|Ha], Hb as [Hb|Hb].
  - congruence.
  - subst x. destruct Hnotin. rewrite Heq. apply in_map, Hb.
  - subst x. destruct Hnotin. rewrite <- Heq. apply in_map, Ha.
  - apply IH; assumption.
Qed.

Lemma same_keys_eq (l1 l2 : list A) :
  NoDup (map key l2) -> Permutation l1 l2 -> map key l1 = map key l2 -> l1 = l2.
Proof.
  revert l2. induction l1 as [|x l1 IH]; intros l2 Hnd Hp Hk.
  - apply Permutation_nil in Hp. congruence.
  - destruct l2 as [|y l2]; [discriminate Hk|]. simpl in Hk. injection Hk as Hxy Hk.
    assert (Heq : x = y).
    { apply (key_inj_NoDup (y :: l2));
        [ exact Hnd
        | eapply Permutation_in; [exact Hp | left; reflexivity]
        | left; reflexivity
        | exact Hxy ]. }
    subst y. f_equal. apply IH; [|eapply Permutation_cons_inv, Hp | exact Hk].
    simpl in Hnd. apply NoDup_cons in Hnd as [_ Hnd]. exact Hnd.
Qed.

(** With pairwise distinct keys, sorting the same rows, taken in any
    order, gives the same list. *)
Lemma sort_Permutation_eq (l1 l2 : list A) :
  Permutation l1 l2 -> NoDup (map key l2) ->
  sort (newest_first key) l1 = sort (newest_first key) l2.
Proof.
  intros Hp Hnd. apply same_keys_eq.
  - apply NoDup_ListNoDup. apply NoDup_ListNoDup in Hnd.
    eapply Permutation_NoDup; [|exact Hnd].
    apply Permutation_map. symmetry. apply sort_Permutation.
  - rewrite !sort_Permutation. exact Hp.
  - apply sort_keys_Permutation, Hp.
Qed.

Lemma NoDup_map_filter (cond : A -> bool) (l : list A) :
  NoDup (map key l) -> NoDup (map key (List.filter cond l)).
Proof.
  rewrite !NoDup_ListNoDup.
  induction l as [|x l IH]; simpl; intros Hnd; [constructor|].
  apply List.NoDup_cons_iff in Hnd as [Hnotin Hnd].
  destruct (cond x); [|auto]. simpl. apply List.NoDup_cons_iff. split; [|auto].
  intros Hin. apply Hnotin. apply in_map_iff in Hin as (b & Hb & Hin).
  apply filter_In in Hin as [Hin _]. rewrite <- Hb. apply in_map, Hin.
Qed.

Lemma map_take (n : nat) (l : list A) : map key (take n l) = take n (map key l).
Proof. symmetry. apply List.firstn_map. Qed.

End SortFacts.


(** ** Finding and removing by key *)

Section FindFacts.
Context {R : Type}.

(** [findIndex] then [splice(index, 1)]: the first match is cut out. *)
Lemma list_find_delete (P : R -> Prop) `{forall x, Decision (P x)} (l : list R)
    (i : nat) (x : R) :
  list_find P l = Some (i, x) ->
  exists before after,
    l = before ++ x :: after /\ P x /\ Forall (fun y => ~ P y) before /\
    length before = i /\ delete i l = before ++ after.
Proof.
  intros Hfind. apply list_find_Some in Hfind as (Hi & HP & Hfirst).
  exists (take i l), (drop (Datatypes.S i) l).
  assert (Hlen : (i < length l)%nat) by (eapply lookup_lt_Some; exact Hi).
  split; [symmetry; apply take_drop_middle; exact Hi|].
  split; [exact HP|]. split.
  - apply Forall_forall. intros y Hy. apply list_elem_of_lookup in Hy as [j Hj].
    pose proof (lookup_lt_Some _ _ _ Hj) as Hjlt. rewrite length_take in Hjlt.
    rewrite lookup_take_lt in Hj by lia. apply (Hfirst j y Hj). lia.
  - split; [rewrite length_take; lia|]. apply delete_take_drop.
Qed.

(** [find] on an array and [WHERE ... LIMIT 1] on the same rows pick the
    same row. *)
Lemma list_find_head_filter (P : R -> Prop) `{forall x, Decision (P x)}
    (cond : R -> bool) (l : list R) :
  (forall x, cond x = true <-> P x) ->
  snd <$> list_find P l = head (List.filter cond l).
Proof.
  intros Hcond. induction l as [|x l IH]; simpl; [reflexivity|].
  destruct (decide (P x)) as [HP|HP].
  - apply Hcond in HP. rewrite HP. reflexivity.
  - destruct (cond x) eqn:Hx; [apply Hcond in Hx; contradiction|].
    rewrite <- IH. destruct (list_find P l) as [[i y]|]; reflexivity.
Qed.

Lemma filter_all_false (cond : R -> bool) (l : list R) :
  Forall (fun r => cond r = false) l -> List.filter cond l = [].
Proof.
  induction 1 as [|r l Hr _ IH]; simpl; [reflexivity|]. rewrite Hr. exact IH.
Qed.

Lemma filter_all_true (cond : R -> bool) (l : list R) :
  Forall (fun r => cond r = true) l -> List.filter cond l = l.
Proof.
  induction 1 as [|r l Hr _ IH]; simpl; [reflexivity|]. rewrite Hr, IH. reflexivity.
Qed.

(** An UPDATE whose condition matches no row leaves the table as it is. *)
Lemma map_if_none (set : R -> R) (cond : R -> bool) (l : list R) :
  Forall (fun r => cond r = false) l ->
  map (fun r => if cond r then set r else r) l = l.
Proof.
  induction 1 as [|r l Hr _ IH]; simpl; [reflexivity|]. rewrite Hr, IH. reflexivity.
Qed.

Lemma Forall_filter_negb (cond : R -> bool) (l : list R) :
  Forall (fun r => cond r = false) (List.filter (fun r => negb (cond r)) l).
Proof.
  apply List.Forall_forall. intros r Hr. apply filter_In in Hr as [_ Hr].
  apply negb_true_iff in Hr. exact Hr.
Qed.

Lemma key_inj_string (key : R -> string) (l : list R) (a b : R) :
  NoDup (map key l) -> In a l -> In b l -> key a = key b -> a = b.
Proof.
  rewrite NoDup_ListNoDup.
  induction l as [|x l IH]; simpl; intros Hnd Ha Hb Heq; [destruct Ha|].
  apply List.NoDup_cons_iff in Hnd as [Hnotin Hnd].
  destruct Ha as [Ha|Ha], Hb as [Hb|Hb].
  - congruence.
  - subst x. destruct Hnotin. rewrite Heq. apply in_map, Hb.
  - subst x. destruct Hnotin. rewrite <- Heq. apply in_map, Ha.
  - apply IH; assumption.
Qed.

End FindFacts.


(** ** What holds in whatever order the server yields the rows *)

Section ScanFacts.
Import Js Drizzle.
Context `{Postgres} {R : Type}.

Lemma filter_Permutation (cond : R -> bool) (l l' : list R) :
  Permutation l l' -> Permutation (List.filter cond l) (List.filter cond l').
Proof.
  induction 1 as [|x l l' _ IH|x y l|l l' l'' _ IH1 _ IH2]; simpl.
  - constructor.
  - destruct (cond x); [constructor|]; exact IH.
  - destruct (cond x), (cond y); try reflexivity. apply perm_swap.
  - etransitivity; eassumption.
Qed.

Lemma scan_In (x : R) (table : list R) : In x (scan table) <-> In x table.
Proof.
  split; apply Permutation_in; [|symmetry]; apply scan_Permutation.
Qed.

Lemma scan_nil : scan (@nil R) = [].
Proof. apply Permutation_nil. symmetry. apply scan_Permutation. Qed.

Lemma scan_singleton (x : R) : scan [x] = [x].
Proof. apply Permutation_length_1_inv. symmetry. apply scan_Permutation. Qed.

Lemma filter_scan (cond : R -> bool) (table : list R) :
  Permutation (List.filter cond (scan table)) (List.filter cond table).
Proof. apply filter_Permutation, scan_Permutation. Qed.

Lemma length_filter_scan (cond : R -> bool) (table : list R) :
  length (List.filter cond (scan table)) = length (List.filter cond table).
Proof. apply Permutation_length, filter_scan. Qed.

Lemma Forall_scan (P : R -> Prop) (table : list R) :
  Forall P (scan table) <-> Forall P table.
Proof.
  rewrite !List.Forall_forall. split; intros Hall x Hx; apply Hall, scan_In, Hx.
Qed.

Lemma filter_scan_none (cond : R -> bool) (table : list R) :
  Forall (fun r => cond r = false) table -> List.filter cond (scan table) = [].
Proof.
  intros Hnone. apply Permutation_nil. symmetry.
  etransitivity; [apply filter_scan|].
  rewrite (filter_all_false _ _ Hnone). reflexivity.
Qed.

(** The first row that a WHERE keeps, in the order of the server. *)
Lemma head_filter_scan (cond : R -> bool) (table : list R) :
  match head (List.filter cond (scan table)) with
  | Some r => In r table /\ cond r = true
  | None => Forall (fun r => cond r = false) table
  end.
Proof.
  destruct (List.filter cond (scan table)) as [|r rest] eqn:Hf; simpl.
  - apply Forall_scan. apply List.Forall_forall. intros r Hr.
    destruct (cond r) eqn:Hc; [|reflexivity].
    assert (Hin : In r (List.filter cond (scan table))) by (apply filter_In; auto).
    rewrite Hf in Hin. destruct Hin.
  - assert (Hin : In r (List.filter cond (scan table))) by (rewrite Hf; left; reflexivity).
    apply filter_In in Hin as [Hin Hc]. split; [apply scan_In, Hin | exact Hc].
Qed.

(** A WHERE that keeps at most the row [x] yields [x] or nothing. *)
Lemma head_filter_scan_unique (cond : R -> bool) (table : list R) (x : R) :
  In x table -> cond x = true ->
  (forall r, In r table -> cond r = true -> r = x) ->
  head (List.filter cond (scan table)) = Some x.
Proof.
  intros Hin Hx Honly.
  pose proof (head_filter_scan cond table) as Hhead.
  destruct (head _) as [r|].
  - destruct Hhead as [Hr Hc]. f_equal. apply Honly; assumption.
  - rewrite List.Forall_forall in Hhead. rewrite (Hhead x Hin) in Hx. discriminate Hx.
Qed.

Lemma rows_where (cond : R -> bool) (table : list R) :
  rows (where_ cond (select_from table)) = Normal (List.filter cond (scan table)).
Proof. reflexivity. Qed.

Lemma rows_where_orderBy (cond : R -> bool) (cmp : R -> R -> Z) (table : list R) :
  rows (orderBy cmp (where_ cond (select_from table))) =
    Normal (sort cmp (List.filter cond (scan table))).
Proof. reflexivity. Qed.

Lemma rows_orderBy (cmp : R -> R -> Z) (table : list R) :
  rows (orderBy cmp (select_from table)) = Normal (sort cmp (scan table)).
Proof. reflexivity. Qed.

(** What an ORDER BY on the creation time settles, whatever order the
    server reads the rows in: the rows, the sequence of their creation
    times, and the list itself when no two rows were created at the same
    time. *)
Lemma sort_filter_scan (key : R -> Z) (cond : R -> bool) (table : list R) :
  Permutation (sort (newest_first key) (List.filter cond (scan table)))
    (sort (newest_first key) (List.filter cond table)) /\
  map key (sort (newest_first key) (List.filter cond (scan table))) =
    map key (sort (newest_first key) (List.filter cond table)) /\
  (NoDup (map key table) ->
   sort (newest_first key) (List.filter cond (scan table)) =
     sort (newest_first key) (List.filter cond table)).
Proof.
  pose proof (filter_scan cond table) as Hp. split; [|split].
  - rewrite !sort_Permutation. exact Hp.
  - apply sort_keys_Permutation, Hp.
  - intros Hnd. apply sort_Permutation_eq; [exact Hp|]. apply NoDup_map_filter, Hnd.
Qed.

Lemma sort_scan (key : R -> Z) (table : list R) :
  Permutation (sort (newest_first key) (scan table)) (sort (newest_first key) table) /\
  map key (sort (newest_first key) (scan table)) =
    map key (sort (newest_first key) table) /\
  (NoDup (map key table) ->
   sort (newest_first key) (scan table) = sort (newest_first key) table).
Proof.
  pose proof (scan_Permutation R table) as Hp. split; [|split].
  - rewrite !sort_Permutation. exact Hp.
  - apply sort_keys_Permutation, Hp.
  - intros Hnd. apply sort_Permutation_eq; [exact Hp | exact Hnd].
Qed.

(** A lookup by a key that no two rows share finds the row that [find]
    finds on the array. *)
Lemma head_filter_scan_find (key : R -> string) (id : string) (table : list R) :
  NoDup (map key table) ->
  head (List.filter (fun r => String.eqb (key r) id) (scan table)) =
    snd <$> list_find (fun r => key r = id) table.
Proof.
  intros Hnd.
  rewrite (list_find_head_filter (fun r => key r = id)
             (fun r => String.eqb (key r) id) table)
    by (intros r; apply String.eqb_eq).
  destruct (List.filter (fun r => String.eqb (key r) id) table) as [|x rest] eqn:Hf.
  - rewrite filter_scan_none; [reflexivity|].
    apply List.Forall_forall. intros r Hr.
    destruct (String.eqb (key r) id) eqn:Hid; [|reflexivity].
    assert (Hin : In r (List.filter (fun r => String.eqb (key r) id) table))
      by (apply filter_In; auto).
    rewrite Hf in Hin. destruct Hin.
  - assert (Hx : In x table /\ String.eqb (key x) id = true).
    { apply (filter_In (fun r => String.eqb (key r) id)). rewrite Hf. left. reflexivity. }
    destruct Hx as [Hin Hid]. simpl.
    apply head_filter_scan_unique; [exact Hin | exact Hid|].
    intros r Hr Hrid. apply String.eqb_eq in Hid, Hrid.
    apply (key_inj_string key table); [exact Hnd | exact Hr | exact Hin | congruence].
Qed.

(** A lookup by key in the order of the server: a row with the key, when
    the array has one. *)
Lemma head_filter_scan_some (key : R -> string) (id : string) (table : list R) :
  (head (List.filter (fun r => String.eqb (key r) id) (scan table)) = None <->
   list_find (fun r => key r = id) table = None) /\
  forall r, head (List.filter (fun r => String.eqb (key r) id) (scan table)) = Some r ->
            In r table /\ key r = id.
Proof.
  pose proof (head_filter_scan (fun r => String.eqb (key r) id) table) as Hhead.
  destruct (head (List.filter (fun r => String.eqb (key r) id) (scan table)))
    as [x|] eqn:Hx.
  - destruct Hhead as [Hin Hid]. apply String.eqb_eq in Hid. split.
    + split; [discriminate|]. intros Hnone.
      apply (list_find_None (fun r => key r = id)) in Hnone.
      rewrite Forall_forall in Hnone. destruct (Hnone x); [|exact Hid].
      apply list_elem_of_In, Hin.
    + intros r [= <-]. auto.
  - split; [|discriminate]. split; [|reflexivity]. intros _.
    apply (list_find_None (fun r => key r = id)). apply Forall_forall.
    intros r Hr. rewrite List.Forall_forall in Hhead.
    apply String.eqb_neq, Hhead, list_elem_of_In, Hr.
Qed.

End ScanFacts.


(** ** Reading the queue *)

Section QueueReads.
Import Js Drizzle Storage Api.
Context `{Postgres}.

Lemma memory_getQueuedNotifications_status (s : string) (this : MemoryStorage.t) :
  truthy_str s = true ->
  MemoryStorage.getQueuedNotifications (Some s) this =
    (sort (newest_first Q.createdAt)
       (List.filter (fun n => String.eqb (Q.status n) s)
          (MemoryStorage.notificationQueue this)),
     this).
Proof.
  intros Hs. unfold MemoryStorage.getQueuedNotifications. rewrite Hs. reflexivity.
Qed.

Lemma database_getQueuedNotifications_status (s : string) (this : DatabaseStorage.t) :
  truthy_str s = true ->
  DatabaseStorage.getQueuedNotifications (Some s) this =
    (Normal (sort (newest_first Q.createdAt)
               (List.filter (fun n => String.eqb (Q.status n) s)
                  (scan (database_queue this)))),
     this).
Proof.
  intros Hs. unfold DatabaseStorage.getQueuedNotifications, database_queue.
  destruct (DatabaseStorage.db this) as [d|]; [|rewrite scan_nil; reflexivity].
  rewrite Hs. reflexivity.
Qed.

(** Calls that leave the storage as it was all return the same batch. *)
Lemma dequeue_calls_fixed {S : Type} `{IStorage S} (storage : S)
    (batch : Completion Error (list Q.t)) (n : nat) :
  getQueuedNotifications (Some "pending") storage = (batch, storage) ->
  dequeue_calls n storage = (replicate n batch, storage).
Proof.
  intros Hcall. induction n as [|n IH]; simpl.
  - reflexivity.
  - rewrite Hcall, IH. reflexivity.
Qed.

(** C1 (amended): [getQueuedNotifications] claims nothing.  However many
    workers call it for the pending items, in whatever order the calls
    take effect, every call returns the same batch, which holds every
    pending item of the queue (none is lost) and nothing else, and the
    storage is left exactly as it was: no item moves to processing. *)
Theorem dequeue_calls_read_only (n : nat) (m : MemoryStorage.t) (d : DatabaseStorage.t) :
  (exists batch,
      dequeue_calls n m = (replicate n (Normal batch), m) /\
      Permutation batch
        (List.filter (fun it => String.eqb (Q.status it) "pending") (memory_queue m))) /\
  (exists batch,
      dequeue_calls n d = (replicate n (Normal batch), d) /\
      Permutation batch
        (List.filter (fun it => String.eqb (Q.status it) "pending") (database_queue d))).
Proof.
  split; eexists.
  - split; [apply dequeue_calls_fixed | apply sort_Permutation].
    simpl. unfold resolved.
    rewrite memory_getQueuedNotifications_status by reflexivity. reflexivity.
  - split; [apply dequeue_calls_fixed|].
    + simpl. apply database_getQueuedNotifications_status. reflexivity.
    + rewrite sort_Permutation. apply filter_scan.
Qed.

End QueueReads.

Section QueueReadsExample.
Import Js Drizzle Storage Api.
#[local] Existing Instance insertion_order.

(** C1, refuted as stated: with one pending item in the queue, two
    workers both receive it, against either backend, so the batches are
    not disjoint; and the item is still pending afterwards. *)
Lemma dequeue_calls_return_item_twice :
  ~ NoDup (map Q.id (concat (map returned (fst (dequeue_calls 2 Sample.memory_one_pending))))) /\
  ~ NoDup (map Q.id (concat (map returned (fst (dequeue_calls 2 Sample.database_one_pending))))) /\
  map Q.status (memory_queue (snd (dequeue_calls 2 Sample.memory_one_pending))) = ["pending"] /\
  map Q.status (database_queue (snd (dequeue_calls 2 Sample.database_one_pending))) = ["pending"].
Proof.
  repeat split_and; try (vm_compute; reflexivity);
    vm_compute; intros Hnd; apply NoDup_cons_1_1 in Hnd;
    apply Hnd; apply list_elem_of_here.
Qed.

End QueueReadsExample.

Section QueueListings.
Import Js Drizzle Storage Api.
Context `{Postgres}.

Lemma slice0_take {A : Type} (n : Z) (l : list A) :
  0 <= n -> slice0 n l = take (Z.to_nat n) l.
Proof.
  intros Hn. unfold slice0. destruct (n <? 0) eqn:Hneg; [|reflexivity].
  apply Z.ltb_lt in Hneg. lia.
Qed.

Lemma memory_getNotificationQueue_capped (limit : Z) (m : MemoryStorage.t) :
  0 < limit ->
  MemoryStorage.getNotificationQueue (Some limit) m =
    (take (Z.to_nat limit) (sort (newest_first Q.createdAt) (memory_queue m)), m).
Proof.
  intros Hpos. unfold MemoryStorage.getNotificationQueue, MemoryStorage.limited.
  destruct (limit =? 0) eqn:Hz; [apply Z.eqb_eq in Hz; lia|].
  rewrite slice0_take by lia. reflexivity.
Qed.

Lemma database_getNotificationQueue_capped (limit : Z) (d : DatabaseStorage.Database) :
  0 <= limit ->
  DatabaseStorage.getNotificationQueue (Some limit) {| DatabaseStorage.db := Some d |} =
    (Normal (take (Z.to_nat limit)
               (sort (newest_first Q.createdAt)
                  (scan (DatabaseStorage.notificationQueue d)))),
     {| DatabaseStorage.db := Some d |}).
Proof.
  intros Hpos. unfold DatabaseStorage.getNotificationQueue, rows. simpl.
  destruct (limit <? 0) eqn:Hneg; [apply Z.ltb_lt in Hneg; lia|]. reflexivity.
Qed.


End QueueListings.

Section QueueListingsExamples.
Import Js Drizzle Storage Api.
#[local] Existing Instance insertion_order.



End QueueListingsExamples.

(** ** Updating the status of a queue item *)

Section StatusUpdates.
Import Js Drizzle Storage Api.
Context `{Postgres}.

Lemma memory_update_status_found (id status : string)
    (metadata : option (list (string * JsVal))) (now : Z) (m : MemoryStorage.t)
    (i : nat) (old : Q.t) :
  list_find (fun n => Q.id n = id) (MemoryStorage.notificationQueue m) = Some (i, old) ->
  exists new,
    MemoryStorage.updateNotificationQueueStatus id status metadata now m =
      (Some new, MemoryStorage.with_queue (<[i := new]> (memory_queue m)) m) /\
    same_except_status old new /\ Q.status new = status /\ Q.updatedAt new = now.
Proof.
  intros Hfind. unfold MemoryStorage.updateNotificationQueueStatus. rewrite Hfind.
  eexists. split; [reflexivity|].
  unfold same_except_status. simpl. repeat split_and; reflexivity.
Qed.

Lemma memory_update_status_missing (id status : string)
    (metadata : option (list (string * JsVal))) (now : Z) (m : MemoryStorage.t) :
  list_find (fun n => Q.id n = id) (MemoryStorage.notificationQueue m) = None ->
  MemoryStorage.updateNotificationQueueStatus id status metadata now m = (None, m).
Proof.
  intros Hfind. unfold MemoryStorage.updateNotificationQueueStatus. rewrite Hfind.
  reflexivity.
Qed.

Lemma set_status_frame (status : string) (metadata : option (list (string * JsVal)))
    (now : Z) (old : Q.t) :
  same_except_status old (DatabaseStorage.set_status status metadata now old) /\
  Q.status (DatabaseStorage.set_status status metadata now old) = status /\
  Q.updatedAt (DatabaseStorage.set_status status metadata now old) = now.
Proof.
  unfold same_except_status. simpl. repeat split_and; reflexivity.
Qed.

Lemma eqb_id (it : Q.t) (id : string) :
  String.eqb (Q.id it) id = true <-> Q.id it = id.
Proof. apply String.eqb_eq. Qed.

(** The first written row of an UPDATE, or none when no row matches. *)
Lemma head_update_returning {R : Type} (set : R -> R) (cond : R -> bool)
    (table : list R) :
  match head (snd (update_returning set cond table)) with
  | Some new => exists old, In old table /\ cond old = true /\ new = set old
  | None => Forall (fun r => cond r = false) table
  end.
Proof.
  unfold update_returning. cbn [snd].
  pose proof (head_filter_scan cond table) as Hhead.
  destruct (List.filter cond (scan table)) as [|old rest]; simpl in *.
  - exact Hhead.
  - exists old. destruct Hhead. auto.
Qed.

Lemma database_update_status_run (id status : string)
    (metadata : option (list (string * JsVal))) (now : Z)
    (d : DatabaseStorage.Database) :
  DatabaseStorage.updateNotificationQueueStatus id status metadata now
    {| DatabaseStorage.db := Some d |} =
  (Normal (head (snd (update_returning (DatabaseStorage.set_status status metadata now)
                        (fun n => String.eqb (Q.id n) id)
                        (DatabaseStorage.notificationQueue d)))),
   DatabaseStorage.with_queue
     (fst (update_returning (DatabaseStorage.set_status status metadata now)
             (fun n => String.eqb (Q.id n) id)
             (DatabaseStorage.notificationQueue d))) d).
Proof. reflexivity. Qed.

(** C9: [updateNotificationQueueStatus(id, status, metadata)] writes only
    [status], [metadata] and [updatedAt].  In [MemoryStorage] the first
    item with the given id is replaced, in place, by an item that agrees
    with it on every other field, and nothing else in the object changes;
    when no item has the id, the result is [undefined] and the object is
    unchanged.  In [DatabaseStorage] every row keeps its place, a row with
    another id is untouched, a row with the id agrees with its old value on
    every other field, and the result is [undefined] exactly when no row
    has the id (or when there is no database, where nothing changes). *)
Theorem updateNotificationQueueStatus_frame (id status : string)
    (metadata : option (list (string * JsVal))) (now : Z)
    (m : MemoryStorage.t) (d : DatabaseStorage.Database) :
  match MemoryStorage.updateNotificationQueueStatus id status metadata now m with
  | (Some new, m') =>
      exists i old,
        memory_queue m !! i = Some old /\ Q.id old = id /\
        same_except_status old new /\ Q.status new = status /\ Q.updatedAt new = now /\
        m' = MemoryStorage.with_queue (<[i := new]> (memory_queue m)) m
  | (None, m') => m' = m /\ Forall (fun it => Q.id it <> id) (memory_queue m)
  end /\
  (exists returned table',
      DatabaseStorage.updateNotificationQueueStatus id status metadata now
        {| DatabaseStorage.db := Some d |} =
        (Normal returned, DatabaseStorage.with_queue table' d) /\
      length table' = length (DatabaseStorage.notificationQueue d) /\
      (forall j old,
          DatabaseStorage.notificationQueue d !! j = Some old ->
          exists new,
            table' !! j = Some new /\
            (Q.id old = id ->
             same_except_status old new /\ Q.status new = status /\ Q.updatedAt new = now) /\
            (Q.id old <> id -> new = old)) /\
      match returned with
      | Some new =>
          exists old,
            In old (DatabaseStorage.notificationQueue d) /\ Q.id old = id /\
            same_except_status old new /\ Q.status new = status /\ Q.updatedAt new = now
      | None => Forall (fun it => Q.id it <> id) (DatabaseStorage.notificationQueue d)
      end) /\
  DatabaseStorage.updateNotificationQueueStatus id status metadata now
    {| DatabaseStorage.db := None |} = (Normal None, {| DatabaseStorage.db := None |}).
Proof.
  repeat split_and.
  - destruct (list_find (fun n => Q.id n = id) (MemoryStorage.notificationQueue m))
      as [[i old]|] eqn:Hfind.
    + destruct (memory_update_status_found id status metadata now m i old Hfind)
        as (new & Hrun & Hframe & Hstatus & Hnow).
      rewrite Hrun. apply list_find_Some in Hfind as (Hi & Hid & _).
      exists i, old. repeat split_and; auto.
    + rewrite (memory_update_status_missing id status metadata now m Hfind).
      split; [reflexivity|]. apply list_find_None in Hfind. exact Hfind.
  - eexists _, _. split; [apply database_update_status_run|].
    split; [unfold update_returning; simpl; apply length_map|].
    split.
    + intros j old Hj. unfold update_returning. simpl.
      rewrite list_lookup_fmap, Hj. simpl. eexists. split; [reflexivity|].
      destruct (String.eqb (Q.id old) id) eqn:Hid.
      * split; [intros _; apply set_status_frame|].
        intros Hne. apply eqb_id in Hid. contradiction.
      * split; [|reflexivity].
        intros Heq. apply eqb_id in Heq. congruence.
    + pose proof (head_update_returning (DatabaseStorage.set_status status metadata now)
                    (fun n => String.eqb (Q.id n) id)
                    (DatabaseStorage.notificationQueue d)) as Hhead.
      destruct (head _) as [new|].
      * destruct Hhead as (old & Hin & Hid & ->). exists old.
        split; [exact Hin|]. split; [apply eqb_id, Hid|]. apply set_status_frame.
      * eapply Forall_impl; [exact Hhead|]. simpl. intros it Hit Heq.
        apply eqb_id in Heq. congruence.
  - reflexivity.
Qed.

End StatusUpdates.

Section TerminalItems.
Import Js Drizzle Storage Api.
Context `{Postgres}.

(** C4 (amended): the storage layer has no cancel operation and no state
    check.  For an item of the queue in any status, terminal or not,
    [updateNotificationQueueStatus] with the id of the item resolves, in
    both backends, with an updated item whose status is the requested
    one; it never rejects. *)
Theorem updateNotificationQueueStatus_any_state (item : Q.t) (status : string)
    (metadata : option (list (string * JsVal))) (now : Z)
    (m : MemoryStorage.t) (d : DatabaseStorage.Database) :
  (In item (memory_queue m) ->
   exists new m',
     updateNotificationQueueStatus (Q.id item) status metadata now m =
       (Normal (Some new), m') /\
     Q.id new = Q.id item /\ Q.status new = status) /\
  (In item (DatabaseStorage.notificationQueue d) ->
   exists new d',
     updateNotificationQueueStatus (Q.id item) status metadata now
       {| DatabaseStorage.db := Some d |} = (Normal (Some new), d') /\
     Q.id new = Q.id item /\ Q.status new = status).
Proof.
  split; intros Hin.
  - apply list_elem_of_In in Hin.
    destruct (list_find_elem_of (fun n => Q.id n = Q.id item)
                (MemoryStorage.notificationQueue m) item Hin eq_refl)
      as [[i old] Hfind].
    destruct (memory_update_status_found (Q.id item) status metadata now m i old Hfind)
      as (new & Hrun & Hframe & Hstatus & _).
    exists new. eexists. simpl. unfold resolved. rewrite Hrun. simpl.
    split; [reflexivity|]. split; [|exact Hstatus].
    apply list_find_Some in Hfind as (_ & Hid & _).
    destruct Hframe as [Hsame _]. congruence.
  - simpl. rewrite database_update_status_run.
    pose proof (head_update_returning (DatabaseStorage.set_status status metadata now)
                  (fun n => String.eqb (Q.id n) (Q.id item))
                  (DatabaseStorage.notificationQueue d)) as Hhead.
    destruct (head _) as [new|].
    + destruct Hhead as (old & _ & Hid & ->).
      eexists _, _. split; [reflexivity|].
      split; [apply eqb_id, Hid | reflexivity].
    + rewrite Forall_forall in Hhead. apply list_elem_of_In in Hin.
      specialize (Hhead item Hin).
      simpl in Hhead. rewrite String.eqb_refl in Hhead. discriminate Hhead.
Qed.

End TerminalItems.

Section TerminalItemsExamples.
Import Js Drizzle Storage Api.
#[local] Existing Instance insertion_order.

(** C4, refuted as stated: the third item of the sample queue is already
    sent; a further status update on it is accepted and puts it back to
    pending. *)
Lemma updateNotificationQueueStatus_reopens_sent_item :
  exists old new m',
    In old (memory_queue Sample.memory_three_items) /\
    Q.id old = "queue-2500-c" /\ Q.status old = "sent" /\
    updateNotificationQueueStatus "queue-2500-c" "pending" None 4000
      Sample.memory_three_items = (Normal (Some new), m') /\
    Q.status new = "pending" /\
    In new (memory_queue m') /\ ~ In old (memory_queue m').
Proof.
  vm_compute. eexists _, _, _.
  split; [right; right; left; reflexivity|].
  repeat (split; [reflexivity|]).
  split; [right; right; left; reflexivity|].
  intros [H|[H|[H|[]]]]; discriminate H.
Qed.

Lemma updateNotificationQueueStatus_any_state_witness :
  exists new m',
    updateNotificationQueueStatus "queue-1000-abc" "cancelled" None 2000
      Sample.memory_one_pending = (Normal (Some new), m') /\
    Q.status new = "cancelled".
Proof.
  destruct (updateNotificationQueueStatus_any_state
              {| Q.id := "queue-1000-abc";
                 Q.userId := Some "123e4567-e89b-42d3-a456-426614174000";
                 Q.channel := "email"; Q.recipient := "trader@example.com";
                 Q.subject := "BTC signal"; Q.message := "Buy signal for BTCUSDT";
                 Q.priority := JNum 5; Q.status := "pending"; Q.scheduledFor := 1000;
                 Q.retryCount := 0; Q.maxRetries := Some 3; Q.lastError := None;
                 Q.metadata := None; Q.createdAt := 1000; Q.updatedAt := 1000;
                 Q.extra := [] |}
              "cancelled" None 2000 Sample.memory_one_pending Sample.database)
    as [Hmem _].
  destruct (Hmem ltac:(left; reflexivity)) as (new & m' & Hrun & _ & Hstatus).
  exists new, m'. split; [exact Hrun | exact Hstatus].
Defined.

End TerminalItemsExamples.

(** ** The notification log *)

Section LogRows.
Import Js Drizzle Storage Api.
Context `{Postgres}.

Lemma apply_log_updates_fields (old : L.t) (updates : PartialNotificationLog.t) :
  log_fields_overwritten old updates (apply_log_updates old updates) /\
  L.updatedAt (apply_log_updates old updates) =
    default (L.updatedAt old) (PartialNotificationLog.updatedAt updates).
Proof. unfold log_fields_overwritten. repeat split_and; reflexivity. Qed.

Lemma set_log_fields (old : L.t) (updates : PartialNotificationLog.t) (now : Z) :
  log_fields_overwritten old updates (DatabaseStorage.set_log updates now old) /\
  L.updatedAt (DatabaseStorage.set_log updates now old) = Some now.
Proof. unfold log_fields_overwritten. repeat split_and; reflexivity. Qed.

(** [MemoryStorage.updateNotificationLog] replaces the first row with the
    id and no other. *)
Lemma memory_updateNotificationLog_rows (id : string)
    (updates : PartialNotificationLog.t) (m : MemoryStorage.t) :
  length (memory_logs (snd (MemoryStorage.updateNotificationLog id updates m))) =
    length (memory_logs m) /\
  (forall j row,
      memory_logs m !! j = Some row -> L.id row <> id ->
      memory_logs (snd (MemoryStorage.updateNotificationLog id updates m)) !! j = Some row) /\
  (forall i old,
      memory_logs m !! i = Some old -> L.id old = id ->
      (forall j row, (j < i)%nat -> memory_logs m !! j = Some row -> L.id row <> id) ->
      exists new,
        memory_logs (snd (MemoryStorage.updateNotificationLog id updates m)) !! i =
          Some new /\
        log_fields_overwritten old updates new /\
        L.updatedAt new =
          default (L.updatedAt old) (PartialNotificationLog.updatedAt updates)) /\
  (forall i j old row,
      (i < j)%nat -> memory_logs m !! i = Some old -> L.id old = id ->
      memory_logs m !! j = Some row ->
      memory_logs (snd (MemoryStorage.updateNotificationLog id updates m)) !! j = Some row).
Proof.
  unfold MemoryStorage.updateNotificationLog, memory_logs.
  destruct (list_find (fun l => L.id l = id) (MemoryStorage.notificationLogs m))
    as [[k first]|] eqn:Hfind; simpl.
  - apply list_find_Some in Hfind as (Hk & Hid & Hfirst).
    split; [apply length_insert|]. split; [|split].
    + intros j row Hj Hne.
      rewrite list_lookup_insert_ne; [exact Hj|].
      intros ->. rewrite Hk in Hj. injection Hj as <-. contradiction.
    + intros i old Hi Hold Hbefore.
      assert (i = k) as ->.
      { destruct (Nat.lt_total i k) as [Hlt|[Heq|Hgt]]; [|exact Heq|].
        - destruct (Hfirst i old Hi Hlt Hold).
        - destruct (Hbefore k first Hgt Hk Hid). }
      rewrite Hk in Hi. injection Hi as <-.
      exists (apply_log_updates first updates).
      split; [apply list_lookup_insert_eq; eapply lookup_lt_Some; exact Hk|].
      apply apply_log_updates_fields.
    + intros i j old row Hij Hi Hold Hj.
      rewrite list_lookup_insert_ne; [exact Hj|].
      intros Heq. subst j. assert (Hik : (k <= i)%nat).
      { destruct (Nat.le_gt_cases k i) as [Hle|Hlt]; [exact Hle|].
        destruct (Hfirst i old Hi Hlt Hold). }
      lia.
  - apply list_find_None in Hfind. rewrite Forall_forall in Hfind.
    split; [reflexivity|]. split; [intros; assumption|]. split.
    + intros i old Hi Hold _. exfalso.
      apply (Hfind old); [eapply list_elem_of_lookup_2; exact Hi | exact Hold].
    + intros i j old row _ _ _ Hj. exact Hj.
Qed.

(** [DatabaseStorage.updateNotificationLog] rewrites every row with the
    id and no other. *)
Lemma database_updateNotificationLog_rows (id : string)
    (updates : PartialNotificationLog.t) (now : Z) (d : DatabaseStorage.t) :
  length (database_logs (snd (DatabaseStorage.updateNotificationLog id updates now d))) =
    length (database_logs d) /\
  (forall j row,
      database_logs d !! j = Some row -> L.id row <> id ->
      database_logs (snd (DatabaseStorage.updateNotificationLog id updates now d)) !! j =
        Some row) /\
  (forall j old,
      database_logs d !! j = Some old -> L.id old = id ->
      exists new,
        database_logs (snd (DatabaseStorage.updateNotificationLog id updates now d)) !! j =
          Some new /\
        log_fields_overwritten old updates new /\
        L.updatedAt new = Some now).
Proof.
  unfold DatabaseStorage.updateNotificationLog, database_logs, update_returning.
  destruct d as [[db|]]; simpl.
  - split; [apply length_map|]. split.
    + intros j row Hj Hne. rewrite list_lookup_fmap, Hj. simpl.
      destruct (String.eqb (L.id row) id) eqn:Hid; [|reflexivity].
      apply String.eqb_eq in Hid. contradiction.
    + intros j old Hj Hid. rewrite list_lookup_fmap, Hj. simpl.
      apply String.eqb_eq in Hid. rewrite Hid.
      eexists. split; [reflexivity|]. apply set_log_fields.
  - split; [reflexivity|]. split; [intros; assumption|].
    intros j old Hj. discriminate Hj.
Qed.

(** C5 (amended): the log only grows, but it is not append-only.  Of the
    notification methods of the storage layer, [createNotificationLog]
    appends exactly one row and leaves the rows before it as they were
    (one row per call, so one per logged attempt); no method removes a
    row; every method other than [updateNotificationLog] leaves the
    existing rows unchanged.  [updateNotificationLog(id, updates)] keeps
    the number of rows and every row whose id is not [id]; in
    [MemoryStorage] it replaces the first row whose id is [id] by a row
    that holds, field by field, the value of [updates] where [updates]
    names the field and the old value elsewhere, and keeps a later row
    of the same id; in [DatabaseStorage] it rewrites every row whose id
    is [id] in that way and also sets its [updatedAt] to the time of the
    call. *)
Theorem log_rows_kept_except_by_update (c : Call) (m : MemoryStorage.t)
    (d : DatabaseStorage.t) :
  match c with
  | CreateNotificationLog log now rnd =>
      (exists row,
          memory_logs (memory_step c m) = memory_logs m ++ [row] /\
          L.status row = InsertNotificationLog.status log /\ L.createdAt row = now) /\
      match DatabaseStorage.db d with
      | Some _ =>
          exists row,
            database_logs (database_step c d) = database_logs d ++ [row] /\
            L.status row = InsertNotificationLog.status log /\ L.createdAt row = now
      | None => database_logs (database_step c d) = database_logs d
      end
  | UpdateNotificationLog id updates now =>
      (length (memory_logs (memory_step c m)) = length (memory_logs m) /\
       (forall j row,
           memory_logs m !! j = Some row -> L.id row <> id ->
           memory_logs (memory_step c m) !! j = Some row) /\
       (forall i old,
           memory_logs m !! i = Some old -> L.id old = id ->
           (forall j row, (j < i)%nat -> memory_logs m !! j = Some row -> L.id row <> id) ->
           exists new,
             memory_logs (memory_step c m) !! i = Some new /\
             log_fields_overwritten old updates new /\
             L.updatedAt new =
               default (L.updatedAt old) (PartialNotificationLog.updatedAt updates)) /\
       (forall i j old row,
           (i < j)%nat -> memory_logs m !! i = Some old -> L.id old = id ->
           memory_logs m !! j = Some row ->
           memory_logs (memory_step c m) !! j = Some row)) /\
      (length (database_logs (database_step c d)) = length (database_logs d) /\
       (forall j row,
           database_logs d !! j = Some row -> L.id row <> id ->
           database_logs (database_step c d) !! j = Some row) /\
       (forall j old,
           database_logs d !! j = Some old -> L.id old = id ->
           exists new,
             database_logs (database_step c d) !! j = Some new /\
             log_fields_overwritten old updates new /\
             L.updatedAt new = Some now))
  | _ =>
      memory_logs (memory_step c m) = memory_logs m /\
      database_logs (database_step c d) = database_logs d
  end.
Proof.
  destruct c; simpl;
    try (split;
         [ reflexivity
         | destruct d as [[db|]]; unfold database_logs; simpl; reflexivity ]).
  - split; [reflexivity|].
    unfold DatabaseStorage.addToNotificationQueue, database_logs.
    destruct d as [[db|]]; simpl; [|reflexivity].
    destruct (DatabaseStorage.insert_queue_error _ _); reflexivity.
  - split.
    + unfold MemoryStorage.updateNotificationQueueStatus, memory_logs.
      destruct (list_find _ _) as [[i old]|]; reflexivity.
    + unfold DatabaseStorage.updateNotificationQueueStatus, update_returning,
        database_logs.
      destruct d as [[db|]]; reflexivity.
  - split.
    + unfold MemoryStorage.deleteFromNotificationQueue, memory_logs.
      destruct (list_find _ _) as [[i old]|]; reflexivity.
    + unfold DatabaseStorage.deleteFromNotificationQueue, delete_where, database_logs.
      destruct d as [[db|]]; reflexivity.
  - split; [eexists; split; [reflexivity|]; split; reflexivity|].
    unfold DatabaseStorage.createNotificationLog, database_logs.
    destruct d as [[db|]]; simpl; [|reflexivity].
    eexists. split; [reflexivity|]. split; reflexivity.
  - split.
    + apply memory_updateNotificationLog_rows.
    + apply database_updateNotificationLog_rows.
  - split.
    + unfold MemoryStorage.updateNotificationChannel, memory_logs.
      destruct (list_find _ _) as [[i old]|]; reflexivity.
    + unfold DatabaseStorage.updateNotificationChannel, update_returning, database_logs.
      destruct d as [[db|]]; reflexivity.
Qed.

End LogRows.

Section LogRowsExamples.
Import Js Drizzle Storage Api.
#[local] Existing Instance insertion_order.

(** The row of the sample log, created as sent on email, after an update
    that names the status only: the status is the new one, the channel
    and the recipient are the old ones. *)
Lemma log_rows_kept_except_by_update_witness :
  exists new,
    memory_logs (memory_step (UpdateNotificationLog "log-1000-abc" Sample.mark_failed 3000)
                   (Sample.memory_one_log "email")) !! 0%nat = Some new /\
    L.status new = "failed" /\ L.channel new = "email" /\
    L.recipient new = "trader@example.com".
Proof.
  destruct (log_rows_kept_except_by_update
              (UpdateNotificationLog "log-1000-abc" Sample.mark_failed 3000)
              (Sample.memory_one_log "email") (Sample.database_one_log "email"))
    as [(_ & _ & Hwritten & _) _].
  destruct (Hwritten 0%nat
              (MemoryStorage.createNotificationLog (Sample.log "email" "sent")
                 1000 "abc" (MemoryStorage.constructor 0)).1
              eq_refl eq_refl ltac:(intros j row Hj; lia))
    as (new & Hnew & Hfields & _).
  exists new. split; [exact Hnew|].
  destruct Hfields as (_ & _ & _ & Hchannel & Hrecipient & Hstatus & _).
  rewrite Hstatus, Hchannel, Hrecipient. repeat split; reflexivity.
Defined.

(** C5, refuted as stated: a log row created as sent is rewritten to
    failed by [updateNotificationLog], in either backend. *)
Lemma updateNotificationLog_rewrites_row :
  (exists row row',
      memory_logs (Sample.memory_one_log "email") = [row] /\
      L.status row = "sent" /\
      memory_logs (memory_step (UpdateNotificationLog "log-1000-abc" Sample.mark_failed 2000)
                     (Sample.memory_one_log "email")) = [row'] /\
      L.id row' = L.id row /\ L.status row' = "failed") /\
  (exists row row',
      database_logs (Sample.database_one_log "email") = [row] /\
      L.status row = "sent" /\
      database_logs (database_step (UpdateNotificationLog "abc" Sample.mark_failed 2000)
                       (Sample.database_one_log "email")) = [row'] /\
      L.id row' = L.id row /\ L.status row' = "failed").
Proof.
  split; eexists _, _; vm_compute; repeat split_and; reflexivity.
Qed.

End LogRowsExamples.

(** ** Resolving a channel by type *)

Section ChannelByType.
Import Js Drizzle Storage Api.
Context `{Postgres}.

Lemma head_filter_spec {R : Type} (cond : R -> bool) (table : list R) :
  match head (List.filter cond table) with
  | Some r => In r table /\ cond r = true
  | None => Forall (fun r => cond r = false) table
  end.
Proof.
  induction table as [|r table IH]; simpl.
  - constructor.
  - destruct (cond r) eqn:Hr; simpl.
    + auto.
    + destruct (head (List.filter cond table)) as [r'|].
      * destruct IH. auto.
      * constructor; assumption.
Qed.

(** The first row that a WHERE keeps comes before every other row that
    it keeps. *)
Lemma head_filter_first {R : Type} (cond : R -> bool) (l : list R) (r : R) :
  head (List.filter cond l) = Some r ->
  exists i, l !! i = Some r /\
            forall j r', l !! j = Some r' -> (j < i)%nat -> cond r' = false.
Proof.
  intros Hhead.
  rewrite <- (list_find_head_filter (fun x => cond x = true) cond l) in Hhead
    by (intros x; reflexivity).
  destruct (list_find (fun x => cond x = true) l) as [[i x]|] eqn:Hfind;
    [|discriminate Hhead].
  injection Hhead as ->. apply list_find_Some in Hfind as (Hi & _ & Hfirst).
  exists i. split; [exact Hi|]. intros j r' Hj Hlt.
  specialize (Hfirst j r' Hj Hlt). destruct (cond r'); [contradiction | reflexivity].
Qed.

Lemma head_filter_map {R : Type} (cond : R -> bool) (f : R -> R) (l : list R) :
  (forall r, cond (f r) = cond r) ->
  head (List.filter cond (map f l)) = f <$> head (List.filter cond l).
Proof.
  intros Hcond. induction l as [|r l IH]; simpl; [reflexivity|].
  rewrite Hcond. destruct (cond r); [reflexivity | exact IH].
Qed.


End ChannelByType.

Section ChannelByTypeExamples.
Import Js Drizzle Storage Api.
#[local] Existing Instance insertion_order.


End ChannelByTypeExamples.

(** ** Delivery statistics *)

Section Stats.
Import Js Drizzle Storage Api.
Context `{Postgres}.

Lemma obj_get_set_same (k : string) (v : JsVal) (o : list (string * JsVal)) :
  obj_get k (obj_set k v o) = v.
Proof.
  induction o as [|[k' v'] o IH]; simpl.
  - rewrite String.eqb_refl. reflexivity.
  - destruct (String.eqb k k') eqn:Hk; simpl.
    + rewrite String.eqb_refl. reflexivity.
    + rewrite Hk. exact IH.
Qed.

Lemma obj_get_set_other (k k' : string) (v : JsVal) (o : list (string * JsVal)) :
  k <> k' -> obj_get k (obj_set k' v o) = obj_get k o.
Proof.
  intros Hne. apply String.eqb_neq in Hne.
  induction o as [|[k'' v''] o IH]; simpl.
  - rewrite Hne. reflexivity.
  - destruct (String.eqb k' k'') eqn:Hk; simpl.
    + apply String.eqb_eq in Hk. subst k''. rewrite Hne. reflexivity.
    + destruct (String.eqb k k''); [reflexivity | exact IH].
Qed.

Lemma obj_get_absent (k : string) (o : list (string * JsVal)) :
  has_own k o = false -> obj_get k o = JUndefined.
Proof.
  induction o as [|[k' v] o IH]; simpl; [reflexivity|].
  destruct (String.eqb k k'); simpl; [discriminate | exact IH].
Qed.

(** A name that is not inherited is read from the own properties. *)
Lemma get_own (k : string) (o : list (string * JsVal)) :
  inherited k = false -> get k o = obj_get k o.
Proof.
  unfold inherited, get. intros Hk. apply orb_false_iff in Hk as [Hproto Hown].
  destruct (has_own k o) eqn:Ho; [reflexivity|].
  rewrite Hproto, (obj_get_absent k o Ho). apply obj_get_absent, Hown.
Qed.

Lemma obj_get_assign_other (k k' : string) (v : JsVal) (o : list (string * JsVal)) :
  k <> k' -> obj_get k (assign k' v o) = obj_get k o.
Proof.
  intros Hne. unfold assign.
  destruct (negb (has_own k' o) && String.eqb k' "__proto__"); [reflexivity|].
  apply obj_get_set_other, Hne.
Qed.

Lemma obj_get_assign_same (k : string) (v : JsVal) (o : list (string * JsVal)) :
  inherited k = false -> obj_get k (assign k v o) = v.
Proof.
  unfold inherited, assign. intros Hk. apply orb_false_iff in Hk as [Hproto _].
  rewrite Hproto, andb_false_r. apply obj_get_set_same.
Qed.

(** How [byChannel] shows the count of a channel whose name is not
    inherited: an absent key for zero. *)
Lemma count_channel_fold (logs : list L.t) (byChannel : list (string * JsVal))
    (seen : string -> Z) :
  (forall k, 0 <= seen k) ->
  (forall k, inherited k = false ->
             obj_get k byChannel = if seen k =? 0 then JUndefined else JNum (seen k)) ->
  forall k,
    inherited k = false ->
    obj_get k (fold_left MemoryStorage.count_channel logs byChannel) =
      let n := seen k +
               Z.of_nat (length (List.filter (fun l => String.eqb (L.channel l) k) logs)) in
      if n =? 0 then JUndefined else JNum n.
Proof.
  revert byChannel seen.
  induction logs as [|log logs IH]; intros byChannel seen Hpos Hinv k Hk; simpl.
  - rewrite Z.add_0_r. apply Hinv, Hk.
  - rewrite (IH (MemoryStorage.count_channel byChannel log)
                 (fun k' => if String.eqb (L.channel log) k' then seen k' + 1 else seen k')).
    2:{ intros k'. specialize (Hpos k').
        destruct (String.eqb (L.channel log) k'); lia. }
    2:{ intros k' Hk'. unfold MemoryStorage.count_channel.
        destruct (String.eqb (L.channel log) k') eqn:Hc.
        - apply String.eqb_eq in Hc. subst k'.
          rewrite (obj_get_assign_same _ _ _ Hk'), (get_own _ _ Hk'), (Hinv _ Hk').
          specialize (Hpos (L.channel log)).
          destruct (seen (L.channel log) =? 0) eqn:Hz.
          + apply Z.eqb_eq in Hz. rewrite Hz. reflexivity.
          + unfold or_zero_plus_one. simpl. rewrite Hz. simpl.
            destruct (seen (L.channel log) + 1 =? 0) eqn:Hz';
              [apply Z.eqb_eq in Hz'; lia | reflexivity].
        - apply String.eqb_neq in Hc.
          rewrite obj_get_assign_other by congruence. apply Hinv, Hk'. }
    2: exact Hk.
    simpl. destruct (String.eqb (L.channel log) k) eqn:Hc; simpl.
    + replace (seen k + 1 + Z.of_nat (length (List.filter (fun l => String.eqb (L.channel l) k) logs)))
        with (seen k + Z.of_nat (Datatypes.S (length (List.filter (fun l => String.eqb (L.channel l) k) logs))))
        by lia.
      reflexivity.
    + reflexivity.
Qed.

Lemma filter_filter_andb {R : Type} (f g : R -> bool) (l : list R) :
  List.filter g (List.filter f l) = List.filter (fun r => f r && g r) l.
Proof.
  induction l as [|r l IH]; simpl; [reflexivity|].
  destruct (f r); simpl; [destruct (g r)|]; rewrite IH; reflexivity.
Qed.

Lemma filter_ext_bool {R : Type} (f g : R -> bool) (l : list R) :
  (forall r, f r = g r) -> List.filter f l = List.filter g l.
Proof.
  intros Hfg. induction l as [|r l IH]; simpl; [reflexivity|].
  rewrite Hfg, IH. reflexivity.
Qed.

Lemma filter_true {R : Type} (l : list R) : List.filter (fun _ => true) l = l.
Proof. induction l as [|r l IH]; simpl; [|rewrite IH]; reflexivity. Qed.

Lemma date_filtered_window (dateFrom dateTo : option Z) (logs : list L.t) :
  MemoryStorage.date_filtered dateFrom dateTo logs =
    List.filter (in_window dateFrom dateTo) logs.
Proof.
  unfold MemoryStorage.date_filtered, in_window.
  destruct dateFrom as [f|], dateTo as [u|]; simpl.
  - apply filter_filter_andb.
  - apply filter_ext_bool. intros r. rewrite andb_true_r. reflexivity.
  - reflexivity.
  - symmetry. apply filter_true.
Qed.

Lemma count_logs_all (dateFrom dateTo : option Z) (logs : list L.t) :
  Z.of_nat (length (List.filter (in_window dateFrom dateTo) logs)) =
    count_logs dateFrom dateTo (fun _ => true) logs.
Proof.
  unfold count_logs. f_equal. f_equal. apply filter_ext_bool.
  intros r. rewrite andb_true_r. reflexivity.
Qed.

Lemma count_logs_cond (dateFrom dateTo : option Z) (cond : L.t -> bool)
    (logs : list L.t) :
  Z.of_nat (length (List.filter cond (List.filter (in_window dateFrom dateTo) logs))) =
    count_logs dateFrom dateTo cond logs.
Proof. unfold count_logs. rewrite filter_filter_andb. reflexivity. Qed.

Lemma count_scan_all (dateFrom dateTo : option Z) (logs : list L.t) :
  Z.of_nat (length (List.filter (in_window dateFrom dateTo) (scan logs))) =
    count_logs dateFrom dateTo (fun _ => true) logs.
Proof. rewrite length_filter_scan. apply count_logs_all. Qed.

Lemma count_scan_cond (dateFrom dateTo : option Z) (cond : L.t -> bool)
    (logs : list L.t) :
  Z.of_nat (length (List.filter cond (List.filter (in_window dateFrom dateTo) (scan logs)))) =
    count_logs dateFrom dateTo cond logs.
Proof.
  unfold count_logs. rewrite filter_filter_andb, length_filter_scan. reflexivity.
Qed.

(** What [MemoryStorage.getNotificationStats] counts. *)
Lemma memory_stats_rows (dateFrom dateTo : option Z) (logs : list L.t) :
  exists by_channel,
    fst (MemoryStorage.getNotificationStats dateFrom dateTo (memory_of_logs logs)) =
      JObj [ ("total", JNum (count_logs dateFrom dateTo (fun _ => true) logs));
             ("successful",
              JNum (count_logs dateFrom dateTo (fun l => String.eqb (L.status l) "sent") logs));
             ("failed",
              JNum (count_logs dateFrom dateTo (fun l => String.eqb (L.status l) "failed") logs));
             ("byChannel", JObj by_channel) ] /\
    forall channel,
      inherited channel = false ->
      obj_get channel by_channel =
        if count_logs dateFrom dateTo (fun l => String.eqb (L.channel l) channel) logs =? 0
        then JUndefined
        else JNum (count_logs dateFrom dateTo (fun l => String.eqb (L.channel l) channel) logs).
Proof.
  eexists. split.
  - unfold MemoryStorage.getNotificationStats, memory_of_logs,
      MemoryStorage.count_status. cbn [fst MemoryStorage.notificationLogs].
    rewrite date_filtered_window, count_logs_all, !count_logs_cond. reflexivity.
  - intros channel Hchannel.
    rewrite (count_channel_fold _ [] (fun _ => 0))
      by (try exact Hchannel; intros; reflexivity || lia).
    simpl. rewrite count_logs_cond. reflexivity.
Qed.

(** What [DatabaseStorage.getNotificationStats] counts, when it is
    given at most one bound. *)
Lemma database_stats_rows (dateFrom dateTo : option Z) (logs : list L.t) :
  dateFrom = None \/ dateTo = None ->
  fst (DatabaseStorage.getNotificationStats dateFrom dateTo (database_of_logs logs)) =
    Normal
      (JObj [ ("total", JNum (count_logs dateFrom dateTo (fun _ => true) logs));
              ("sent",
               JNum (count_logs dateFrom dateTo
                       (fun l => String.eqb (L.status l) "delivered") logs));
              ("failed",
               JNum (count_logs dateFrom dateTo
                       (fun l => String.eqb (L.status l) "failed") logs));
              ("pending",
               JNum (count_logs dateFrom dateTo
                       (fun l => String.eqb (L.status l) "pending") logs));
              ("successRate",
               JStr (DatabaseStorage.successRate
                       (count_logs dateFrom dateTo
                          (fun l => String.eqb (L.status l) "delivered") logs)
                       (count_logs dateFrom dateTo (fun _ => true) logs)));
              ("channels",
               JObj [ ("email",
                       JNum (count_logs dateFrom dateTo
                               (fun l => String.eqb (L.channel l) "email") logs));
                      ("sms",
                       JNum (count_logs dateFrom dateTo
                               (fun l => String.eqb (L.channel l) "sms") logs));
                      ("push",
                       JNum (count_logs dateFrom dateTo
                               (fun l => String.eqb (L.channel l) "push") logs)) ]) ]).
Proof.
  intros Hbound.
  assert (Hrows :
    rows (match dateTo with
          | Some u => where_ (fun l => L.createdAt l <=? u)
          | None => fun q => q
          end
            (match dateFrom with
             | Some f => where_ (fun l => f <=? L.createdAt l)
             | None => fun q => q
             end (select_from logs))) =
    Normal (List.filter (in_window dateFrom dateTo) (scan logs))).
  { unfold rows, in_window.
    destruct Hbound as [-> | ->]; [destruct dateTo | destruct dateFrom]; simpl.
    - reflexivity.
    - rewrite filter_true. reflexivity.
    - f_equal. apply filter_ext_bool. intros r. rewrite andb_true_r. reflexivity.
    - rewrite filter_true. reflexivity. }
  unfold DatabaseStorage.getNotificationStats, database_of_logs,
    DatabaseStorage.count_where.
  cbn [DatabaseStorage.db DatabaseStorage.notificationLogs].
  destruct Hbound as [-> | ->]; [destruct dateTo | destruct dateFrom];
    cbn beta iota in Hrows |- *; rewrite Hrows; cbn [fst];
    rewrite count_scan_all, !count_scan_cond; reflexivity.
Qed.


End Stats.

Section StatsExamples.
Import Js Drizzle Storage Api.
#[local] Existing Instance insertion_order.


(** A channel that is called constructor is not counted: [byChannel] has
    no own property of that name to start with, the read finds the
    constructor of the object, and what is stored is its source text with
    a 1 after it for every row.  A channel called __proto__ leaves no
    trace at all. *)
Example getNotificationStats_inherited_names :
  obj_get "byChannel"
    match fst (MemoryStorage.getNotificationStats None None
                 (memory_of_logs
                    (Sample.logs_on ["constructor"; "email"; "constructor"; "__proto__"])))
    with
    | JObj stats => stats
    | _ => []
    end =
    JObj [ ("constructor", JStr "function Object() { [native code] }11");
           ("email", JNum 1) ].
Proof. vm_compute. reflexivity. Qed.


(** With both bounds, the second [where] of the database query replaces the
    first: a row older than [dateFrom] is counted by [DatabaseStorage] and
    not by [MemoryStorage]. *)
Lemma getNotificationStats_both_bounds :
  exists db_stats mem_stats,
    fst (getNotificationStats (Some 2000) (Some 3000) (database_of_logs Sample.one_sent_log)) =
      Normal (JObj db_stats) /\
    fst (getNotificationStats (Some 2000) (Some 3000) (memory_of_logs Sample.one_sent_log)) =
      Normal (JObj mem_stats) /\
    obj_get "total" db_stats = JNum 1 /\
    obj_get "total" mem_stats = JNum 0.
Proof.
  eexists _, _. vm_compute. repeat split_and; reflexivity.
Qed.

End StatsExamples.
(** ** Enqueueing through the admin route *)

Section Enqueue.
Import Js Drizzle Storage Api Express AdminRoutes.
Context `{Postgres}.
Variable jwt_verify : string -> option AuthMiddleware.JwtPayload.
Variable isUUID : string -> bool.
Variable parseDate : string -> Z.

Lemma isIn_In (values : list string) (v : string) :
  isIn values v = true <-> In v values.
Proof.
  unfold isIn. rewrite existsb_exists. split.
  - intros (x & Hx & Heq). apply String.eqb_eq in Heq. subst x. exact Hx.
  - intros Hv. exists v. split; [exact Hv | apply String.eqb_refl].
Qed.

Lemma notEmpty_spec (v : string) : notEmpty v = true <-> v <> "".
Proof.
  unfold notEmpty. rewrite negb_true_iff. apply String.eqb_neq.
Qed.

Lemma check_nil (path msg : string) (ok : bool) : check path msg ok = [] <-> ok = true.
Proof. destruct ok; simpl; split; intros Hok; congruence. Qed.

(** The request passes the validators exactly when each of them accepts. *)
Lemma validationResult_nil (body : ReqBody) :
  validationResult isUUID body = [] <->
  isUUID (field (userId body)) = true /\
  In (field (channel body)) channels /\
  field (recipient body) <> "" /\
  field (subject body) <> "" /\
  field (message body) <> "" /\
  optional (priority body) (fun v => isIn priorities (field_value v)) = true.
Proof.
  unfold validationResult.
  rewrite !app_nil, !check_nil, isIn_In, !notEmpty_spec. tauto.
Qed.

(** The decimal digits of a number are hexadecimal digits. *)
Lemma pretty_N_go_hex (x : N) (s : string) :
  Forall (fun c => is_hex c = true) (list_ascii_of_string s) ->
  Forall (fun c => is_hex c = true) (list_ascii_of_string (pretty_N_go x s)).
Proof.
  revert s. induction (N.lt_wf_0 x) as [x _ IH]. intros s Hs.
  destruct (decide (x = 0)%N) as [->|Hx].
  - rewrite pretty_N_go_0. exact Hs.
  - rewrite pretty_N_go_step by lia. apply IH.
    + apply N.div_lt; lia.
    + simpl. constructor; [|exact Hs].
      unfold pretty_N_char. repeat case_match; reflexivity.
Qed.

Lemma pretty_Z_not_priority (n : Z) : ~ In (pretty n) priorities.
Proof.
  assert (Hhex : forall p, ~ In (pretty (Npos p)) priorities).
  { intros p Hin.
    pose proof (pretty_N_go_hex (Npos p) "" (Forall_nil_2 _)) as Hdigits.
    change (pretty (N.pos p)) with (pretty_N_go (N.pos p) "") in Hin.
    simpl in Hin.
    destruct Hin as [Heq|[Heq|[Heq|[Heq|[]]]]]; rewrite <- Heq in Hdigits;
      apply Forall_cons_1 in Hdigits as [Hc _]; discriminate Hc. }
  destruct n as [|p|p].
  - vm_compute. intuition discriminate.
  - exact (Hhex p).
  - change (pretty (Z.neg p)) with ("-" +:+ pretty (N.pos p)). simpl.
    intuition discriminate.
Qed.

(** A priority that the validator accepts is one of the four names, as a
    string. *)
Lemma priority_is_name (v : JsVal) :
  isIn priorities (field_value v) = true ->
  exists name, v = JStr name /\ In name priorities.
Proof.
  intros Hin. destruct v as [| |[]|n|s|o|name]; try (vm_compute in Hin; discriminate Hin).
  - apply isIn_In in Hin. destruct (pretty_Z_not_priority n Hin).
  - exists s. split; [reflexivity | apply isIn_In, Hin].
Qed.

(** What [requireAuth] answers when it does not call [next()]. *)
Lemma requireAuth_refusal {S : Type} `{IStorage S} (authorization : option string)
    (now : Z) (storage storage' : S) (response : Response) :
  AuthMiddleware.requireAuth jwt_verify authorization now storage =
    (inl response, storage') ->
  exists message code,
    json response = Refused message code now /\
    (statusCode response = 401 \/ statusCode response = 500).
Proof.
  unfold AuthMiddleware.requireAuth. intros Hauth.
  repeat case_match; simplify_eq; eauto.
Qed.

Lemma requireAdmin_next (user : U.t) :
  AuthMiddleware.requireAdmin (Some user) = None <->
  U.role user = "admin" \/ U.role user = "superuser".
Proof.
  unfold AuthMiddleware.requireAdmin.
  destruct (String.eqb_spec (U.role user) "admin") as [Ha|Ha],
           (String.eqb_spec (U.role user) "superuser") as [Hs|Hs]; simpl;
    split; intros Hrole; try reflexivity; try discriminate; tauto.
Qed.

Lemma requireAdmin_refusal (user : U.t) :
  U.role user <> "admin" -> U.role user <> "superuser" ->
  AuthMiddleware.requireAdmin (Some user) =
    Some {| statusCode := 403;
            json := Failed "Admin access required" "ADMIN_ACCESS_REQUIRED" |}.
Proof.
  intros Ha Hs. unfold AuthMiddleware.requireAdmin.
  apply String.eqb_neq in Ha, Hs. rewrite Ha, Hs. reflexivity.
Qed.

(** Neither storage is changed by the lookup of the user. *)
Lemma memory_requireAuth_storage (authorization : option string) (now : Z)
    (m : MemoryStorage.t) :
  snd (AuthMiddleware.requireAuth jwt_verify authorization now m) = m.
Proof.
  unfold AuthMiddleware.requireAuth. simpl.
  repeat case_match; simplify_eq; reflexivity.
Qed.

Lemma database_requireAuth_storage (authorization : option string) (now : Z)
    (this : DatabaseStorage.t) :
  snd (AuthMiddleware.requireAuth jwt_verify authorization now this) = this.
Proof.
  unfold AuthMiddleware.requireAuth. simpl. unfold DatabaseStorage.getUser.
  repeat case_match; simplify_eq; reflexivity.
Qed.

Lemma post_refused {S : Type} `{IStorage S} (req : Request) (now now' : Z)
    (rnd : string) (storage storage' : S) (response : Response) :
  AuthMiddleware.requireAuth jwt_verify (authorization req) now storage =
    (inl response, storage') ->
  post_notifications_queue jwt_verify isUUID parseDate req now now' rnd storage =
    (response, storage').
Proof.
  intros Hauth. unfold post_notifications_queue. rewrite Hauth. reflexivity.
Qed.

Lemma post_forbidden {S : Type} `{IStorage S} (req : Request) (now now' : Z)
    (rnd : string) (storage storage' : S) (user : U.t) :
  AuthMiddleware.requireAuth jwt_verify (authorization req) now storage =
    (inr user, storage') ->
  U.role user <> "admin" -> U.role user <> "superuser" ->
  post_notifications_queue jwt_verify isUUID parseDate req now now' rnd storage =
    ({| statusCode := 403;
        json := Failed "Admin access required" "ADMIN_ACCESS_REQUIRED" |}, storage').
Proof.
  intros Hauth Ha Hs. unfold post_notifications_queue.
  rewrite Hauth, (requireAdmin_refusal user Ha Hs). reflexivity.
Qed.

(** Past the two middlewares, the route is the validators and the
    handler. *)
Lemma post_admitted {S : Type} `{IStorage S} (req : Request) (now now' : Z)
    (rnd : string) (storage storage' : S) (user : U.t) :
  AuthMiddleware.requireAuth jwt_verify (authorization req) now storage =
    (inr user, storage') ->
  U.role user = "admin" \/ U.role user = "superuser" ->
  post_notifications_queue jwt_verify isUUID parseDate req now now' rnd storage =
    match validationResult isUUID (body req) with
    | (_ :: _) as errors =>
        ({| statusCode := 400; json := ValidationErrors errors now |}, storage')
    | [] =>
        match
          addToNotificationQueue (notificationData parseDate (body req) now) now' rnd
            storage'
        with
        | (Normal notification, storage'') =>
            ({| statusCode := 201;
                json := Created "Notification added to queue successfully" notification |},
             storage'')
        | (Throw _, storage'') =>
            ({| statusCode := 500;
                json := Failed "Failed to add notification to queue"
                          "ADD_NOTIFICATION_QUEUE_ERROR" |},
             storage'')
        end
    end.
Proof.
  intros Hauth Hrole. unfold post_notifications_queue.
  rewrite Hauth. apply requireAdmin_next in Hrole. rewrite Hrole. reflexivity.
Qed.

Lemma insert_queue_error_fresh (row : Q.t) (table : list Q.t) (n : Z) :
  Q.priority row = JNum n ->
  (forall old, In old table -> Q.id old <> Q.id row) ->
  DatabaseStorage.insert_queue_error row table = None.
Proof.
  intros Hpriority Hfresh. unfold DatabaseStorage.insert_queue_error.
  rewrite Hpriority.
  destruct (existsb (fun r => String.eqb (Q.id r) (Q.id row)) table) eqn:Hex;
    [|reflexivity].
  apply existsb_exists in Hex as (old & Hold & Heq).
  apply String.eqb_eq in Heq. destruct (Hfresh old Hold Heq).
Qed.

(** The request of an administrator that passes the validators, on a
    [MemoryStorage]. *)
Lemma memory_post_accepted (req : Request) (now now' : Z) (rnd : string)
    (m : MemoryStorage.t) (user : U.t) :
  fst (AuthMiddleware.requireAuth jwt_verify (authorization req) now m) = inr user ->
  U.role user = "admin" \/ U.role user = "superuser" ->
  validationResult isUUID (body req) = [] ->
  post_notifications_queue jwt_verify isUUID parseDate req now now' rnd m =
    let item :=
      fst (MemoryStorage.addToNotificationQueue
             (notificationData parseDate (body req) now) now' rnd m) in
    ({| statusCode := 201;
        json := Created "Notification added to queue successfully" item |},
     MemoryStorage.with_queue (memory_queue m ++ [item]) m).
Proof.
  intros Hauth Hrole Hok.
  assert (Hauth' : AuthMiddleware.requireAuth jwt_verify (authorization req) now m =
                   (inr user, m)).
  { pose proof (memory_requireAuth_storage (authorization req) now m) as Hsnd.
    destruct (AuthMiddleware.requireAuth jwt_verify (authorization req) now m).
    simpl in Hauth, Hsnd. congruence. }
  rewrite (post_admitted _ _ _ _ _ _ _ Hauth' Hrole), Hok. reflexivity.
Qed.

(** The same request on a [DatabaseStorage] with a database, before the
    INSERT is run. *)
Lemma database_post_admitted (req : Request) (now now' : Z) (rnd : string)
    (d : DatabaseStorage.Database) (user : U.t) :
  fst (AuthMiddleware.requireAuth jwt_verify (authorization req) now
         {| DatabaseStorage.db := Some d |}) = inr user ->
  U.role user = "admin" \/ U.role user = "superuser" ->
  validationResult isUUID (body req) = [] ->
  post_notifications_queue jwt_verify isUUID parseDate req now now' rnd
    {| DatabaseStorage.db := Some d |} =
    let item :=
      DatabaseStorage.insert_queue_row (notificationData parseDate (body req) now)
        now' rnd in
    match DatabaseStorage.insert_queue_error item (DatabaseStorage.notificationQueue d) with
    | Some _ =>
        ({| statusCode := 500;
            json := Failed "Failed to add notification to queue"
                      "ADD_NOTIFICATION_QUEUE_ERROR" |},
         {| DatabaseStorage.db := Some d |})
    | None =>
        ({| statusCode := 201;
            json := Created "Notification added to queue successfully" item |},
         DatabaseStorage.with_queue (DatabaseStorage.notificationQueue d ++ [item]) d)
    end.
Proof.
  intros Hauth Hrole Hok.
  assert (Hauth' : AuthMiddleware.requireAuth jwt_verify (authorization req) now
                     {| DatabaseStorage.db := Some d |} =
                   (inr user, {| DatabaseStorage.db := Some d |})).
  { pose proof (database_requireAuth_storage (authorization req) now
                  {| DatabaseStorage.db := Some d |}) as Hsnd.
    destruct (AuthMiddleware.requireAuth jwt_verify (authorization req) now
                {| DatabaseStorage.db := Some d |}).
    simpl in Hauth, Hsnd. congruence. }
  rewrite (post_admitted _ _ _ _ _ _ _ Hauth' Hrole), Hok.
  cbn [addToNotificationQueue database_storage].
  unfold DatabaseStorage.addToNotificationQueue. cbn [DatabaseStorage.db].
  destruct (DatabaseStorage.insert_queue_error _ _); reflexivity.
Qed.

(** An INSERT of a request without a priority, under an id that the table
    does not have, is accepted. *)
Lemma insert_without_priority (body : ReqBody) (now now' : Z) (rnd : string)
    (table : list Q.t) :
  priority body = None ->
  (forall old, In old table -> Q.id old <> default rnd (id body)) ->
  DatabaseStorage.insert_queue_error
    (DatabaseStorage.insert_queue_row (notificationData parseDate body now) now' rnd)
    table = None.
Proof.
  intros Hnone Hfresh. apply (insert_queue_error_fresh _ _ 5).
  - simpl. rewrite Hnone. reflexivity.
  - exact Hfresh.
Qed.


End Enqueue.

Section EnqueueExamples.
Import Js Drizzle Storage Api Express AdminRoutes.
#[local] Existing Instance insertion_order.



End EnqueueExamples.

(** ** The theorems above at concrete inputs *)

Section Instances.
Import Js Drizzle Storage Api.
#[local] Existing Instance insertion_order.

Lemma sendEmail_never_throws_witness :
  exists tr',
    EmailService.sendEmail {| EmailService.isEnabled := true |}
      (fun _ => Throw {| EmailService.message := "Unauthorized";
                         EmailService.response :=
                           Some {| EmailService.body := JObj [("errors", JStr "bad key")] |} |})
      {| EmailService.to := "trader@example.com"; EmailService.from := "";
         EmailService.subject := "BTC signal"; EmailService.text := Some "Buy";
         EmailService.html := None |}
      [] = (Normal false, tr').
Proof.
  destruct (sendEmail_never_throws {| EmailService.isEnabled := true |}
              (fun _ => Throw {| EmailService.message := "Unauthorized";
                                 EmailService.response :=
                                   Some {| EmailService.body :=
                                             JObj [("errors", JStr "bad key")] |} |})
              {| EmailService.to := "trader@example.com"; EmailService.from := "";
                 EmailService.subject := "BTC signal"; EmailService.text := Some "Buy";
                 EmailService.html := None |}
              []) as (b & tr' & Hrun & Hthrown & _).
  exists tr'. rewrite Hrun. rewrite (Hthrown _ eq_refl). reflexivity.
Defined.

Lemma updateNotificationQueueStatus_frame_witness :
  exists returned table' new,
    DatabaseStorage.updateNotificationQueueStatus "abc" "sent" None 2000
      Sample.database_one_pending =
      (Normal returned, DatabaseStorage.with_queue table' Sample.database) /\
    table' !! 0%nat = Some new /\
    Q.status new = "sent" /\ Q.recipient new = "trader@example.com".
Proof.
  destruct (updateNotificationQueueStatus_frame "abc" "sent" None 2000
              (MemoryStorage.constructor 0)
              {| DatabaseStorage.users := DatabaseStorage.users Sample.database;
                 DatabaseStorage.notificationQueue :=
                   [DatabaseStorage.insert_queue_row Sample.notification 1000 "abc"];
                 DatabaseStorage.notificationLogs := [];
                 DatabaseStorage.notificationChannels := [] |})
    as (_ & (returned & table' & Hrun & _ & Hrows & _) & _).
  destruct (Hrows 0%nat (DatabaseStorage.insert_queue_row Sample.notification 1000 "abc")
              eq_refl) as (new & Hnew & Hsame & _).
  destruct (Hsame eq_refl) as (Hframe & Hstatus & _).
  exists returned, table', new.
  split; [exact Hrun|]. split; [exact Hnew|]. split; [exact Hstatus|].
  destruct Hframe as (_ & _ & _ & Hrecipient & _). exact Hrecipient.
Defined.


End Instances.

(* ================================================================== *)
(** * Further properties of the storage layer *)

(** ** Removing a queue item *)

Section QueueDeletes.
Import Js Drizzle Storage Api.
Context `{Postgres}.

Lemma filter_sublist {R : Type} (cond : R -> bool) (l : list R) :
  List.filter cond l `sublist_of` l.
Proof.
  induction l as [|r l IH]; simpl; [constructor|].
  destruct (cond r); [apply sublist_skip | apply sublist_cons]; exact IH.
Qed.

Lemma memory_with_queue_same (m : MemoryStorage.t) :
  MemoryStorage.with_queue (MemoryStorage.notificationQueue m) m = m.
Proof. destruct m. reflexivity. Qed.

Lemma memory_delete_found (id : string) (m : MemoryStorage.t) (i : nat) (item : Q.t) :
  list_find (fun n => Q.id n = id) (MemoryStorage.notificationQueue m) = Some (i, item) ->
  MemoryStorage.deleteFromNotificationQueue id m =
    (true, MemoryStorage.with_queue (delete i (MemoryStorage.notificationQueue m)) m).
Proof.
  intros Hfind. unfold MemoryStorage.deleteFromNotificationQueue. rewrite Hfind.
  reflexivity.
Qed.

Lemma memory_delete_missing (id : string) (m : MemoryStorage.t) :
  list_find (fun n => Q.id n = id) (MemoryStorage.notificationQueue m) = None ->
  MemoryStorage.deleteFromNotificationQueue id m = (false, m).
Proof.
  intros Hfind. unfold MemoryStorage.deleteFromNotificationQueue. rewrite Hfind.
  reflexivity.
Qed.

Lemma database_delete_run (id : string) (d : DatabaseStorage.Database) :
  DatabaseStorage.deleteFromNotificationQueue id {| DatabaseStorage.db := Some d |} =
    (Normal (0 <? Z.of_nat (length (List.filter (fun n => String.eqb (Q.id n) id)
                                      (DatabaseStorage.notificationQueue d)))),
     DatabaseStorage.with_queue
       (List.filter (fun n => negb (String.eqb (Q.id n) id))
          (DatabaseStorage.notificationQueue d)) d).
Proof. reflexivity. Qed.

Lemma no_id_eqb (id : string) (l : list Q.t) :
  Forall (fun it => Q.id it <> id) l <->
  Forall (fun it => String.eqb (Q.id it) id = false) l.
Proof.
  split; intros Hl; eapply Forall_impl; try exact Hl; simpl; intros it Hit.
  - apply String.eqb_neq. exact Hit.
  - apply String.eqb_neq. exact Hit.
Qed.

(** X1: [deleteFromNotificationQueue(id)].  [MemoryStorage] cuts out the
    first item with the id, keeps every other item in its place and order,
    and answers true; when no item has the id it answers false and changes
    nothing.  [DatabaseStorage] removes every row with the id, keeps the
    other rows in order, and answers true exactly when some row had the
    id. *)
Theorem deleteFromNotificationQueue_removes (id : string) (m : MemoryStorage.t)
    (d : DatabaseStorage.Database) :
  match MemoryStorage.deleteFromNotificationQueue id m with
  | (true, m') =>
      exists before item after,
        memory_queue m = before ++ item :: after /\ Q.id item = id /\
        Forall (fun it => Q.id it <> id) before /\
        m' = MemoryStorage.with_queue (before ++ after) m
  | (false, m') => m' = m /\ Forall (fun it => Q.id it <> id) (memory_queue m)
  end /\
  exists removed table',
    DatabaseStorage.deleteFromNotificationQueue id {| DatabaseStorage.db := Some d |} =
      (Normal removed, DatabaseStorage.with_queue table' d) /\
    Forall (fun it => Q.id it <> id) table' /\
    table' `sublist_of` DatabaseStorage.notificationQueue d /\
    (forall it, In it (DatabaseStorage.notificationQueue d) -> Q.id it <> id ->
                In it table') /\
    (removed = true <-> Exists (fun it => Q.id it = id) (DatabaseStorage.notificationQueue d)).
Proof.
  split.
  - destruct (list_find (fun n => Q.id n = id) (MemoryStorage.notificationQueue m))
      as [[i item]|] eqn:Hfind.
    + rewrite (memory_delete_found id m i item Hfind).
      destruct (list_find_delete _ _ i item Hfind)
        as (before & after & Hl & Hid & Hbefore & _ & Hdel).
      exists before, item, after. unfold memory_queue. rewrite Hdel. auto.
    + rewrite (memory_delete_missing id m Hfind).
      apply list_find_None in Hfind. auto.
  - eexists _, _. split; [apply database_delete_run|].
    split; [apply no_id_eqb, (Forall_filter_negb (fun n => String.eqb (Q.id n) id))|].
    split; [apply filter_sublist|]. split.
    + intros it Hin Hne. apply filter_In. split; [exact Hin|].
      apply negb_true_iff, String.eqb_neq, Hne.
    + rewrite Z.ltb_lt. rewrite List.Exists_exists. split.
      * intros Hpos.
        destruct (List.filter (fun n => String.eqb (Q.id n) id)
                    (DatabaseStorage.notificationQueue d)) as [|it rest] eqn:Hf;
          [simpl in Hpos; lia|].
        assert (Hin : In it (List.filter (fun n => String.eqb (Q.id n) id)
                               (DatabaseStorage.notificationQueue d)))
          by (rewrite Hf; left; reflexivity).
        apply filter_In in Hin as [Hin Hid]. exists it.
        split; [exact Hin | apply String.eqb_eq, Hid].
      * intros (it & Hin & Hid).
        assert (Hin' : In it (List.filter (fun n => String.eqb (Q.id n) id)
                                (DatabaseStorage.notificationQueue d))).
        { apply filter_In. split; [exact Hin | apply String.eqb_eq, Hid]. }
        destruct (List.filter _ _); [destruct Hin' | simpl; lia].
Qed.

(** An item list without a given id is not touched by a lookup of it. *)
Lemma memory_find_none_after_unique_delete (id : string) (l : list Q.t) (i : nat)
    (item : Q.t) :
  NoDup (map Q.id l) ->
  list_find (fun n => Q.id n = id) l = Some (i, item) ->
  list_find (fun n => Q.id n = id) (delete i l) = None.
Proof.
  intros Hnd Hfind.
  destruct (list_find_delete _ _ i item Hfind)
    as (before & after & Hl & Hid & Hbefore & _ & Hdel).
  rewrite Hdel. apply list_find_None. apply Forall_app. split; [exact Hbefore|].
  rewrite Hl, map_app in Hnd. simpl in Hnd.
  apply NoDup_app in Hnd as (_ & _ & Hnd). apply NoDup_cons in Hnd as [Hnotin _].
  apply Forall_forall. intros y Hy Heq. apply Hnotin.
  rewrite Hid, <- Heq. apply list_elem_of_fmap. exists y. auto.
Qed.

(** X2: a deleted item can no longer be updated.  After
    [deleteFromNotificationQueue(id)], [updateNotificationQueueStatus(id,
    ...)] answers [undefined] and changes nothing: always in
    [DatabaseStorage], and in [MemoryStorage] when the ids of the queue are
    pairwise distinct (with a duplicate id, the second copy is the one
    updated next). *)
Theorem update_after_delete_is_undefined (id status : string)
    (metadata : option (list (string * JsVal))) (now : Z)
    (m : MemoryStorage.t) (d : DatabaseStorage.Database) :
  (NoDup (map Q.id (memory_queue m)) ->
   MemoryStorage.updateNotificationQueueStatus id status metadata now
     (snd (MemoryStorage.deleteFromNotificationQueue id m)) =
     (None, snd (MemoryStorage.deleteFromNotificationQueue id m))) /\
  DatabaseStorage.updateNotificationQueueStatus id status metadata now
    (snd (DatabaseStorage.deleteFromNotificationQueue id {| DatabaseStorage.db := Some d |})) =
    (Normal None,
     snd (DatabaseStorage.deleteFromNotificationQueue id {| DatabaseStorage.db := Some d |})).
Proof.
  split.
  - intros Hnd.
    destruct (list_find (fun n => Q.id n = id) (MemoryStorage.notificationQueue m))
      as [[i item]|] eqn:Hfind.
    + rewrite (memory_delete_found id m i item Hfind). simpl.
      apply memory_update_status_missing. simpl.
      apply (memory_find_none_after_unique_delete id _ i item Hnd Hfind).
    + rewrite (memory_delete_missing id m Hfind). simpl.
      apply memory_update_status_missing, Hfind.
  - rewrite database_delete_run. simpl.
    unfold DatabaseStorage.updateNotificationQueueStatus, update_returning. simpl.
    pose proof (Forall_filter_negb (fun n => String.eqb (Q.id n) id)
                  (DatabaseStorage.notificationQueue d)) as Hnone.
    rewrite (filter_scan_none _ _ Hnone), (map_if_none _ _ _ Hnone). reflexivity.
Qed.

(** X4: enqueue then delete is a round trip.  When no item of the queue
    already has the id of the item that [addToNotificationQueue] returns
    (the id of the notification when it has one, a generated id when it
    has none), deleting by that id answers true and restores the storage
    exactly.  In [DatabaseStorage] this is for an insert that the database
    accepts: a notification whose priority is absent or an integer and
    whose id is not in the table. *)
Theorem delete_after_add_restores (notification : InsertNotificationQueue.t)
    (now : Z) (rnd : string) (m : MemoryStorage.t) (d : DatabaseStorage.Database) :
  (Forall (fun it =>
             Q.id it <>
               default ("queue-" +:+ pretty now +:+ "-" +:+ rnd)
                 (InsertNotificationQueue.id notification))
     (memory_queue m) ->
   Q.id (fst (MemoryStorage.addToNotificationQueue notification now rnd m)) =
     default ("queue-" +:+ pretty now +:+ "-" +:+ rnd)
       (InsertNotificationQueue.id notification) /\
   MemoryStorage.deleteFromNotificationQueue
     (Q.id (fst (MemoryStorage.addToNotificationQueue notification now rnd m)))
     (snd (MemoryStorage.addToNotificationQueue notification now rnd m)) = (true, m)) /\
  (Forall (fun it => Q.id it <> default rnd (InsertNotificationQueue.id notification))
     (DatabaseStorage.notificationQueue d) ->
   (InsertNotificationQueue.priority notification = JUndefined \/
    exists n, InsertNotificationQueue.priority notification = JNum n) ->
   exists item,
     fst (DatabaseStorage.addToNotificationQueue notification now rnd
            {| DatabaseStorage.db := Some d |}) = Normal item /\
     Q.id item = default rnd (InsertNotificationQueue.id notification) /\
     DatabaseStorage.deleteFromNotificationQueue (Q.id item)
       (snd (DatabaseStorage.addToNotificationQueue notification now rnd
               {| DatabaseStorage.db := Some d |})) =
       (Normal true, {| DatabaseStorage.db := Some d |})).
Proof.
  split.
  - intros Hfresh. split; [reflexivity|].
    set (new := fst (MemoryStorage.addToNotificationQueue notification now rnd m)).
    assert (Hid : Q.id new =
                  default ("queue-" +:+ pretty now +:+ "-" +:+ rnd)
                    (InsertNotificationQueue.id notification)) by reflexivity.
    assert (Hadd :
      snd (MemoryStorage.addToNotificationQueue notification now rnd m) =
        MemoryStorage.with_queue (MemoryStorage.notificationQueue m ++ [new]) m)
      by reflexivity.
    rewrite Hadd.
    assert (Hfind :
      list_find (fun n => Q.id n = Q.id new)
        (MemoryStorage.notificationQueue
           (MemoryStorage.with_queue (MemoryStorage.notificationQueue m ++ [new]) m)) =
        Some (length (MemoryStorage.notificationQueue m), new)).
    { apply list_find_Some. simpl. split; [|split; [reflexivity|]].
      - rewrite lookup_app_r by lia. rewrite Nat.sub_diag. reflexivity.
      - intros j y Hj Hlt Hy. rewrite lookup_app_l in Hj by exact Hlt.
        rewrite Forall_forall in Hfresh.
        apply (Hfresh y); [eapply list_elem_of_lookup_2; exact Hj|].
        rewrite <- Hid. exact Hy. }
    rewrite (memory_delete_found _ _ _ _ Hfind). f_equal.
    cbn [MemoryStorage.notificationQueue MemoryStorage.with_queue].
    rewrite delete_take_drop, take_app_length.
    rewrite drop_app_ge by lia.
    replace (Datatypes.S (length (MemoryStorage.notificationQueue m)) -
             length (MemoryStorage.notificationQueue m))%nat with 1%nat by lia.
    simpl. rewrite app_nil_r. destruct m. reflexivity.
  - intros Hfresh Hpriority.
    set (new := DatabaseStorage.insert_queue_row notification now rnd).
    assert (Hid : Q.id new = default rnd (InsertNotificationQueue.id notification))
      by reflexivity.
    assert (Haccepted :
      DatabaseStorage.insert_queue_error new (DatabaseStorage.notificationQueue d) = None).
    { unfold DatabaseStorage.insert_queue_error.
      assert (Hnum : exists n, Q.priority new = JNum n).
      { subst new. simpl. destruct Hpriority as [->|[n ->]]; eauto. }
      destruct Hnum as [n ->].
      destruct (existsb (fun r => String.eqb (Q.id r) (Q.id new))
                  (DatabaseStorage.notificationQueue d)) eqn:Hex; [|reflexivity].
      apply existsb_exists in Hex as (old & Hold & Heq). apply String.eqb_eq in Heq.
      rewrite List.Forall_forall in Hfresh. destruct (Hfresh old Hold). congruence. }
    assert (Hadd :
      DatabaseStorage.addToNotificationQueue notification now rnd
        {| DatabaseStorage.db := Some d |} =
        (Normal new,
         DatabaseStorage.with_queue (DatabaseStorage.notificationQueue d ++ [new]) d)).
    { unfold DatabaseStorage.addToNotificationQueue. cbn [DatabaseStorage.db].
      fold new. rewrite Haccepted. reflexivity. }
    exists new. rewrite Hadd. cbn [fst snd]. split; [reflexivity|].
    split; [exact Hid|].
    unfold DatabaseStorage.with_queue. rewrite database_delete_run.
    cbn [DatabaseStorage.notificationQueue DatabaseStorage.notificationLogs
         DatabaseStorage.notificationChannels DatabaseStorage.users
         DatabaseStorage.with_queue].
    rewrite <- Hid in Hfresh. apply no_id_eqb in Hfresh.
    rewrite !List.filter_app. cbn [List.filter].
    rewrite String.eqb_refl. cbn [negb].
    rewrite (filter_all_false _ _ Hfresh).
    rewrite (filter_all_true (fun n => negb (String.eqb (Q.id n) (Q.id new)))).
    + simpl. rewrite app_nil_r. destruct d. reflexivity.
    + eapply Forall_impl; [exact Hfresh|]. simpl. intros it ->. reflexivity.
Qed.

End QueueDeletes.
(** ** The two backends answer the same reads alike *)

Section ReadsAgree.
Import Js Drizzle Storage Api Backends.
Context `{Postgres}.

Lemma limited_positive {R : Type} (limit : Z) (l : list R) :
  0 < limit -> MemoryStorage.limited (Some limit) l = take (Z.to_nat limit) l.
Proof.
  intros Hpos. unfold MemoryStorage.limited.
  destruct (limit =? 0) eqn:Hz; [apply Z.eqb_eq in Hz; lia|].
  apply slice0_take. lia.
Qed.

Lemma rows_limited {R : Type} (limit : Z) (cmp : R -> R -> Z) (q : Select R) :
  0 < limit ->
  rows (Drizzle.limit limit (orderBy cmp q)) =
    Normal (take (Z.to_nat limit)
              (sort cmp (match config_where q with
                         | Some cond => List.filter cond (scan (from q))
                         | None => scan (from q)
                         end))).
Proof.
  intros Hpos. unfold rows. simpl.
  destruct (limit <? 0) eqn:Hneg; [apply Z.ltb_lt in Hneg; lia | reflexivity].
Qed.

(** The queue reads of [DatabaseStorage] on the rows of a
    [MemoryStorage]. *)
Lemma database_queue_reads (m : MemoryStorage.t) (status : option string) (limit : Z) :
  0 < limit ->
  DatabaseStorage.getQueuedNotifications status (database_of m) =
    (Normal (sort (newest_first Q.createdAt)
               (match status with
                | Some s =>
                    if truthy_str s
                    then List.filter (fun n => String.eqb (Q.status n) s)
                           (scan (memory_queue m))
                    else scan (memory_queue m)
                | None => scan (memory_queue m)
                end)),
     database_of m) /\
  DatabaseStorage.getNotificationQueue (Some limit) (database_of m) =
    (Normal (take (Z.to_nat limit)
               (sort (newest_first Q.createdAt) (scan (memory_queue m)))),
     database_of m) /\
  DatabaseStorage.getFailedNotifications None (database_of m) =
    (Normal (sort (newest_first Q.createdAt)
               (List.filter (fun n => String.eqb (Q.status n) "failed")
                  (scan (memory_queue m)))),
     database_of m).
Proof.
  intros Hpos. repeat split_and.
  - unfold DatabaseStorage.getQueuedNotifications. simpl.
    destruct status as [s|]; [destruct (truthy_str s)|]; reflexivity.
  - unfold DatabaseStorage.getNotificationQueue.
    cbn [DatabaseStorage.db database_of default].
    rewrite rows_limited by exact Hpos. reflexivity.
  - reflexivity.
Qed.

(** X5: the queue reads of the two backends on the same rows.  The
    database server hands its rows over in an order of its own, and the
    ORDER BY of these reads settles only the creation times.  So for
    [getQueuedNotifications(status)] with any status or none and for
    [getFailedNotifications()] the list of [DatabaseStorage] holds the
    same items as the list of [MemoryStorage], with the same sequence of
    creation times, newest first; for [getNotificationQueue(limit)] with a
    positive limit the two lists have the same sequence of creation times.
    When no two items of the queue were created at the same time, the
    three lists are the same in both backends.
    [MemoryStorage.getFailedNotifications] gives its list whatever
    [retryCount] it is passed. *)
Theorem queue_reads_agree (m : MemoryStorage.t) (status : option string) (limit : Z)
    (retryCount : option Z) :
  0 < limit ->
  exists queued queue failed,
    DatabaseStorage.getQueuedNotifications status (database_of m) =
      (Normal queued, database_of m) /\
    DatabaseStorage.getNotificationQueue (Some limit) (database_of m) =
      (Normal queue, database_of m) /\
    DatabaseStorage.getFailedNotifications None (database_of m) =
      (Normal failed, database_of m) /\
    Permutation queued (fst (MemoryStorage.getQueuedNotifications status m)) /\
    Permutation failed (fst (MemoryStorage.getFailedNotifications retryCount m)) /\
    map Q.createdAt queued =
      map Q.createdAt (fst (MemoryStorage.getQueuedNotifications status m)) /\
    map Q.createdAt queue =
      map Q.createdAt (fst (MemoryStorage.getNotificationQueue (Some limit) m)) /\
    map Q.createdAt failed =
      map Q.createdAt (fst (MemoryStorage.getFailedNotifications retryCount m)) /\
    (NoDup (map Q.createdAt (memory_queue m)) ->
     queued = fst (MemoryStorage.getQueuedNotifications status m) /\
     queue = fst (MemoryStorage.getNotificationQueue (Some limit) m) /\
     failed = fst (MemoryStorage.getFailedNotifications retryCount m)).
Proof.
  intros Hpos.
  destruct (database_queue_reads m status limit Hpos) as (Hqueued & Hqueue & Hfailed).
  eexists _, _, _.
  split; [exact Hqueued|]. split; [exact Hqueue|]. split; [exact Hfailed|].
  unfold MemoryStorage.getQueuedNotifications, MemoryStorage.getNotificationQueue,
    MemoryStorage.getFailedNotifications.
  cbn [fst]. rewrite limited_positive by exact Hpos. fold (memory_queue m).
  pose proof (sort_scan Q.createdAt (memory_queue m)) as (Hall_p & Hall_k & Hall_eq).
  pose proof (sort_filter_scan Q.createdAt (fun n => String.eqb (Q.status n) "failed")
                (memory_queue m)) as (Hfail_p & Hfail_k & Hfail_eq).
  assert (Hstatus :
    Permutation
      (sort (newest_first Q.createdAt)
         match status with
         | Some s =>
             if truthy_str s
             then List.filter (fun n => String.eqb (Q.status n) s) (scan (memory_queue m))
             else scan (memory_queue m)
         | None => scan (memory_queue m)
         end)
      (sort (newest_first Q.createdAt)
         match status with
         | Some s =>
             if truthy_str s
             then List.filter (fun n => String.eqb (Q.status n) s) (memory_queue m)
             else memory_queue m
         | None => memory_queue m
         end) /\
    map Q.createdAt
      (sort (newest_first Q.createdAt)
         match status with
         | Some s =>
             if truthy_str s
             then List.filter (fun n => String.eqb (Q.status n) s) (scan (memory_queue m))
             else scan (memory_queue m)
         | None => scan (memory_queue m)
         end) =
    map Q.createdAt
      (sort (newest_first Q.createdAt)
         match status with
         | Some s =>
             if truthy_str s
             then List.filter (fun n => String.eqb (Q.status n) s) (memory_queue m)
             else memory_queue m
         | None => memory_queue m
         end) /\
    (NoDup (map Q.createdAt (memory_queue m)) ->
     sort (newest_first Q.createdAt)
       match status with
       | Some s =>
           if truthy_str s
           then List.filter (fun n => String.eqb (Q.status n) s) (scan (memory_queue m))
           else scan (memory_queue m)
       | None => scan (memory_queue m)
       end =
     sort (newest_first Q.createdAt)
       match status with
       | Some s =>
           if truthy_str s
           then List.filter (fun n => String.eqb (Q.status n) s) (memory_queue m)
           else memory_queue m
       | None => memory_queue m
       end)).
  { destruct status as [s|]; [destruct (truthy_str s)|];
      try exact (sort_scan Q.createdAt (memory_queue m)).
    apply sort_filter_scan. }
  destruct Hstatus as (Hst_p & Hst_k & Hst_eq).
  split; [exact Hst_p|]. split; [exact Hfail_p|]. split; [exact Hst_k|].
  split; [rewrite !map_take, Hall_k; reflexivity|]. split; [exact Hfail_k|].
  intros Hnd. split; [exact (Hst_eq Hnd)|].
  split; [rewrite (Hall_eq Hnd); reflexivity | exact (Hfail_eq Hnd)].
Qed.

(** X6: the log and channel reads of the two backends on the same rows.
    For [getNotificationLogs(limit, channel)] and
    [getNotificationLogsByUser(userId, limit)] with a positive limit the
    two lists have the same sequence of creation times, newest first, and
    are the same list when no two log rows were created at the same time.
    [getNotificationLog(id)] and [getNotificationChannel(id)] find a row
    in one backend exactly when they find one in the other, and the row
    that [DatabaseStorage] finds is a row with the id; it is the row that
    [MemoryStorage] finds when no two rows share an id. *)
Theorem log_reads_agree (m : MemoryStorage.t) (channel : option string)
    (userId id : string) (limit : Z) :
  0 < limit ->
  exists logs by_user log chan,
    DatabaseStorage.getNotificationLogs (Some limit) channel (database_of m) =
      (Normal logs, database_of m) /\
    DatabaseStorage.getNotificationLogsByUser userId (Some limit) (database_of m) =
      (Normal by_user, database_of m) /\
    DatabaseStorage.getNotificationLog id (database_of m) = (Normal log, database_of m) /\
    DatabaseStorage.getNotificationChannel id (database_of m) =
      (Normal chan, database_of m) /\
    map L.createdAt logs =
      map L.createdAt (fst (MemoryStorage.getNotificationLogs (Some limit) channel m)) /\
    map L.createdAt by_user =
      map L.createdAt (fst (MemoryStorage.getNotificationLogsByUser userId (Some limit) m)) /\
    (log = None <-> fst (MemoryStorage.getNotificationLog id m) = None) /\
    (forall l, log = Some l -> In l (memory_logs m) /\ L.id l = id) /\
    (chan = None <-> fst (MemoryStorage.getNotificationChannel id m) = None) /\
    (forall c, chan = Some c -> In c (MemoryStorage.notificationChannels m) /\ C.id c = id) /\
    (NoDup (map L.createdAt (memory_logs m)) ->
     logs = fst (MemoryStorage.getNotificationLogs (Some limit) channel m) /\
     by_user = fst (MemoryStorage.getNotificationLogsByUser userId (Some limit) m)) /\
    (NoDup (map L.id (memory_logs m)) ->
     log = fst (MemoryStorage.getNotificationLog id m)) /\
    (NoDup (map C.id (MemoryStorage.notificationChannels m)) ->
     chan = fst (MemoryStorage.getNotificationChannel id m)).
Proof.
  intros Hpos.
  exists (take (Z.to_nat limit)
            (sort (newest_first L.createdAt)
               match channel with
               | Some c =>
                   if truthy_str c
                   then List.filter (fun l => String.eqb (L.channel l) c)
                          (scan (memory_logs m))
                   else scan (memory_logs m)
               | None => scan (memory_logs m)
               end)),
         (take (Z.to_nat limit)
            (sort (newest_first L.createdAt)
               (List.filter (fun l => bool_decide (L.userId l = Some userId))
                  (scan (memory_logs m))))),
         (head (List.filter (fun l => String.eqb (L.id l) id) (scan (memory_logs m)))),
         (head (List.filter (fun c => String.eqb (C.id c) id)
                  (scan (MemoryStorage.notificationChannels m)))).
  split.
  { unfold DatabaseStorage.getNotificationLogs.
    cbn [DatabaseStorage.db database_of default DatabaseStorage.notificationLogs].
    rewrite rows_limited by exact Hpos.
    destruct channel as [c|]; [destruct (truthy_str c)|]; reflexivity. }
  split.
  { unfold DatabaseStorage.getNotificationLogsByUser.
    cbn [DatabaseStorage.db database_of default DatabaseStorage.notificationLogs].
    rewrite rows_limited by exact Hpos. reflexivity. }
  split; [reflexivity|]. split; [reflexivity|].
  unfold MemoryStorage.getNotificationLogs, MemoryStorage.getNotificationLogsByUser,
    MemoryStorage.getNotificationLog, MemoryStorage.getNotificationChannel.
  cbn [fst]. rewrite !limited_positive by exact Hpos. fold (memory_logs m).
  pose proof (sort_filter_scan L.createdAt
                (fun l => bool_decide (L.userId l = Some userId)) (memory_logs m))
    as (_ & Huser_k & Huser_eq).
  pose proof (head_filter_scan_some L.id id (memory_logs m)) as [Hlog_none Hlog_some].
  pose proof (head_filter_scan_some C.id id (MemoryStorage.notificationChannels m))
    as [Hchan_none Hchan_some].
  assert (Hchannel :
    map L.createdAt
      (sort (newest_first L.createdAt)
         match channel with
         | Some c =>
             if truthy_str c
             then List.filter (fun l => String.eqb (L.channel l) c) (scan (memory_logs m))
             else scan (memory_logs m)
         | None => scan (memory_logs m)
         end) =
    map L.createdAt
      (sort (newest_first L.createdAt)
         match channel with
         | Some c =>
             if truthy_str c
             then List.filter (fun l => String.eqb (L.channel l) c) (memory_logs m)
             else memory_logs m
         | None => memory_logs m
         end) /\
    (NoDup (map L.createdAt (memory_logs m)) ->
     sort (newest_first L.createdAt)
       match channel with
       | Some c =>
           if truthy_str c
           then List.filter (fun l => String.eqb (L.channel l) c) (scan (memory_logs m))
           else scan (memory_logs m)
       | None => scan (memory_logs m)
       end =
     sort (newest_first L.createdAt)
       match channel with
       | Some c =>
           if truthy_str c
           then List.filter (fun l => String.eqb (L.channel l) c) (memory_logs m)
           else memory_logs m
       | None => memory_logs m
       end)).
  { destruct channel as [c|]; [destruct (truthy_str c)|];
      try exact (proj2 (sort_scan L.createdAt (memory_logs m))).
    apply (proj2 (sort_filter_scan L.createdAt _ (memory_logs m))). }
  destruct Hchannel as [Hch_k Hch_eq].
  split; [rewrite !map_take, Hch_k; reflexivity|].
  split; [rewrite !map_take, Huser_k; reflexivity|].
  split.
  { rewrite Hlog_none. destruct (list_find _ (memory_logs m)) as [[i l]|]; simpl;
      split; congruence. }
  split; [exact Hlog_some|].
  split.
  { rewrite Hchan_none.
    destruct (list_find _ (MemoryStorage.notificationChannels m)) as [[i c]|]; simpl;
      split; congruence. }
  split; [exact Hchan_some|].
  split.
  { intros Hnd. rewrite (Hch_eq Hnd), (Huser_eq Hnd). split; reflexivity. }
  split; intros Hnd; apply head_filter_scan_find, Hnd.
Qed.

End ReadsAgree.

Section ReadsAgreeExamples.
Import Js Drizzle Storage Api Backends.
#[local] Existing Instance insertion_order.

Lemma queue_reads_agree_witness :
  DatabaseStorage.getNotificationQueue (Some 2) (database_of Sample.memory_three_items) =
    (Normal (fst (MemoryStorage.getNotificationQueue (Some 2) Sample.memory_three_items)),
     database_of Sample.memory_three_items).
Proof.
  destruct (queue_reads_agree Sample.memory_three_items None 2 None ltac:(lia))
    as (queued & queue & failed & _ & Hqueue & _ & _ & _ & _ & _ & _ & Heq).
  destruct Heq as (_ & <- & _); [|exact Hqueue].
  apply (bool_decide_unpack _). vm_compute. reflexivity.
Defined.

Lemma log_reads_agree_witness :
  DatabaseStorage.getNotificationLog "log-1000-abc"
    (database_of (Sample.memory_one_log "email")) =
    (Normal (fst (MemoryStorage.getNotificationLog "log-1000-abc"
                    (Sample.memory_one_log "email"))),
     database_of (Sample.memory_one_log "email")).
Proof.
  destruct (log_reads_agree (Sample.memory_one_log "email") None "nobody"
              "log-1000-abc" 10 ltac:(lia))
    as (logs & by_user & log & chan & _ & _ & Hlog & _ & _ & _ & _ & _ & _ & _ & _ &
        Heq & _).
  rewrite <- Heq; [exact Hlog|].
  apply (bool_decide_unpack _). vm_compute. reflexivity.
Defined.

(** Two items that were enqueued at the same time come back from a
    [MemoryStorage] in the order of their insertion; a server that reads
    its rows the other way round gives them in the other order. *)
Example queue_reads_differ_on_ties :
  let m :=
    memory_step (AddToNotificationQueue Sample.notification 1000 "b")
      (memory_step (AddToNotificationQueue Sample.notification 1000 "a")
         (MemoryStorage.constructor 0)) in
  map Q.id (fst (MemoryStorage.getQueuedNotifications None m)) =
    ["queue-1000-a"; "queue-1000-b"] /\
  fst (@DatabaseStorage.getQueuedNotifications reverse_order None (database_of m)) =
    Normal (rev (fst (MemoryStorage.getQueuedNotifications None m))).
Proof. split; vm_compute; reflexivity. Qed.

End ReadsAgreeExamples.
(** ** From the admin route to the listing *)

Section EnqueueThenList.
Import Js Drizzle Storage Api Express AdminRoutes.
Context `{Postgres}.
Variable jwt_verify : string -> option AuthMiddleware.JwtPayload.
Variable isUUID : string -> bool.
Variable parseDate : string -> Z.

Lemma sort_In {R : Type} (cmp : R -> R -> Z) (x : R) (l : list R) :
  In x l -> In x (sort cmp l).
Proof.
  intros Hin. apply list_elem_of_In. rewrite sort_Permutation.
  apply list_elem_of_In. exact Hin.
Qed.


End EnqueueThenList.

Section EnqueueThenListExample.
Import Js Drizzle Storage Api Express AdminRoutes.
#[local] Existing Instance insertion_order.


End EnqueueThenListExample.

(** ** Writing and reading back a log row *)

Section LogRoundTrips.
Import Js Drizzle Storage Api.
Context `{Postgres}.

Lemma find_snd_app_new {R : Type} (P : R -> Prop) `{forall x, Decision (P x)}
    (l : list R) (x : R) :
  P x ->
  exists y, snd <$> list_find P (l ++ [x]) = Some y /\ P y /\
            (Forall (fun z => ~ P z) l -> y = x).
Proof.
  intros HP. destruct (list_find P l) as [[i y]|] eqn:Hfind.
  - rewrite (list_find_app_l _ _ [x] _ _ Hfind). exists y. simpl.
    split; [reflexivity|]. apply list_find_Some in Hfind as (Hi & Hy & _).
    split; [exact Hy|]. intros Hnone. rewrite Forall_forall in Hnone.
    exfalso. apply (Hnone y); [eapply list_elem_of_lookup_2; exact Hi | exact Hy].
  - rewrite (list_find_app_r _ _ [x] Hfind). simpl.
    destruct (decide (P x)); [|contradiction]. simpl. exists x. auto.
Qed.

(** X7: a log row that was just created is found by its id.
    [getNotificationLog] with the id of the row that
    [createNotificationLog] returned answers a row with that id, never
    [undefined]; it is the created row itself when no earlier row has the
    same id.  This holds for [MemoryStorage] and for [DatabaseStorage] with
    a database. *)
Theorem created_log_is_found (log : InsertNotificationLog.t) (now : Z) (rnd : string)
    (m : MemoryStorage.t) (d : DatabaseStorage.Database) :
  (exists row,
      fst (MemoryStorage.getNotificationLog
             (L.id (fst (MemoryStorage.createNotificationLog log now rnd m)))
             (snd (MemoryStorage.createNotificationLog log now rnd m))) = Some row /\
      L.id row = L.id (fst (MemoryStorage.createNotificationLog log now rnd m)) /\
      (Forall (fun l => L.id l <> L.id (fst (MemoryStorage.createNotificationLog log now rnd m)))
         (memory_logs m) ->
       row = fst (MemoryStorage.createNotificationLog log now rnd m))) /\
  (exists row,
      fst (DatabaseStorage.getNotificationLog rnd
             (snd (DatabaseStorage.createNotificationLog log now rnd
                     {| DatabaseStorage.db := Some d |}))) = Normal (Some row) /\
      L.id row = rnd /\
      (Forall (fun l => L.id l <> rnd) (DatabaseStorage.notificationLogs d) ->
       row = DatabaseStorage.insert_log_row log now rnd)).
Proof.
  split.
  - unfold MemoryStorage.getNotificationLog. cbn [fst snd MemoryStorage.createNotificationLog
      MemoryStorage.notificationLogs MemoryStorage.with_logs].
    apply find_snd_app_new. reflexivity.
  - unfold DatabaseStorage.getNotificationLog, DatabaseStorage.createNotificationLog.
    cbn [fst snd DatabaseStorage.db DatabaseStorage.with_logs
         DatabaseStorage.notificationLogs].
    rewrite rows_where. cbn [DatabaseStorage.first_row].
    set (new := DatabaseStorage.insert_log_row log now rnd).
    set (table := DatabaseStorage.notificationLogs d ++ [new]).
    assert (Hnew : In new table) by (apply in_or_app; right; left; reflexivity).
    pose proof (head_filter_scan (fun l => String.eqb (L.id l) rnd) table) as Hhead.
    destruct (head (List.filter (fun l => String.eqb (L.id l) rnd) (scan table)))
      as [row|] eqn:Hrow.
    + destruct Hhead as [Hin Hid]. apply String.eqb_eq in Hid.
      exists row. split; [reflexivity|]. split; [exact Hid|].
      intros Hfresh. apply in_app_or in Hin as [Hin|[Hin|[]]]; [|congruence].
      rewrite List.Forall_forall in Hfresh. destruct (Hfresh row Hin Hid).
    + rewrite List.Forall_forall in Hhead. specialize (Hhead new Hnew).
      simpl in Hhead. rewrite String.eqb_refl in Hhead. discriminate Hhead.
Qed.

Lemma spread_field_twice {R : Type} (old : R) (upd : option R) :
  spread_field (spread_field old upd) upd = spread_field old upd.
Proof. destruct upd; reflexivity. Qed.

Lemma apply_log_updates_twice (old : L.t) (updates : PartialNotificationLog.t) :
  apply_log_updates (apply_log_updates old updates) updates =
    apply_log_updates old updates.
Proof.
  unfold apply_log_updates. simpl. rewrite !spread_field_twice. reflexivity.
Qed.

(** Replacing the first match by another match keeps it the first match. *)
Lemma list_find_insert_same {R : Type} (P : R -> Prop) `{forall x, Decision (P x)}
    (l : list R) (i : nat) (x y : R) :
  list_find P l = Some (i, x) -> P y ->
  list_find P (<[i := y]> l) = Some (i, y).
Proof.
  intros Hfind Hy. apply list_find_Some in Hfind as (Hi & _ & Hfirst).
  apply list_find_Some. split.
  - apply list_lookup_insert_eq. eapply lookup_lt_Some. exact Hi.
  - split; [exact Hy|]. intros j z Hj Hlt.
    rewrite list_lookup_insert_ne in Hj by lia. apply (Hfirst j z Hj Hlt).
Qed.

Lemma memory_update_log_found (id : string) (updates : PartialNotificationLog.t)
    (m : MemoryStorage.t) (i : nat) (old : L.t) :
  list_find (fun l => L.id l = id) (MemoryStorage.notificationLogs m) = Some (i, old) ->
  MemoryStorage.updateNotificationLog id updates m =
    (Some (apply_log_updates old updates),
     MemoryStorage.with_logs
       (<[i := apply_log_updates old updates]> (MemoryStorage.notificationLogs m)) m).
Proof.
  intros Hfind. unfold MemoryStorage.updateNotificationLog. rewrite Hfind. reflexivity.
Qed.

Lemma memory_update_log_missing (id : string) (updates : PartialNotificationLog.t)
    (m : MemoryStorage.t) :
  list_find (fun l => L.id l = id) (MemoryStorage.notificationLogs m) = None ->
  MemoryStorage.updateNotificationLog id updates m = (None, m).
Proof.
  intros Hfind. unfold MemoryStorage.updateNotificationLog. rewrite Hfind. reflexivity.
Qed.

(** X8: [MemoryStorage.updateNotificationLog(id, updates)] with updates
    that do not rename the row ([updates] has no [id]) is idempotent, and
    is read back by [getNotificationLog(id)]: a second identical call
    returns the same row and leaves the storage as the first call left it,
    and the lookup of [id] afterwards returns exactly what the update
    returned (the updated row, or [undefined] when no row has the id, in
    which case nothing changed). *)
Theorem updateNotificationLog_idempotent (id : string)
    (updates : PartialNotificationLog.t) (m : MemoryStorage.t) :
  PartialNotificationLog.id updates = None ->
  MemoryStorage.updateNotificationLog id updates
    (snd (MemoryStorage.updateNotificationLog id updates m)) =
    MemoryStorage.updateNotificationLog id updates m /\
  fst (MemoryStorage.getNotificationLog id
         (snd (MemoryStorage.updateNotificationLog id updates m))) =
    fst (MemoryStorage.updateNotificationLog id updates m) /\
  (fst (MemoryStorage.updateNotificationLog id updates m) = None ->
   snd (MemoryStorage.updateNotificationLog id updates m) = m).
Proof.
  intros Hnoid.
  destruct (list_find (fun l => L.id l = id) (MemoryStorage.notificationLogs m))
    as [[i old]|] eqn:Hfind.
  - rewrite !(memory_update_log_found id updates m i old Hfind). cbn [fst snd].
    assert (Hid : L.id (apply_log_updates old updates) = id).
    { apply list_find_Some in Hfind as (_ & Hold & _).
      unfold apply_log_updates. simpl. rewrite Hnoid. exact Hold. }
    pose proof (list_find_insert_same _ _ i old (apply_log_updates old updates) Hfind Hid)
      as Hfind'.
    split; [|split; [|discriminate]].
    + rewrite (memory_update_log_found id updates
                 (MemoryStorage.with_logs
                    (<[i := apply_log_updates old updates]> (MemoryStorage.notificationLogs m))
                    m)
                 i (apply_log_updates old updates) Hfind').
      rewrite apply_log_updates_twice.
      cbn [MemoryStorage.notificationLogs MemoryStorage.with_logs
           MemoryStorage.notificationQueue MemoryStorage.notificationChannels].
      rewrite list_insert_insert_eq. reflexivity.
    + unfold MemoryStorage.getNotificationLog.
      cbn [fst MemoryStorage.notificationLogs MemoryStorage.with_logs].
      rewrite Hfind'. reflexivity.
  - rewrite !(memory_update_log_missing id updates m Hfind). cbn [fst snd].
    split; [apply memory_update_log_missing, Hfind|].
    split; [|reflexivity].
    unfold MemoryStorage.getNotificationLog. rewrite Hfind. reflexivity.
Qed.

End LogRoundTrips.

Section LogRoundTripsExamples.
Import Js Drizzle Storage Api.
#[local] Existing Instance insertion_order.

Lemma created_log_is_found_witness :
  exists row,
    fst (MemoryStorage.getNotificationLog "log-1000-abc" (Sample.memory_one_log "email")) =
      Some row /\
    row = fst (MemoryStorage.createNotificationLog (Sample.log "email" "sent") 1000 "abc"
                 (MemoryStorage.constructor 0)).
Proof.
  destruct (created_log_is_found (Sample.log "email" "sent") 1000 "abc"
              (MemoryStorage.constructor 0) Sample.database)
    as [(row & Hfind & _ & Hnew) _].
  exists row. split; [exact Hfind|]. apply Hnew. constructor.
Defined.

Lemma updateNotificationLog_idempotent_witness :
  fst (MemoryStorage.getNotificationLog "log-1000-abc"
         (snd (MemoryStorage.updateNotificationLog "log-1000-abc" Sample.mark_failed
                 (Sample.memory_one_log "email")))) =
    fst (MemoryStorage.updateNotificationLog "log-1000-abc" Sample.mark_failed
           (Sample.memory_one_log "email")).
Proof.
  destruct (updateNotificationLog_idempotent "log-1000-abc" Sample.mark_failed
              (Sample.memory_one_log "email") ltac:(reflexivity)) as (_ & Hread & _).
  exact Hread.
Defined.

End LogRoundTripsExamples.

(** ** Creating and testing channels *)

Section ChannelFacts.
Import Js Drizzle Storage Api Channels.
Context `{Postgres}.

(** X10: [MemoryStorage.createNotificationChannel] appends a channel that
    is healthy, has zero error and success counts and no health check on
    record, whatever the caller supplied, and that is enabled unless the
    caller said [isEnabled: false].  Adding it never changes which channel
    a type already resolves to: if [getNotificationChannelByType(type)]
    returned a channel before, it returns that same channel afterwards;
    if it returned [undefined], it now returns the new channel exactly
    when the new channel has that type and is enabled. *)
Theorem createNotificationChannel_keeps_resolution (channel : InsertNotificationChannel.t)
    (now : Z) (rnd type : string) (m : MemoryStorage.t) :
  exists new m',
    memory_createNotificationChannel channel now rnd m = (new, m') /\
    MemoryStorage.notificationChannels m' = MemoryStorage.notificationChannels m ++ [new] /\
    C.isHealthy new = true /\ C.errorCount new = 0 /\ C.successCount new = 0 /\
    C.lastHealthCheck new = None /\
    (C.isEnabled new = false <-> InsertNotificationChannel.isEnabled channel = Some false) /\
    match fst (MemoryStorage.getNotificationChannelByType type m) with
    | Some c => fst (MemoryStorage.getNotificationChannelByType type m') = Some c
    | None =>
        fst (MemoryStorage.getNotificationChannelByType type m') =
          if decide (C.type new = type /\ C.isEnabled new = true) then Some new else None
    end.
Proof.
  eexists _, _. split; [reflexivity|]. split; [reflexivity|].
  repeat (split; [reflexivity|]). split.
  - simpl. destruct (InsertNotificationChannel.isEnabled channel) as [[|]|]; simpl;
      split; intros Heq; congruence.
  - unfold MemoryStorage.getNotificationChannelByType.
    cbn [fst MemoryStorage.notificationChannels MemoryStorage.with_channels].
    destruct (list_find _ (MemoryStorage.notificationChannels m)) as [[i c]|] eqn:Hfind.
    + cbn [fmap option_fmap option_map snd].
      rewrite (list_find_app_l _ _ _ _ _ Hfind). reflexivity.
    + cbn [fmap option_fmap option_map].
      rewrite (list_find_app_r _ _ _ Hfind). simpl.
      destruct (decide _); reflexivity.
Qed.

Lemma find_by_id_In (id : string) (channels : list C.t) :
  match snd <$> list_find (fun c => C.id c = id) channels with
  | Some c => In c channels /\ C.id c = id
  | None => Forall (fun c => C.id c <> id) channels
  end.
Proof.
  destruct (list_find _ channels) as [[i c]|] eqn:Hfind; simpl.
  - apply list_find_Some in Hfind as (Hi & Hid & _).
    split; [|exact Hid]. apply list_elem_of_In. eapply list_elem_of_lookup_2. exact Hi.
  - apply list_find_None in Hfind. exact Hfind.
Qed.

(** X11: [testNotificationChannel(id)] tests nothing.  It reports
    success for every channel that exists, enabled or not, healthy or not,
    reports "Channel not found" otherwise, and leaves the storage exactly
    as it was (no health flag, counter or timestamp is written), in
    [MemoryStorage] and in [DatabaseStorage] with a database; without a
    database [DatabaseStorage] reports "Database not available". *)
Theorem testNotificationChannel_only_looks_up (id : string) (now : Z)
    (m : MemoryStorage.t) (d : DatabaseStorage.Database) :
  (snd (memory_testNotificationChannel id now m) = m /\
   match fst (memory_testNotificationChannel id now m) with
   | TestSent message _ timestamp =>
       exists c, In c (MemoryStorage.notificationChannels m) /\ C.id c = id /\
                 message = "Test notification sent via " +:+ C.name c /\ timestamp = now
   | TestFailed key text =>
       key = "error" /\ text = "Channel not found" /\
       Forall (fun c => C.id c <> id) (MemoryStorage.notificationChannels m)
   end) /\
  (snd (database_testNotificationChannel id now {| DatabaseStorage.db := Some d |}) =
     {| DatabaseStorage.db := Some d |} /\
   match fst (database_testNotificationChannel id now {| DatabaseStorage.db := Some d |}) with
   | Normal (TestSent message _ timestamp) =>
       exists c, In c (DatabaseStorage.notificationChannels d) /\ C.id c = id /\
                 message = "Test notification sent via " +:+ C.channelType c /\
                 timestamp = now
   | Normal (TestFailed key text) =>
       key = "message" /\ text = "Channel not found" /\
       Forall (fun c => C.id c <> id) (DatabaseStorage.notificationChannels d)
   | Throw _ => False
   end) /\
  database_testNotificationChannel id now {| DatabaseStorage.db := None |} =
    (Normal (TestFailed "message" "Database not available"),
     {| DatabaseStorage.db := None |}).
Proof.
  repeat split_and.
  - unfold memory_testNotificationChannel, MemoryStorage.getNotificationChannel.
    destruct (snd <$> list_find _ _); reflexivity.
  - unfold memory_testNotificationChannel, MemoryStorage.getNotificationChannel.
    pose proof (find_by_id_In id (MemoryStorage.notificationChannels m)) as Hfind.
    destruct (snd <$> list_find _ _) as [c|]; cbn [fst].
    + destruct Hfind as [Hin Hid]. exists c. auto.
    + auto.
  - unfold database_testNotificationChannel, DatabaseStorage.getNotificationChannel, rows.
    simpl. destruct (head _); reflexivity.
  - unfold database_testNotificationChannel, DatabaseStorage.getNotificationChannel.
    cbn [DatabaseStorage.db]. rewrite rows_where. cbn [DatabaseStorage.first_row].
    pose proof (head_filter_scan (fun c => String.eqb (C.id c) id)
                  (DatabaseStorage.notificationChannels d)) as Hfind.
    destruct (head _) as [c|]; cbn [fst].
    + destruct Hfind as [Hin Hid]. apply String.eqb_eq in Hid. exists c. auto.
    + repeat split_and; try reflexivity.
      eapply Forall_impl; [exact Hfind|]. simpl. intros c. apply String.eqb_neq.
  - reflexivity.
Qed.

End ChannelFacts.

(** ** Password reset tokens *)

Section TokenFacts.
Import Js Drizzle.

(** Dropping rows that the search would skip anyway does not change what
    [find] returns. *)
Lemma list_find_filter_keep {R : Type} (P : R -> Prop) `{forall x, Decision (P x)}
    (keep : R -> bool) (l : list R) :
  (forall x, P x -> keep x = true) ->
  snd <$> list_find P (List.filter keep l) = snd <$> list_find P l.
Proof.
  intros Hkeep. induction l as [|x l IH]; simpl; [reflexivity|].
  destruct (decide (P x)) as [HP|HP].
  - rewrite (Hkeep x HP). simpl. destruct (decide (P x)); [reflexivity | contradiction].
  - destruct (keep x); simpl.
    + destruct (decide (P x)); [contradiction|].
      destruct (list_find P (List.filter keep l)) as [[i y]|],
               (list_find P l) as [[j z]|]; simpl in *; congruence.
    + rewrite IH. destruct (list_find P l) as [[j z]|]; reflexivity.
Qed.

Lemma memory_get_valid (token : string) (now : Z) (tokens : MemoryTokens.t) :
  match fst (MemoryTokens.getPasswordResetToken token now tokens) with
  | Some t =>
      In t tokens /\ T.token t = token /\ T.used t = false /\ now < T.expiresAt t
  | None =>
      Forall (fun t => ~ (T.token t = token /\ T.used t = false /\ now < T.expiresAt t))
        tokens
  end.
Proof.
  unfold MemoryTokens.getPasswordResetToken. cbn [fst].
  destruct (list_find _ tokens) as [[i t]|] eqn:Hfind; simpl.
  - apply list_find_Some in Hfind as (Hi & HP & _).
    split; [|exact HP]. apply list_elem_of_In. eapply list_elem_of_lookup_2. exact Hi.
  - apply list_find_None in Hfind. exact Hfind.
Qed.

Lemma used_set_used (t : T.t) : T.used (MemoryTokens.set_used t) = true.
Proof. reflexivity. Qed.

Lemma lookup_map {R S : Type} (f : R -> S) (l : list R) (i : nat) :
  map f l !! i = f <$> l !! i.
Proof.
  revert i. induction l as [|x l IH]; intros [|i]; simpl; try reflexivity. apply IH.
Qed.

(** X12: [invalidateUserPasswordResetTokens(userId)] ends every reset
    link of the user and touches no one else's.  In [MemoryStorage], after
    the call, whatever [getPasswordResetToken] returns, for any token
    string and at any time, belongs to another user; the number of tokens
    is unchanged and every token of another user is unchanged.  On a table
    where [isUsed] is never NULL, [DatabaseStorage] writes exactly the same
    rows. *)
Theorem invalidate_ends_user_tokens (userId token : string) (now : Z)
    (tokens : MemoryTokens.t) :
  match fst (MemoryTokens.getPasswordResetToken token now
               (snd (MemoryTokens.invalidateUserPasswordResetTokens userId tokens))) with
  | Some t => T.userId t <> userId
  | None => True
  end /\
  length (snd (MemoryTokens.invalidateUserPasswordResetTokens userId tokens)) =
    length tokens /\
  (forall i t, tokens !! i = Some t -> T.userId t <> userId ->
               snd (MemoryTokens.invalidateUserPasswordResetTokens userId tokens) !! i =
                 Some t) /\
  (Forall (fun t => T.isUsed t <> None) tokens ->
   DatabaseTokens.invalidateUserPasswordResetTokens userId
     {| DatabaseTokens.db := Some tokens |} =
     (Normal tt,
      {| DatabaseTokens.db :=
           Some (snd (MemoryTokens.invalidateUserPasswordResetTokens userId tokens)) |})).
Proof.
  repeat split_and.
  - pose proof (memory_get_valid token now
                  (snd (MemoryTokens.invalidateUserPasswordResetTokens userId tokens)))
      as Hget.
    destruct (fst (MemoryTokens.getPasswordResetToken _ _ _)) as [t|]; [|exact I].
    destruct Hget as (Hin & _ & Hunused & _).
    cbn [snd MemoryTokens.invalidateUserPasswordResetTokens] in Hin.
    apply in_map_iff in Hin as (t0 & Ht & _).
    destruct (String.eqb (T.userId t0) userId && negb (T.used t0)) eqn:Hcond.
    + subst t. rewrite used_set_used in Hunused. discriminate Hunused.
    + subst t0. apply andb_false_iff in Hcond as [Hne | Hused].
      * apply String.eqb_neq. exact Hne.
      * rewrite Hunused in Hused. discriminate Hused.
  - cbn [snd MemoryTokens.invalidateUserPasswordResetTokens]. apply length_map.
  - intros i t Hi Hne. cbn [snd MemoryTokens.invalidateUserPasswordResetTokens].
    unfold MemoryTokens.t in *. rewrite lookup_map, Hi. simpl.
    apply String.eqb_neq in Hne. rewrite Hne. reflexivity.
  - intros Hnonnull.
    unfold DatabaseTokens.invalidateUserPasswordResetTokens.
    cbn [DatabaseTokens.db snd MemoryTokens.invalidateUserPasswordResetTokens].
    do 3 f_equal. apply map_ext_in. intros t Hin.
    rewrite List.Forall_forall in Hnonnull. specialize (Hnonnull t Hin).
    unfold T.used. destruct (T.isUsed t) as [[|]|]; try contradiction;
      destruct (String.eqb (T.userId t) userId); reflexivity.
Qed.

(** X13: [cleanupExpiredPasswordResetTokens] keeps exactly the tokens
    that are neither used nor expired at the time of the call, in order:
    both backends keep the same rows, a second cleanup at the same time
    changes nothing, and in [MemoryStorage] a cleanup never changes what a
    later [getPasswordResetToken] returns. *)
Theorem cleanup_keeps_valid_tokens (token : string) (now later : Z)
    (tokens : MemoryTokens.t) :
  Forall (fun t => T.used t = false /\ now < T.expiresAt t)
    (snd (MemoryTokens.cleanupExpiredPasswordResetTokens now tokens)) /\
  DatabaseTokens.cleanupExpiredPasswordResetTokens now {| DatabaseTokens.db := Some tokens |} =
    (Normal tt,
     {| DatabaseTokens.db :=
          Some (snd (MemoryTokens.cleanupExpiredPasswordResetTokens now tokens)) |}) /\
  snd (MemoryTokens.cleanupExpiredPasswordResetTokens now
         (snd (MemoryTokens.cleanupExpiredPasswordResetTokens now tokens))) =
    snd (MemoryTokens.cleanupExpiredPasswordResetTokens now tokens) /\
  (now <= later ->
   fst (MemoryTokens.getPasswordResetToken token later
          (snd (MemoryTokens.cleanupExpiredPasswordResetTokens now tokens))) =
     fst (MemoryTokens.getPasswordResetToken token later tokens)).
Proof.
  cbn [snd MemoryTokens.cleanupExpiredPasswordResetTokens].
  assert (Hkept : Forall (fun t => negb (T.used t) && (now <? T.expiresAt t) = true)
                    (List.filter (fun t => negb (T.used t) && (now <? T.expiresAt t)) tokens)).
  { apply List.Forall_forall. intros t Ht. apply filter_In in Ht as [_ Ht]. exact Ht. }
  repeat split_and.
  - eapply Forall_impl; [exact Hkept|]. simpl. intros t Ht.
    apply andb_true_iff in Ht as [Hunused Hlive].
    apply negb_true_iff in Hunused. apply Z.ltb_lt in Hlive. auto.
  - unfold DatabaseTokens.cleanupExpiredPasswordResetTokens, delete_where.
    cbn [DatabaseTokens.db]. do 3 f_equal. apply filter_ext_bool. intros t.
    unfold T.used. rewrite negb_orb.
    destruct (T.isUsed t) as [[|]|]; simpl;
      rewrite ?Z.leb_antisym, ?negb_involutive; reflexivity.
  - apply filter_all_true. exact Hkept.
  - intros Hlater. unfold MemoryTokens.getPasswordResetToken. cbn [fst].
    apply list_find_filter_keep. intros t (_ & Hunused & Hlive).
    rewrite Hunused. simpl. apply Z.ltb_lt. lia.
Qed.

Lemma cleanup_keeps_valid_tokens_witness :
  fst (MemoryTokens.getPasswordResetToken "hash-1" 2000
         (snd (MemoryTokens.cleanupExpiredPasswordResetTokens 1500
                 [ {| T.id := "t1"; T.userId := "u1"; T.token := "hash-0";
                      T.expiresAt := 1200; T.isUsed := Some false; T.createdAt := 100 |};
                   {| T.id := "t2"; T.userId := "u1"; T.token := "hash-1";
                      T.expiresAt := 3700; T.isUsed := Some false; T.createdAt := 200 |} ]))) =
    fst (MemoryTokens.getPasswordResetToken "hash-1" 2000
           [ {| T.id := "t1"; T.userId := "u1"; T.token := "hash-0";
                T.expiresAt := 1200; T.isUsed := Some false; T.createdAt := 100 |};
             {| T.id := "t2"; T.userId := "u1"; T.token := "hash-1";
                T.expiresAt := 3700; T.isUsed := Some false; T.createdAt := 200 |} ]).
Proof.
  destruct (cleanup_keeps_valid_tokens "hash-1" 1500 2000
              [ {| T.id := "t1"; T.userId := "u1"; T.token := "hash-0";
                   T.expiresAt := 1200; T.isUsed := Some false; T.createdAt := 100 |};
                {| T.id := "t2"; T.userId := "u1"; T.token := "hash-1";
                   T.expiresAt := 3700; T.isUsed := Some false; T.createdAt := 200 |} ])
    as (_ & _ & _ & Hread).
  apply Hread. lia.
Defined.

End TokenFacts.

Section TokenLifecycle.
Import Js Drizzle.
Context `{Postgres}.

Lemma memory_mark_found (token : string) (tokens : list T.t) (i : nat) (t : T.t) :
  list_find (fun t => T.token t = token) tokens = Some (i, t) ->
  MemoryTokens.markPasswordResetTokenAsUsed token tokens =
    (true, <[i := MemoryTokens.set_used t]> tokens).
Proof.
  intros Hfind. unfold MemoryTokens.markPasswordResetTokenAsUsed.
  unfold MemoryTokens.t in *. rewrite Hfind. reflexivity.
Qed.

Lemma memory_mark_missing (token : string) (tokens : list T.t) :
  list_find (fun t => T.token t = token) tokens = None ->
  MemoryTokens.markPasswordResetTokenAsUsed token tokens = (false, tokens).
Proof.
  intros Hfind. unfold MemoryTokens.markPasswordResetTokenAsUsed.
  unfold MemoryTokens.t in *. rewrite Hfind. reflexivity.
Qed.

(** X14: a reset token works once.  After
    [markPasswordResetTokenAsUsed(token)], the test that the reset routes
    of [routes/auth.ts] apply to the result of
    [getPasswordResetToken(token)] rejects it, at any time: in
    [DatabaseStorage] because every row with the token now reads used (the
    lookup itself still returns such a row), in [MemoryStorage] because the
    lookup returns [undefined], provided the token strings stored are
    pairwise distinct.  And what the [MemoryStorage] lookup does return
    always passes that test. *)
Theorem used_token_is_rejected (token : string) (now : Z) (tokens : list T.t) :
  match fst (DatabaseTokens.getPasswordResetToken token
               (snd (DatabaseTokens.markPasswordResetTokenAsUsed token
                       {| DatabaseTokens.db := Some tokens |}))) with
  | Normal resetToken => AuthRoutes.invalid_token resetToken now = true
  | Throw _ => False
  end /\
  (NoDup (map T.token tokens) ->
   fst (MemoryTokens.getPasswordResetToken token now
          (snd (MemoryTokens.markPasswordResetTokenAsUsed token tokens))) = None) /\
  match fst (MemoryTokens.getPasswordResetToken token now tokens) with
  | Some t => AuthRoutes.invalid_token (Some t) now = false
  | None => True
  end.
Proof.
  repeat split_and.
  - unfold DatabaseTokens.markPasswordResetTokenAsUsed,
      DatabaseTokens.getPasswordResetToken.
    cbn [fst snd DatabaseTokens.db]. rewrite rows_where.
    cbn [DatabaseStorage.first_row].
    pose proof (head_filter_scan (fun t => String.eqb (T.token t) token)
                  (map (fun r => if String.eqb (T.token r) token
                                 then MemoryTokens.set_used r else r) tokens)) as Hhead.
    destruct (head _) as [t|]; [|reflexivity].
    destruct Hhead as [Hin Htoken]. apply in_map_iff in Hin as (t0 & Ht & _).
    destruct (String.eqb (T.token t0) token) eqn:Ht0.
    + subst t. reflexivity.
    + subst t0. rewrite Htoken in Ht0. discriminate Ht0.
  - intros Hnd.
    destruct (list_find (fun t => T.token t = token) tokens) as [[i t]|] eqn:Hfind.
    + rewrite (memory_mark_found token tokens i t Hfind). cbn [snd].
      pose proof (memory_get_valid token now (<[i := MemoryTokens.set_used t]> tokens))
        as Hget.
      destruct (fst (MemoryTokens.getPasswordResetToken _ _ _)) as [t'|]; [|reflexivity].
      exfalso. destruct Hget as (Hin & Htoken & Hunused & _).
      apply list_elem_of_In, list_elem_of_lookup in Hin as [j Hj].
      apply list_find_Some in Hfind as (Hi & Hti & _).
      destruct (decide (i = j)) as [->|Hij].
      * rewrite list_lookup_insert_eq in Hj by (eapply lookup_lt_Some; exact Hi).
        injection Hj as <-. discriminate Hunused.
      * rewrite list_lookup_insert_ne in Hj by exact Hij.
        apply Hij. eapply (NoDup_lookup (map T.token tokens) i j token); [exact Hnd | |].
        -- rewrite lookup_map, Hi. simpl. congruence.
        -- rewrite lookup_map, Hj. simpl. congruence.
    + rewrite (memory_mark_missing token tokens Hfind). cbn [snd].
      pose proof (memory_get_valid token now tokens) as Hget.
      destruct (fst (MemoryTokens.getPasswordResetToken _ _ _)) as [t'|]; [|reflexivity].
      exfalso. destruct Hget as (Hin & Htoken & _).
      apply list_find_None in Hfind. rewrite Forall_forall in Hfind.
      apply (Hfind t'); [apply list_elem_of_In, Hin | exact Htoken].
  - pose proof (memory_get_valid token now tokens) as Hget.
    destruct (fst (MemoryTokens.getPasswordResetToken _ _ _)) as [t|]; [|exact I].
    destruct Hget as (_ & _ & Hunused & Hlive). simpl. rewrite Hunused. simpl.
    apply Z.ltb_ge. lia.
Qed.

(** X15: a reset token is valid from its creation until it expires.  In
    [MemoryStorage], when the token string is not stored yet and the
    producer did not create the token as used, [getPasswordResetToken]
    returns the created token at every time before [expiresAt], and
    [undefined] from [expiresAt] on. *)
Theorem created_token_valid_until_expiry (tokenData : InsertPasswordResetToken.t)
    (now later : Z) (uuid : string) (tokens : list T.t) :
  Forall (fun t => T.token t <> InsertPasswordResetToken.token tokenData) tokens ->
  InsertPasswordResetToken.isUsed tokenData <> Some true ->
  fst (MemoryTokens.getPasswordResetToken (InsertPasswordResetToken.token tokenData) later
         (snd (MemoryTokens.createPasswordResetToken tokenData now uuid tokens))) =
    if later <? InsertPasswordResetToken.expiresAt tokenData
    then Some (fst (MemoryTokens.createPasswordResetToken tokenData now uuid tokens))
    else None.
Proof.
  intros Hfresh Hunused.
  unfold MemoryTokens.getPasswordResetToken.
  cbn [fst snd MemoryTokens.createPasswordResetToken]. unfold MemoryTokens.t in *.
  rewrite list_find_app_r.
  - simpl. destruct (decide _) as [Hvalid|Hinvalid]; simpl.
    + destruct Hvalid as (_ & _ & Hlive). simpl in Hlive.
      destruct (later <? _) eqn:Hlt; [reflexivity|]. apply Z.ltb_ge in Hlt. lia.
    + destruct (later <? _) eqn:Hlt; [|reflexivity]. apply Z.ltb_lt in Hlt.
      exfalso. apply Hinvalid. simpl. split; [reflexivity|]. split; [|exact Hlt].
      unfold T.used. simpl.
      destruct (InsertPasswordResetToken.isUsed tokenData) as [[|]|];
        [contradiction | reflexivity | reflexivity].
  - apply list_find_None. eapply Forall_impl; [exact Hfresh|]. simpl.
    intros t Hne (Heq & _). contradiction.
Qed.

End TokenLifecycle.

Section TokenLifecycleExamples.
Import Js Drizzle.
#[local] Existing Instance insertion_order.

Lemma used_token_is_rejected_witness :
  fst (MemoryTokens.getPasswordResetToken "hash-1" 2000
         (snd (MemoryTokens.markPasswordResetTokenAsUsed "hash-1"
                 [ {| T.id := "t1"; T.userId := "u1"; T.token := "hash-0";
                      T.expiresAt := 3600; T.isUsed := Some false; T.createdAt := 100 |};
                   {| T.id := "t2"; T.userId := "u2"; T.token := "hash-1";
                      T.expiresAt := 3700; T.isUsed := Some false; T.createdAt := 200 |} ]))) =
    None.
Proof.
  destruct (used_token_is_rejected "hash-1" 2000
              [ {| T.id := "t1"; T.userId := "u1"; T.token := "hash-0";
                   T.expiresAt := 3600; T.isUsed := Some false; T.createdAt := 100 |};
                {| T.id := "t2"; T.userId := "u2"; T.token := "hash-1";
                   T.expiresAt := 3700; T.isUsed := Some false; T.createdAt := 200 |} ])
    as (_ & Hmem & _).
  apply Hmem. simpl. apply NoDup_ListNoDup.
  constructor; [intros [Heq|[]]; discriminate Heq|].
  constructor; [intros []|]. constructor.
Defined.

Lemma created_token_valid_until_expiry_witness :
  fst (MemoryTokens.getPasswordResetToken "hash-9" 2000
         (snd (MemoryTokens.createPasswordResetToken
                 {| InsertPasswordResetToken.userId := "u1";
                    InsertPasswordResetToken.token := "hash-9";
                    InsertPasswordResetToken.expiresAt := 3601000;
                    InsertPasswordResetToken.isUsed := Some false |}
                 1000 "uuid-1" []))) =
    Some {| T.id := "uuid-1"; T.userId := "u1"; T.token := "hash-9";
            T.expiresAt := 3601000; T.isUsed := Some false; T.createdAt := 1000 |}.
Proof.
  exact (created_token_valid_until_expiry
           {| InsertPasswordResetToken.userId := "u1";
              InsertPasswordResetToken.token := "hash-9";
              InsertPasswordResetToken.expiresAt := 3601000;
              InsertPasswordResetToken.isUsed := Some false |}
           1000 2000 "uuid-1" [] ltac:(constructor) ltac:(discriminate)).
Defined.

End TokenLifecycleExamples.

(** ** Announcements *)

Section AnnouncementFacts.
Import Js MemoryAnnouncements.

(** A comparator that is total and transitive sorts. *)
Lemma sort_insert_sorted {R : Type} (cmp : R -> R -> Z) (x : R) (l : list R) :
  (forall a b, 0 < cmp a b -> cmp b a <= 0) ->
  (forall a b c, cmp a b <= 0 -> cmp b c <= 0 -> cmp a c <= 0) ->
  StronglySorted (fun a b => cmp a b <= 0) l ->
  StronglySorted (fun a b => cmp a b <= 0) (sort_insert cmp x l).
Proof.
  intros Htotal Htrans. induction l as [|y l IH]; simpl; intros Hs.
  - repeat constructor.
  - apply StronglySorted_inv in Hs as [Hl Hy].
    destruct (cmp x y <=? 0) eqn:Hcmp.
    + apply Z.leb_le in Hcmp. constructor.
      * constructor; assumption.
      * constructor; [exact Hcmp|].
        eapply Forall_impl; [exact Hy|]. simpl. intros b Hb. eapply Htrans; eassumption.
    + apply Z.leb_gt in Hcmp. constructor.
      * apply IH, Hl.
      * rewrite sort_insert_Permutation. constructor; [apply Htotal; lia | exact Hy].
Qed.

Lemma sort_sorted {R : Type} (cmp : R -> R -> Z) (l : list R) :
  (forall a b, 0 < cmp a b -> cmp b a <= 0) ->
  (forall a b c, cmp a b <= 0 -> cmp b c <= 0 -> cmp a c <= 0) ->
  StronglySorted (fun a b => cmp a b <= 0) (sort cmp l).
Proof.
  intros Htotal Htrans. induction l as [|x l IH]; simpl.
  - constructor.
  - apply sort_insert_sorted; assumption.
Qed.

Lemma StronglySorted_weaken {R : Type} (rel rel' : R -> R -> Prop) (l : list R) :
  (forall a b, rel a b -> rel' a b) ->
  StronglySorted rel l -> StronglySorted rel' l.
Proof.
  intros Himpl. induction 1 as [|x l Hl IH Hx]; constructor; [exact IH|].
  eapply Forall_impl; [exact Hx|]. exact (Himpl x).
Qed.

Lemma by_priority_le (a b : A.t) :
  by_priority a b <= 0 <->
  A.priority a < A.priority b \/
  (A.priority a = A.priority b /\ A.createdAt b <= A.createdAt a).
Proof.
  unfold by_priority. destruct (A.priority a =? A.priority b) eqn:Hp; simpl.
  - apply Z.eqb_eq in Hp. lia.
  - apply Z.eqb_neq in Hp. lia.
Qed.

Lemma In_sort {R : Type} (cmp : R -> R -> Z) (x : R) (l : list R) :
  In x (sort cmp l) <-> In x l.
Proof.
  split; intros Hin; apply list_elem_of_In; apply list_elem_of_In in Hin.
  - rewrite <- (sort_Permutation cmp l). exact Hin.
  - rewrite (sort_Permutation cmp l). exact Hin.
Qed.

Lemma getAnnouncements_lists_published_aux (audience : option string)
    (this : list A.t) (a : A.t) :
  In a (fst (getAnnouncements audience this)) <->
  In a this /\ A.isPublished a = true /\
  match audience with
  | Some aud => aud = "" \/ A.audience a = aud \/ A.audience a = "all"
  | None => True
  end.
Proof.
  unfold getAnnouncements. cbn [fst]. rewrite In_sort.
  destruct audience as [aud|].
  - unfold truthy_str. destruct (String.eqb aud "") eqn:Hempty; simpl.
    + apply String.eqb_eq in Hempty. rewrite filter_In. intuition.
    + apply String.eqb_neq in Hempty. rewrite !filter_In, orb_true_iff.
      rewrite !String.eqb_eq. intuition.
  - rewrite filter_In. intuition.
Qed.

(** X16: [MemoryStorage.getAnnouncements(audience)] lists the published
    announcements (of the given audience or of audience 'all', when a
    non-empty audience is given), each as often as it is stored and
    nothing else, lower priority number first and, within one priority,
    newest first.  It does not look at [expiresAt], so an announcement
    past its expiry is still listed, and it leaves the storage
    unchanged. *)
Theorem getAnnouncements_lists_published (audience : option string) (this : list A.t) :
  snd (getAnnouncements audience this) = this /\
  StronglySorted
    (fun a b => A.priority a < A.priority b \/
                (A.priority a = A.priority b /\ A.createdAt b <= A.createdAt a))
    (fst (getAnnouncements audience this)) /\
  Permutation (fst (getAnnouncements audience this))
    (List.filter
       (fun a =>
          A.isPublished a &&
          match audience with
          | Some aud =>
              String.eqb aud "" || String.eqb (A.audience a) aud ||
              String.eqb (A.audience a) "all"
          | None => true
          end)
       this) /\
  forall a,
    In a (fst (getAnnouncements audience this)) <->
    In a this /\ A.isPublished a = true /\
    match audience with
    | Some aud => aud = "" \/ A.audience a = aud \/ A.audience a = "all"
    | None => True
    end.
Proof.
  split; [reflexivity|]. split; [|split].
  - unfold getAnnouncements. cbn [fst].
    apply (StronglySorted_weaken (fun a b => by_priority a b <= 0));
      [intros a b; apply by_priority_le|].
    apply sort_sorted.
    + intros a b Hab. apply by_priority_le.
      assert (Hn : ~ by_priority a b <= 0) by lia.
      rewrite by_priority_le in Hn. lia.
    + intros a b c Hab Hbc. apply by_priority_le.
      apply by_priority_le in Hab. apply by_priority_le in Hbc. lia.
  - unfold getAnnouncements. cbn [fst]. rewrite sort_Permutation.
    destruct audience as [aud|].
    + unfold truthy_str. destruct (String.eqb aud "") eqn:Hempty; simpl.
      * erewrite filter_ext; [reflexivity|]. intros a. simpl.
        rewrite andb_true_r. reflexivity.
      * rewrite filter_filter_andb. reflexivity.
    + erewrite filter_ext; [reflexivity|]. intros a. simpl.
      rewrite andb_true_r. reflexivity.
  - intros a. apply getAnnouncements_lists_published_aux.
Qed.

End AnnouncementFacts.

Section AnnouncementPublishing.
Import Js MemoryAnnouncements.

Lemma find_new_announcement (this : list A.t) (new : A.t) :
  Forall (fun a => A.id a <> A.id new) this ->
  list_find (fun a => A.id a = A.id new) (this ++ [new]) = Some (length this, new).
Proof.
  intros Hfresh. rewrite list_find_app_r.
  - simpl. destruct (decide (A.id new = A.id new)); [|contradiction]. reflexivity.
  - apply list_find_None. exact Hfresh.
Qed.

(** X17: an announcement is listed once it is published, and not
    before.  When [createAnnouncement] gives the new announcement an id
    that no stored announcement has, then (a) unless it was created with
    [isPublished: true], it is not in [getAnnouncements] for any
    audience; (b) [publishAnnouncement] with its id returns it with
    [isPublished] true and [publishedAt] set, and every other field but
    [updatedAt] as it was created (id, title, body, type, audience,
    priority, expiry, creation time and author); and (c) the published
    announcement is then in [getAnnouncements()]. *)
Theorem published_announcement_is_listed (announcement : AnnouncementInsert.t)
    (now : Z) (rnd : string) (t1 t2 : Z) (audience : option string) (this : list A.t) :
  Forall (fun a => A.id a <> "announcement-" +:+ pretty now +:+ "-" +:+ rnd) this ->
  (AnnouncementInsert.isPublished announcement <> Some true ->
   ~ In (fst (createAnnouncement announcement now rnd this))
        (fst (getAnnouncements audience (snd (createAnnouncement announcement now rnd this))))) /\
  exists published this',
    publishAnnouncement (A.id (fst (createAnnouncement announcement now rnd this))) t1 t2
      (snd (createAnnouncement announcement now rnd this)) = (Some published, this') /\
    this' = this ++ [published] /\
    A.isPublished published = true /\ A.publishedAt published = Some t1 /\
    A.updatedAt published = t2 /\
    A.id published = A.id (fst (createAnnouncement announcement now rnd this)) /\
    A.title published = AnnouncementInsert.title announcement /\
    A.body published = AnnouncementInsert.body announcement /\
    A.priority published = default 1 (AnnouncementInsert.priority announcement) /\
    A.audience published = default "all" (AnnouncementInsert.audience announcement) /\
    A.type published = default "info" (AnnouncementInsert.type announcement) /\
    A.expiresAt published = AnnouncementInsert.expiresAt announcement /\
    A.createdAt published = now /\
    A.createdBy published = AnnouncementInsert.createdBy announcement /\
    In published (fst (getAnnouncements None this')).
Proof.
  intros Hfresh.
  set (new := fst (createAnnouncement announcement now rnd this)).
  assert (Hstate : snd (createAnnouncement announcement now rnd this) = this ++ [new])
    by reflexivity.
  rewrite Hstate. split.
  - intros Hdraft Hin.
    apply (getAnnouncements_lists_published_aux audience (this ++ [new]) new) in Hin.
    destruct Hin as (Hin & Hpub & _).
    apply in_app_or in Hin as [Hold | [Hnew | []]].
    + rewrite List.Forall_forall in Hfresh. apply (Hfresh new Hold). reflexivity.
    + clear Hnew. unfold new in Hpub. simpl in Hpub.
      destruct (AnnouncementInsert.isPublished announcement) as [[|]|];
        [contradiction | discriminate | discriminate].
  - assert (Hins : forall p : A.t, <[length this := p]> (this ++ [new]) = this ++ [p]).
    { intros p. replace (length this) with (length this + 0)%nat by lia.
      rewrite insert_app_r. reflexivity. }
    unfold publishAnnouncement, updateAnnouncement.
    rewrite (find_new_announcement this new Hfresh).
    unfold MemoryAnnouncements.t in *. rewrite Hins.
    eexists _, _. split; [reflexivity|]. split; [reflexivity|].
    repeat (split; [reflexivity|]).
    apply (getAnnouncements_lists_published_aux None).
    split; [|split; [reflexivity | exact I]].
    apply in_or_app. right. left. reflexivity.
Qed.

Lemma published_announcement_is_listed_witness :
  exists published this',
    publishAnnouncement "announcement-5000-xyz" 6000 6001
      (snd (createAnnouncement
              {| AnnouncementInsert.title := "Maintenance";
                 AnnouncementInsert.body := "Trading signals pause at noon";
                 AnnouncementInsert.type := None;
                 AnnouncementInsert.audience := None;
                 AnnouncementInsert.isPublished := None;
                 AnnouncementInsert.priority := Some 2;
                 AnnouncementInsert.expiresAt := None;
                 AnnouncementInsert.createdBy := None |}
              5000 "xyz" (constructor 0))) = (Some published, this') /\
    In published (fst (getAnnouncements None this')).
Proof.
  destruct (published_announcement_is_listed
              {| AnnouncementInsert.title := "Maintenance";
                 AnnouncementInsert.body := "Trading signals pause at noon";
                 AnnouncementInsert.type := None;
                 AnnouncementInsert.audience := None;
                 AnnouncementInsert.isPublished := None;
                 AnnouncementInsert.priority := Some 2;
                 AnnouncementInsert.expiresAt := None;
                 AnnouncementInsert.createdBy := None |}
              5000 "xyz" 6000 6001 None (constructor 0))
    as [_ (published & this' & Hrun & _ & _ & _ & _ & _ & _ & _ & _ & _ & _ & _ & _ & _ &
           Hin)].
  - constructor; [vm_compute; discriminate | constructor].
  - exists published, this'. split; [exact Hrun | exact Hin].
Defined.

End AnnouncementPublishing.

(** ** server/utils/validation.ts *)

Section ValidationFacts.
Import Validation.

Lemma filter_idem {R : Type} (keep : R -> bool) (l : list R) :
  List.filter keep (List.filter keep l) = List.filter keep l.
Proof.
  apply filter_all_true. apply List.Forall_forall. intros x Hx.
  apply filter_In in Hx as [_ Hx]. exact Hx.
Qed.

Lemma filter_length_le {R : Type} (keep : R -> bool) (l : list R) :
  (length (List.filter keep l) <= length l)%nat.
Proof.
  induction l as [|x l IH]; simpl; [lia|]. destruct (keep x); simpl; lia.
Qed.

Lemma sanitizeInput_chars (input : string) :
  list_ascii_of_string (sanitizeInput input) =
    List.filter (fun c => negb (is_markup c)) (list_ascii_of_string input).
Proof. unfold sanitizeInput. apply list_ascii_of_string_of_list_ascii. Qed.

Lemma sanitizeInput_clean (input : string) :
  Forall (fun c => is_markup c = false) (list_ascii_of_string input) ->
  sanitizeInput input = input.
Proof.
  intros Hclean. unfold sanitizeInput. rewrite filter_all_true.
  - apply string_of_list_ascii_of_string.
  - eapply Forall_impl; [exact Hclean|]. simpl. intros c ->. reflexivity.
Qed.

Lemma length_list_ascii_of_string (s : string) :
  length (list_ascii_of_string s) = String.length s.
Proof. induction s as [|c s IH]; simpl; [reflexivity|]. rewrite IH. reflexivity. Qed.

Lemma list_ascii_of_string_app (a b : string) :
  list_ascii_of_string (a ++ b) = list_ascii_of_string a ++ list_ascii_of_string b.
Proof. induction a as [|c a IH]; simpl; [reflexivity|]. rewrite IH. reflexivity. Qed.

Lemma string_of_list_ascii_app (a b : list ascii) :
  string_of_list_ascii (a ++ b) = (string_of_list_ascii a ++ string_of_list_ascii b)%string.
Proof. induction a as [|c a IH]; simpl; [reflexivity|]. rewrite IH. reflexivity. Qed.

(** X18: [sanitizeInput] removes every occurrence of the five characters
    less-than, greater-than, double quote, single quote and ampersand,
    and nothing else: none of them is left in the result, the result is
    never longer than the input, a string that has none of them is
    returned unchanged (and only such a string is), sanitizing twice is
    sanitizing once, and sanitizing a concatenation is concatenating the
    sanitized parts. *)
Theorem sanitizeInput_strips_markup (input other : string) :
  Forall (fun c => is_markup c = false) (list_ascii_of_string (sanitizeInput input)) /\
  (String.length (sanitizeInput input) <= String.length input)%nat /\
  (sanitizeInput input = input <->
   Forall (fun c => is_markup c = false) (list_ascii_of_string input)) /\
  sanitizeInput (sanitizeInput input) = sanitizeInput input /\
  sanitizeInput (input ++ other) = (sanitizeInput input ++ sanitizeInput other)%string.
Proof.
  assert (Hout : Forall (fun c => is_markup c = false)
                   (list_ascii_of_string (sanitizeInput input))).
  { rewrite sanitizeInput_chars. apply List.Forall_forall. intros c Hc.
    apply filter_In in Hc as [_ Hc]. apply negb_true_iff. exact Hc. }
  split; [exact Hout|]. split; [|split; [|split]].
  - rewrite <- !length_list_ascii_of_string, sanitizeInput_chars.
    apply filter_length_le.
  - split; [|apply sanitizeInput_clean].
    intros Heq. rewrite <- Heq. exact Hout.
  - apply sanitizeInput_clean, Hout.
  - unfold sanitizeInput.
    rewrite list_ascii_of_string_app, List.filter_app, string_of_list_ascii_app.
    reflexivity.
Qed.

Lemma in_class_not_markup (k : CharClass) (c : ascii) :
  in_class k c = true -> is_markup c = false.
Proof.
  unfold in_class, is_markup. generalize (nat_of_ascii c). intros n Hn.
  repeat (apply orb_false_iff; split); apply Nat.eqb_neq; intros ->;
    destruct k; vm_compute in Hn; discriminate Hn.
Qed.

Lemma matches_Forall2 (pattern : list CharClass) (s : list ascii) :
  matches pattern s = true <-> Forall2 (fun k c => in_class k c = true) pattern s.
Proof.
  revert s. induction pattern as [|k pattern IH]; intros [|c s]; simpl.
  - split; [constructor | reflexivity].
  - split; [discriminate | intros Hf; inversion Hf].
  - split; [discriminate | intros Hf; inversion Hf].
  - rewrite andb_true_iff, IH. split.
    + intros [Hc Hs]. constructor; assumption.
    + intros Hf. inversion Hf; subst. auto.
Qed.

Lemma is_upper_not_markup (c : ascii) : is_upper c = true -> is_markup c = false.
Proof.
  unfold is_upper, is_markup. generalize (nat_of_ascii c). intros n Hn.
  repeat (apply orb_false_iff; split); apply Nat.eqb_neq; intros ->;
    vm_compute in Hn; discriminate Hn.
Qed.

(** X19: a string that [isValidUUID] accepts has exactly 36 characters,
    each of them a hexadecimal digit or a dash, with the dashes at
    positions 9, 14, 19 and 24 and a version digit 1 to 5 at position 15;
    [sanitizeInput] returns such a string unchanged. *)
Theorem isValidUUID_shape (str : string) :
  isValidUUID str = true ->
  String.length str = 36%nat /\
  Forall (fun c => in_class Hex c = true \/ in_class Dash c = true)
    (list_ascii_of_string str) /\
  (forall i, In i [8; 13; 18; 23]%nat ->
             exists c, list_ascii_of_string str !! i = Some c /\ in_class Dash c = true) /\
  (exists c, list_ascii_of_string str !! 14%nat = Some c /\ in_class Version c = true) /\
  sanitizeInput str = str.
Proof.
  unfold isValidUUID. intros Hvalid. apply matches_Forall2 in Hvalid.
  assert (Hlen : length (list_ascii_of_string str) = 36%nat).
  { rewrite <- (Forall2_length _ _ _ Hvalid). reflexivity. }
  assert (Hat : forall i k, uuidRegex !! i = Some k ->
                  exists c, list_ascii_of_string str !! i = Some c /\ in_class k c = true).
  { intros i k Hk. destruct (Forall2_lookup_l _ _ _ _ _ Hvalid Hk) as (c & Hc & Hin).
    exists c. auto. }
  repeat split_and.
  - rewrite <- length_list_ascii_of_string. exact Hlen.
  - apply Forall_forall. intros c Hc. apply list_elem_of_lookup in Hc as [i Hi].
    destruct (Forall2_lookup_r _ _ _ _ _ Hvalid Hi) as (k & Hk & Hin).
    apply list_elem_of_lookup_2 in Hk.
    destruct k; auto; left; revert Hin; unfold in_class;
      generalize (nat_of_ascii c); intros n Hn.
    + apply andb_true_iff in Hn as [H1 H2].
      apply Nat.leb_le in H1. apply Nat.leb_le in H2.
      apply orb_true_iff. left. apply orb_true_iff. left.
      apply andb_true_iff. split; apply Nat.leb_le; lia.
    + repeat (apply orb_true_iff in Hn as [Hn|Hn]); apply Nat.eqb_eq in Hn; subst n;
        reflexivity.
  - intros i Hi. apply Hat.
    destruct Hi as [<-|[<-|[<-|[<-|[]]]]]; reflexivity.
  - apply Hat. reflexivity.
  - apply sanitizeInput_clean. apply Forall_forall. intros c Hc.
    apply list_elem_of_lookup in Hc as [i Hi].
    destruct (Forall2_lookup_r _ _ _ _ _ Hvalid Hi) as (k & _ & Hin).
    apply (in_class_not_markup k c Hin).
Qed.

Lemma isValidUUID_shape_witness :
  String.length "123e4567-e89b-42d3-a456-426614174000" = 36%nat /\
  sanitizeInput "123e4567-e89b-42d3-a456-426614174000" =
    "123e4567-e89b-42d3-a456-426614174000".
Proof.
  destruct (isValidUUID_shape "123e4567-e89b-42d3-a456-426614174000" ltac:(reflexivity))
    as (Hlen & _ & _ & _ & Hclean).
  split; [exact Hlen | exact Hclean].
Defined.

(** X20: [isValidSymbol] accepts exactly the strings made of two to ten
    capital letters A to Z followed by USDT; [sanitizeInput] returns an
    accepted symbol unchanged. *)
Theorem isValidSymbol_shape (symbol : string) :
  (isValidSymbol symbol = true <->
   exists base : string,
     symbol = (base ++ "USDT")%string /\
     (2 <= String.length base <= 10)%nat /\
     Forall (fun c => is_upper c = true) (list_ascii_of_string base)) /\
  (isValidSymbol symbol = true -> sanitizeInput symbol = symbol).
Proof.
  assert (Hshape :
    isValidSymbol symbol = true <->
    exists base : string,
      symbol = (base ++ "USDT")%string /\
      (2 <= String.length base <= 10)%nat /\
      Forall (fun c => is_upper c = true) (list_ascii_of_string base)).
  { unfold isValidSymbol. rewrite !andb_true_iff, String.eqb_eq, forallb_forall.
    rewrite !Nat.leb_le. split.
    - intros ((((Hlen & Hmin) & Hmax) & Hupper) & Hsuffix).
      exists (string_of_list_ascii
                (take (length (list_ascii_of_string symbol) - 4) (list_ascii_of_string symbol))).
      split; [|split].
      + rewrite <- Hsuffix, <- string_of_list_ascii_app, take_drop.
        symmetry. apply string_of_list_ascii_of_string.
      + rewrite <- length_list_ascii_of_string, list_ascii_of_string_of_list_ascii.
        rewrite length_take. lia.
      + rewrite list_ascii_of_string_of_list_ascii. apply List.Forall_forall. exact Hupper.
    - intros (base & -> & Hlen & Hupper).
      rewrite <- length_list_ascii_of_string in Hlen.
      rewrite list_ascii_of_string_app, length_app. simpl.
      replace (length (list_ascii_of_string base) + 4 - 4)%nat
        with (length (list_ascii_of_string base)) by lia.
      rewrite take_app_length, drop_app_length.
      repeat split; try lia.
      apply List.Forall_forall. exact Hupper. }
  split; [exact Hshape|].
  intros Hvalid. apply Hshape in Hvalid as (base & -> & _ & Hupper).
  apply sanitizeInput_clean. rewrite list_ascii_of_string_app. apply Forall_app. split.
  - eapply Forall_impl; [exact Hupper|]. exact is_upper_not_markup.
  - repeat constructor.
Qed.

Lemma isValidSymbol_shape_witness :
  sanitizeInput "BTCUSDT" = "BTCUSDT".
Proof.
  destruct (isValidSymbol_shape "BTCUSDT") as [_ Hclean].
  apply Hclean. reflexivity.
Defined.

End ValidationFacts.

(** ** server/services/emailService.ts: what reaches the client *)

Section EmailTransportFacts.
Import Js EmailService.

Lemma spread_if_not_empty (s : option string) : spread_if s <> Some ""%string.
Proof.
  destruct s as [v|]; simpl; [|discriminate].
  destruct (truthy_str v) eqn:Hv; [|discriminate].
  intros Heq. injection Heq as ->. discriminate Hv.
Qed.



End EmailTransportFacts.

(** ** The conditional parts on small storages *)

Section ConditionalParts.
Import Js Drizzle Api.
#[local] Existing Instance insertion_order.

Lemma update_after_delete_is_undefined_witness :
  MemoryStorage.updateNotificationQueueStatus "queue-1000-abc" "sent" None 5000
    (snd (MemoryStorage.deleteFromNotificationQueue "queue-1000-abc"
            Sample.memory_one_pending)) =
    (None, snd (MemoryStorage.deleteFromNotificationQueue "queue-1000-abc"
                  Sample.memory_one_pending)).
Proof.
  destruct (update_after_delete_is_undefined "queue-1000-abc" "sent" None 5000
              Sample.memory_one_pending Sample.database) as [Hmemory _].
  apply Hmemory. apply NoDup_ListNoDup. vm_compute.
  constructor; [intros [] | constructor].
Defined.

Lemma delete_after_add_restores_witness :
  MemoryStorage.deleteFromNotificationQueue "queue-2000-xyz"
    (snd (MemoryStorage.addToNotificationQueue Sample.notification 2000 "xyz"
            Sample.memory_one_pending)) = (true, Sample.memory_one_pending) /\
  DatabaseStorage.deleteFromNotificationQueue "xyz"
    (snd (DatabaseStorage.addToNotificationQueue Sample.notification 2000 "xyz"
            {| DatabaseStorage.db := Some Sample.database |})) =
    (Normal true, {| DatabaseStorage.db := Some Sample.database |}).
Proof.
  destruct (delete_after_add_restores Sample.notification 2000 "xyz"
              Sample.memory_one_pending Sample.database) as [Hmemory Hdatabase].
  split.
  - apply Hmemory. vm_compute. constructor; [discriminate | constructor].
  - destruct Hdatabase as (item & Hitem & Hid & Hdelete);
      [constructor | right; exists 5; reflexivity |].
    rewrite Hid in Hdelete. exact Hdelete.
Defined.

Lemma invalidate_ends_user_tokens_witness :
  DatabaseTokens.invalidateUserPasswordResetTokens "u1"
    {| DatabaseTokens.db :=
         Some [ {| T.id := "t1"; T.userId := "u1"; T.token := "hash-0";
                   T.expiresAt := 3600; T.isUsed := Some false; T.createdAt := 100 |};
                {| T.id := "t2"; T.userId := "u2"; T.token := "hash-1";
                   T.expiresAt := 3700; T.isUsed := Some false; T.createdAt := 200 |} ] |} =
    (Normal tt,
     {| DatabaseTokens.db :=
          Some [ {| T.id := "t1"; T.userId := "u1"; T.token := "hash-0";
                    T.expiresAt := 3600; T.isUsed := Some true; T.createdAt := 100 |};
                 {| T.id := "t2"; T.userId := "u2"; T.token := "hash-1";
                    T.expiresAt := 3700; T.isUsed := Some false; T.createdAt := 200 |} ] |}).
Proof.
  destruct (invalidate_ends_user_tokens "u1" "hash-0" 1000
              [ {| T.id := "t1"; T.userId := "u1"; T.token := "hash-0";
                   T.expiresAt := 3600; T.isUsed := Some false; T.createdAt := 100 |};
                {| T.id := "t2"; T.userId := "u2"; T.token := "hash-1";
                   T.expiresAt := 3700; T.isUsed := Some false; T.createdAt := 200 |} ])
    as (_ & _ & _ & Hdatabase).
  etransitivity; [apply Hdatabase | reflexivity].
  repeat constructor; discriminate.
Defined.

End ConditionalParts.

(** ** Removing a channel or an announcement *)

Section KeyedDeletes.
Context {R K : Type} `{EqDecision K}.

(** With pairwise distinct keys, cutting out the first row with a key
    leaves no row with that key. *)
Lemma delete_unique_key (key : R -> K) (k : K) (l : list R) (i : nat) (x : R) :
  NoDup (map key l) ->
  list_find (fun r => key r = k) l = Some (i, x) ->
  Forall (fun r => key r <> k) (delete i l).
Proof.
  intros Hnd Hfind.
  destruct (list_find_delete _ _ i x Hfind)
    as (before & after & Hl & Hk & Hbefore & _ & Hdel).
  rewrite Hdel. apply Forall_app. split; [exact Hbefore|].
  rewrite Hl, map_app in Hnd. simpl in Hnd.
  apply NoDup_app in Hnd as (_ & _ & Hnd). apply NoDup_cons in Hnd as [Hnotin _].
  apply Forall_forall. intros y Hy Heq. apply Hnotin.
  rewrite Hk, <- Heq. apply list_elem_of_fmap. exists y. auto.
Qed.

(** Cutting out one row does not change what a search returns, unless the
    search returned that row. *)
Lemma list_find_delete_other (P : R -> Prop) `{forall x, Decision (P x)} (l : list R)
    (i : nat) (x c : R) :
  l !! i = Some x -> c <> x ->
  snd <$> list_find P l = Some c ->
  snd <$> list_find P (delete i l) = Some c.
Proof.
  revert i. induction l as [|b l IH]; intros i Hi Hne Hfind; [discriminate Hi|].
  destruct i as [|i]; simpl in *.
  - injection Hi as ->. destruct (decide (P x)) as [HP|HP].
    + simpl in Hfind. congruence.
    + destruct (list_find P l) as [[j y]|]; simpl in *; [exact Hfind | discriminate].
  - destruct (decide (P b)) as [HP|HP]; [exact Hfind|].
    specialize (IH i Hi Hne).
    destruct (list_find P l) as [[j y]|]; simpl in *; [|discriminate].
    specialize (IH Hfind).
    destruct (list_find P (delete i l)) as [[j' y']|]; simpl in *;
      [exact IH | discriminate].
Qed.

End KeyedDeletes.

Section ChannelDeletes.
Import Js Drizzle Storage Api Channels.
Context `{Postgres}.

(** X9: after [deleteNotificationChannel(id)] the channel is gone.  In
    [DatabaseStorage] with a database, and in [MemoryStorage] when the
    channel ids are pairwise distinct, [testNotificationChannel(id)]
    afterwards reports that the channel was not found.  In
    [MemoryStorage] the queue and the log are unchanged (items and log
    rows that name the channel stay), and a type that resolved to a
    channel with another id still resolves to that channel. *)
Theorem deleteNotificationChannel_removes (id type : string) (now : Z)
    (m : MemoryStorage.t) (d : DatabaseStorage.Database) :
  (NoDup (map C.id (MemoryStorage.notificationChannels m)) ->
   fst (memory_testNotificationChannel id now (snd (memory_deleteNotificationChannel id m))) =
     TestFailed "error" "Channel not found") /\
  fst (database_testNotificationChannel id now
         (snd (database_deleteNotificationChannel id {| DatabaseStorage.db := Some d |}))) =
    Normal (TestFailed "message" "Channel not found") /\
  memory_queue (snd (memory_deleteNotificationChannel id m)) = memory_queue m /\
  memory_logs (snd (memory_deleteNotificationChannel id m)) = memory_logs m /\
  (forall c, fst (MemoryStorage.getNotificationChannelByType type m) = Some c ->
             C.id c <> id ->
             fst (MemoryStorage.getNotificationChannelByType type
                    (snd (memory_deleteNotificationChannel id m))) = Some c).
Proof.
  split; [|split; [|split; [|split]]].
  - intros Hnd.
    assert (Hnone : Forall (fun c => C.id c <> id)
              (MemoryStorage.notificationChannels
                 (snd (memory_deleteNotificationChannel id m)))).
    { unfold memory_deleteNotificationChannel.
      destruct (list_find (fun c => C.id c = id) (MemoryStorage.notificationChannels m))
        as [[i c]|] eqn:Hfind; cbn [snd].
      - cbn [MemoryStorage.notificationChannels MemoryStorage.with_channels].
        apply (delete_unique_key C.id id _ i c Hnd Hfind).
      - apply list_find_None in Hfind. exact Hfind. }
    unfold memory_testNotificationChannel, MemoryStorage.getNotificationChannel.
    apply (list_find_None (fun c => C.id c = id)) in Hnone. rewrite Hnone. reflexivity.
  - unfold database_deleteNotificationChannel, delete_where.
    cbn [DatabaseStorage.db snd].
    unfold database_testNotificationChannel, DatabaseStorage.getNotificationChannel.
    cbn [DatabaseStorage.db DatabaseStorage.notificationChannels
         DatabaseStorage.with_channels].
    rewrite rows_where.
    rewrite (filter_scan_none _ _
               (Forall_filter_negb (fun c => String.eqb (C.id c) id)
                  (DatabaseStorage.notificationChannels d))).
    reflexivity.
  - unfold memory_deleteNotificationChannel. destruct (list_find _ _) as [[i c]|]; reflexivity.
  - unfold memory_deleteNotificationChannel. destruct (list_find _ _) as [[i c]|]; reflexivity.
  - intros c Hc Hid. unfold memory_deleteNotificationChannel.
    destruct (list_find (fun c => C.id c = id) (MemoryStorage.notificationChannels m))
      as [[i x]|] eqn:Hfind; cbn [snd]; [|exact Hc].
    apply list_find_Some in Hfind as (Hi & Hx & _).
    unfold MemoryStorage.getNotificationChannelByType in *.
    cbn [fst MemoryStorage.notificationChannels MemoryStorage.with_channels] in *.
    apply (list_find_delete_other _ _ i x c Hi); [congruence | exact Hc].
Qed.

End ChannelDeletes.

Section ChannelDeletesExamples.
Import Js Drizzle Storage Api Channels.
#[local] Existing Instance insertion_order.

Lemma deleteNotificationChannel_removes_witness :
  fst (memory_testNotificationChannel "channel-1" 900
         (snd (memory_deleteNotificationChannel "channel-1" (MemoryStorage.constructor 0)))) =
    TestFailed "error" "Channel not found".
Proof.
  destruct (deleteNotificationChannel_removes "channel-1" "email" 900
              (MemoryStorage.constructor 0) Sample.database) as [Hmemory _].
  apply Hmemory. apply NoDup_ListNoDup. vm_compute.
  repeat (constructor; [simpl; intuition discriminate|]). constructor.
Defined.

End ChannelDeletesExamples.

Section AnnouncementDeletes.
Import Js MemoryAnnouncements.

(** X22: [MemoryStorage.deleteAnnouncement(id)] answers true exactly when
    some announcement has the id.  Afterwards [getAnnouncements] lists
    nothing that it did not list before, still lists every announcement
    with another id that it listed before, and, when the ids are pairwise
    distinct, lists no announcement with the deleted id. *)
Theorem deleteAnnouncement_unlists (id : string) (audience : option string)
    (this : list A.t) :
  (fst (deleteAnnouncement id this) = true <-> Exists (fun a => A.id a = id) this) /\
  (forall a, In a (fst (getAnnouncements audience (snd (deleteAnnouncement id this)))) ->
             In a (fst (getAnnouncements audience this))) /\
  (forall a, In a (fst (getAnnouncements audience this)) -> A.id a <> id ->
             In a (fst (getAnnouncements audience (snd (deleteAnnouncement id this))))) /\
  (NoDup (map A.id this) ->
   forall a, In a (fst (getAnnouncements audience (snd (deleteAnnouncement id this)))) ->
             A.id a <> id).
Proof.
  unfold deleteAnnouncement.
  destruct (list_find (fun a => A.id a = id) this) as [[i x]|] eqn:Hfind; cbn [fst snd].
  - destruct (list_find_delete _ _ i x Hfind)
      as (before & after & Hl & Hx & Hbefore & _ & Hdel).
    split; [|split; [|split]].
    + split; [intros _ | reflexivity]. apply Exists_exists. exists x.
      split; [|exact Hx]. rewrite Hl. apply list_elem_of_In, in_or_app. right. left.
      reflexivity.
    + intros a Ha. apply getAnnouncements_lists_published_aux in Ha as (Hin & Hrest).
      apply getAnnouncements_lists_published_aux. split; [|exact Hrest].
      unfold MemoryAnnouncements.t in *. rewrite Hdel in Hin. rewrite Hl.
      apply in_app_or in Hin as [Hin|Hin]; apply in_or_app; [left | right; right]; exact Hin.
    + intros a Ha Hne. apply getAnnouncements_lists_published_aux in Ha as (Hin & Hrest).
      apply getAnnouncements_lists_published_aux. split; [|exact Hrest].
      unfold MemoryAnnouncements.t in *. rewrite Hdel. rewrite Hl in Hin.
      apply in_app_or in Hin as [Hin|[Hin|Hin]]; apply in_or_app;
        [left; exact Hin | congruence | right; exact Hin].
    + intros Hnd a Ha. apply getAnnouncements_lists_published_aux in Ha as (Hin & _).
      pose proof (delete_unique_key A.id id this i x Hnd Hfind) as Hnone.
      rewrite List.Forall_forall in Hnone. apply Hnone. exact Hin.
  - apply list_find_None in Hfind. split; [|split; [|split]].
    + split; [discriminate|]. intros Hex. apply Exists_exists in Hex as (a & Ha & Hid).
      rewrite Forall_forall in Hfind. destruct (Hfind a Ha Hid).
    + auto.
    + auto.
    + intros _ a Ha. apply getAnnouncements_lists_published_aux in Ha as (Hin & _).
      rewrite List.Forall_forall in Hfind. apply Hfind. exact Hin.
Qed.

Lemma deleteAnnouncement_unlists_witness :
  List.Forall (fun a => A.id a <> "announcement-1")
    (fst (getAnnouncements None
            (snd (deleteAnnouncement "announcement-1"
                    (MemoryAnnouncements.constructor 0))))).
Proof.
  destruct (deleteAnnouncement_unlists "announcement-1" None
              (MemoryAnnouncements.constructor 0)) as (_ & _ & _ & Hgone).
  apply List.Forall_forall. apply Hgone. apply NoDup_ListNoDup. vm_compute.
  constructor; [intros [] | constructor].
Defined.

End AnnouncementDeletes.
